(** * UHDM lowering engine: range flattening, struct path expansion,
      scope table and module specialization

    Shallow embedding of the normalisation functions of
    [uhdm-plugin/UhdmAst.cc] (the [BUILD_UPSTREAM] configuration) and
    the properties stated about them.

    Conventions of the embedding.
    - An [AST::AstNode] is a record carrying the fields the engine reads
      or writes.  Pointers to nodes that are only read are represented by
      the node value; [clone()] is therefore the identity.
    - Integer fields are unbounded [Z].  The field [integer] of a constant
      holds the number the constant stands for; code that reads it as the
      [uint32_t] it is sees it modulo [2^32] ([to_uint32]), and a call that
      builds an unsigned constant from an [int] converts the argument first.
      The [int], [uint32_t] and [size_t] arithmetic of the range engine has
      its wrap-around written out ([to_int], [to_uint32], [size_t_mul]).
    - [log_error], a failed [log_assert] and undefined behaviour (null
      dereference, out-of-range vector index) end the run; functions that can
      reach one of them return a [result].
    - The target AST's own simplifier ([AstNode::simplify], run to its
      fixpoint) is not part of this code base: it is a parameter
      ([ast_simplify]) of the functions that call it.
    - The naming helpers work on [std::string] positions, [npos] being
      [None]; a VPI object is given by the strings [vpi_get_str] reads. *)

From stdpp Require Import gmap strings list fin_maps pretty.
From Stdlib Require Import ZArith Lia Ascii.

#[local] Set Warnings "-register-all".
#[local] Open Scope Z_scope.

(** ** Fatal outcomes *)

Inductive failure : Type :=
| LogError (msg : string)
| AssertionFailed (cond : string)
| Undefined (what : string)
| OutOfFuel.

Inductive result (A : Type) : Type :=
| Ok (a : A)
| Abort (f : failure).
Arguments Ok {A} a.
Arguments Abort {A} f.

#[global] Instance result_ret : MRet result := @Ok.
#[global] Instance result_bind : MBind result :=
  fun A B f m => match m with Ok a => f a | Abort e => Abort e end.
#[global] Instance result_fmap : FMap result :=
  fun A B f m => match m with Ok a => Ok (f a) | Abort e => Abort e end.

Definition log_error {A} (msg : string) : result A := Abort (LogError msg).

Definition log_assert (cond : bool) (text : string) : result unit :=
  if cond then Ok tt else Abort (AssertionFailed text).

(** [v[i]] on a [std::vector]: reading past the end is undefined. *)
Definition vector_at {A} (v : list A) (i : nat) : result A :=
  match v !! i with
  | Some x => Ok x
  | None => Abort (Undefined "vector index out of range")
  end.

(** [v[v.size() - k - 1]] with the subtraction done on [size_t]: when
    [k >= v.size()] the index wraps around and is out of range. *)
Definition vector_at_back {A} (v : list A) (k : nat) : result A :=
  if (k <? length v)%nat then vector_at v (length v - k - 1)
  else Abort (Undefined "vector index out of range").

(** A loop whose body can end the run. *)
Fixpoint fold_result {A B} (f : A -> B -> result A) (l : list B) (a : A)
    : result A :=
  match l with
  | [] => Ok a
  | x :: l => a ← f a x; fold_result f l a
  end.

Definition is_ok {A} (r : result A) : bool :=
  match r with Ok _ => true | Abort _ => false end.

(** ** Machine integers that the flattening code mixes *)

Definition size_t_mul (a b : Z) : Z := (a * b) mod 2 ^ 64.
Definition to_int (z : Z) : Z := (z + 2 ^ 31) mod 2 ^ 32 - 2 ^ 31.
Definition to_uint32 (z : Z) : Z := z mod 2 ^ 32.

(** ** The target AST *)

Module AST.

Inductive AstNodeType : Type :=
| AST_NONE | AST_DESIGN | AST_MODULE | AST_PACKAGE | AST_CELL | AST_CELLTYPE
| AST_WIRE | AST_MEMORY | AST_PARAMETER | AST_LOCALPARAM | AST_PARASET
| AST_TYPEDEF | AST_ENUM | AST_ENUM_ITEM
| AST_STRUCT | AST_UNION | AST_STRUCT_ITEM | AST_WIRETYPE
| AST_RANGE | AST_CONSTANT | AST_REALVALUE | AST_IDENTIFIER | AST_DOT
| AST_ADD | AST_SUB | AST_MUL
| AST_FCALL | AST_TCALL | AST_ASSIGN | AST_BLOCK | AST_INITIAL | AST_ALWAYS.

#[global] Instance AstNodeType_eq_dec : EqDecision AstNodeType.
Proof. solve_decision. Defined.

Inductive AstNode : Type := mkAstNode {
  type : AstNodeType;
  str : string;
  children : list AstNode;
  attributes : gmap string AstNode;
  bits : list bool;
  integer : Z;
  range_left : Z;
  range_right : Z;
  range_swapped : bool;
  is_input : bool;
  is_output : bool;
  basic_prep : bool;
  multirange_dimensions : list Z;
  multirange_swapped : list bool;
  id2ast : option AstNode
}.

(** [type2str]: the name of the enumerator. *)
Definition type2str (t : AstNodeType) : string :=
  match t with
  | AST_NONE => "AST_NONE" | AST_DESIGN => "AST_DESIGN"
  | AST_MODULE => "AST_MODULE" | AST_PACKAGE => "AST_PACKAGE"
  | AST_CELL => "AST_CELL" | AST_CELLTYPE => "AST_CELLTYPE"
  | AST_WIRE => "AST_WIRE" | AST_MEMORY => "AST_MEMORY"
  | AST_PARAMETER => "AST_PARAMETER" | AST_LOCALPARAM => "AST_LOCALPARAM"
  | AST_PARASET => "AST_PARASET" | AST_TYPEDEF => "AST_TYPEDEF"
  | AST_ENUM => "AST_ENUM" | AST_ENUM_ITEM => "AST_ENUM_ITEM"
  | AST_STRUCT => "AST_STRUCT" | AST_UNION => "AST_UNION"
  | AST_STRUCT_ITEM => "AST_STRUCT_ITEM" | AST_WIRETYPE => "AST_WIRETYPE"
  | AST_RANGE => "AST_RANGE" | AST_CONSTANT => "AST_CONSTANT"
  | AST_REALVALUE => "AST_REALVALUE" | AST_IDENTIFIER => "AST_IDENTIFIER"
  | AST_DOT => "AST_DOT" | AST_ADD => "AST_ADD" | AST_SUB => "AST_SUB"
  | AST_MUL => "AST_MUL" | AST_FCALL => "AST_FCALL" | AST_TCALL => "AST_TCALL"
  | AST_ASSIGN => "AST_ASSIGN" | AST_BLOCK => "AST_BLOCK"
  | AST_INITIAL => "AST_INITIAL" | AST_ALWAYS => "AST_ALWAYS"
  end.

(** [new AstNode(type, child1, child2, ...)] *)
Definition new_AstNode (t : AstNodeType) (cs : list AstNode) : AstNode :=
  {| type := t; str := ""; children := cs; attributes := ∅; bits := [];
     integer := 0; range_left := -1; range_right := 0; range_swapped := false;
     is_input := false; is_output := false; basic_prep := false;
     multirange_dimensions := []; multirange_swapped := []; id2ast := None |}.

(** Field assignments. *)
Definition set_type (t : AstNodeType) (n : AstNode) : AstNode :=
  mkAstNode t (str n) (children n) (attributes n) (bits n) (integer n)
    (range_left n) (range_right n) (range_swapped n) (is_input n) (is_output n)
    (basic_prep n) (multirange_dimensions n) (multirange_swapped n) (id2ast n).

Definition set_str (s : string) (n : AstNode) : AstNode :=
  mkAstNode (type n) s (children n) (attributes n) (bits n) (integer n)
    (range_left n) (range_right n) (range_swapped n) (is_input n) (is_output n)
    (basic_prep n) (multirange_dimensions n) (multirange_swapped n) (id2ast n).

Definition set_children (cs : list AstNode) (n : AstNode) : AstNode :=
  mkAstNode (type n) (str n) cs (attributes n) (bits n) (integer n)
    (range_left n) (range_right n) (range_swapped n) (is_input n) (is_output n)
    (basic_prep n) (multirange_dimensions n) (multirange_swapped n) (id2ast n).

Definition set_attributes (a : gmap string AstNode) (n : AstNode) : AstNode :=
  mkAstNode (type n) (str n) (children n) a (bits n) (integer n)
    (range_left n) (range_right n) (range_swapped n) (is_input n) (is_output n)
    (basic_prep n) (multirange_dimensions n) (multirange_swapped n) (id2ast n).

Definition set_basic_prep (b : bool) (n : AstNode) : AstNode :=
  mkAstNode (type n) (str n) (children n) (attributes n) (bits n) (integer n)
    (range_left n) (range_right n) (range_swapped n) (is_input n) (is_output n)
    b (multirange_dimensions n) (multirange_swapped n) (id2ast n).

Definition set_multirange (dims : list Z) (sw : list bool) (n : AstNode) : AstNode :=
  mkAstNode (type n) (str n) (children n) (attributes n) (bits n) (integer n)
    (range_left n) (range_right n) (range_swapped n) (is_input n) (is_output n)
    (basic_prep n) dims sw (id2ast n).

Definition set_port (input output : bool) (n : AstNode) : AstNode :=
  mkAstNode (type n) (str n) (children n) (attributes n) (bits n) (integer n)
    (range_left n) (range_right n) (range_swapped n) input output
    (basic_prep n) (multirange_dimensions n) (multirange_swapped n) (id2ast n).

Definition set_range (left right : Z) (n : AstNode) : AstNode :=
  mkAstNode (type n) (str n) (children n) (attributes n) (bits n) (integer n)
    left right (range_swapped n) (is_input n) (is_output n)
    (basic_prep n) (multirange_dimensions n) (multirange_swapped n) (id2ast n).

Definition set_id2ast (p : option AstNode) (n : AstNode) : AstNode :=
  mkAstNode (type n) (str n) (children n) (attributes n) (bits n) (integer n)
    (range_left n) (range_right n) (range_swapped n) (is_input n) (is_output n)
    (basic_prep n) (multirange_dimensions n) (multirange_swapped n) p.

(** [AstNode::mkconst_int(v, is_signed, width)]: a constant node standing
    for the number [v]; [bits] holds [width] bits, least significant first.
    The parameter is a [uint32_t]: a signed constant made from an [int]
    stands for that [int], an unsigned one for its value modulo [2^32],
    which the calls with [is_signed = false] on an [int] that can be
    negative pass as [to_uint32 v]. *)
Definition mkconst_int (v : Z) (width : nat) : AstNode :=
  {| type := AST_CONSTANT; str := ""; children := []; attributes := ∅;
     bits := (fun i => Z.testbit v (Z.of_nat i)) <$> seq 0 width;
     integer := v; range_left := Z.of_nat width - 1; range_right := 0;
     range_swapped := false; is_input := false; is_output := false;
     basic_prep := false; multirange_dimensions := []; multirange_swapped := [];
     id2ast := None |}.

(** [AstNode::mkconst_str(s)]: a constant node carrying the string. *)
Definition mkconst_str (s : string) : AstNode :=
  set_str s (new_AstNode AST_CONSTANT []).

End AST.
Export AST.

(** Attribute keys, as in [ID::]. *)
Module ID.
Definition packed_ranges : string := "\packed_ranges".
Definition unpacked_ranges : string := "\unpacked_ranges".
Definition wiretype : string := "\wiretype".
Definition force_convert : string := "\force_convert".
Definition partial : string := "\partial".
Definition whitebox : string := "\whitebox".
Definition keep : string := "\keep".
End ID.

(** [AST_INTERNAL::current_scope] and [AST_INTERNAL::current_ast_mod]. *)
Record AstInternal : Type := mkAstInternal {
  current_scope : gmap string AstNode;
  current_ast_mod : option AstNode
}.

(** ** Value of an index expression

    The engine only builds expression trees; folding them is left to the
    target AST.  [eval] gives the integer such a tree denotes, identifiers
    being read in [env]. *)
Fixpoint eval (env : string -> Z) (n : AstNode) : option Z :=
  match n with
  | mkAstNode AST_CONSTANT _ _ _ _ v _ _ _ _ _ _ _ _ _ => Some v
  | mkAstNode AST_IDENTIFIER s [] _ _ _ _ _ _ _ _ _ _ _ _ => Some (env s)
  | mkAstNode AST_ADD _ [a; b] _ _ _ _ _ _ _ _ _ _ _ _ =>
      x ← eval env a; y ← eval env b; Some (x + y)
  | mkAstNode AST_SUB _ [a; b] _ _ _ _ _ _ _ _ _ _ _ _ =>
      x ← eval env a; y ← eval env b; Some (x - y)
  | mkAstNode AST_MUL _ [a; b] _ _ _ _ _ _ _ _ _ _ _ _ =>
      x ← eval env a; y ← eval env b; Some (x * y)
  | _ => None
  end.

(** The pair of values a range node denotes. *)
Definition eval_range (env : string -> Z) (r : AstNode) : option (Z * Z) :=
  match children r with
  | [l; h] => x ← eval env l; y ← eval env h; Some (x, y)
  | _ => None
  end.

(** ** Range nodes *)

Definition make_range (left right : Z) : AstNode :=
  {| type := AST_RANGE; str := "";
     children := [mkconst_int left 32; mkconst_int right 32];
     attributes := ∅; bits := []; integer := 0;
     range_left := left; range_right := right; range_swapped := false;
     is_input := false; is_output := false; basic_prep := false;
     multirange_dimensions := []; multirange_swapped := []; id2ast := None |}.

(** The children of an attribute, or the empty vector when it is absent:
    [attributes.count(k) ? attributes[k]->children : {}]. *)
Definition attribute_children (n : AstNode) (k : string) : list AstNode :=
  match attributes n !! k with
  | Some a => children a
  | None => []
  end.

Definition has_attribute (n : AstNode) (k : string) : bool :=
  bool_decide (is_Some (attributes n !! k)).

(** A one-bit constant 1 whose children are [rs]: the carrier of the
    [packed_ranges] and [unpacked_ranges] attributes. *)
Definition ranges_attribute (rs : list AstNode) : AstNode :=
  set_children rs (mkconst_int 1 1).

Definition add_multirange_wire (node : AstNode)
    (packed_ranges unpacked_ranges : list AstNode) (reverse_ranges : bool) : AstNode :=
  let packed_ranges := if reverse_ranges then reverse packed_ranges else packed_ranges in
  let a1 := <[ID.packed_ranges := ranges_attribute packed_ranges]> (attributes node) in
  let unpacked_ranges := if reverse_ranges then reverse unpacked_ranges else unpacked_ranges in
  let a2 := <[ID.unpacked_ranges := ranges_attribute unpacked_ranges]> a1 in
  set_attributes a2 node.

(** ** Range flattening engine *)

Section RangeEngine.

(** [while (n->simplify(true, false, false, 1, -1, false, false)) {}]:
    the target AST's simplifier run on [n] until nothing changes, reading
    the ambient scope.  It is external to this code base. *)
Variable ast_simplify : AstInternal -> AstNode -> AstNode.

(** The loop of [add_multirange_attribute].  It returns the wire node with
    its dimension tables extended, the product of the widths, and the range
    nodes as the loop leaves them (they are the attribute's own children,
    completed and simplified in place).  The bounds are compared and
    subtracted as the [uint32_t] they are, the results are stored in a
    [std::vector<int>], and the stored width is converted back to [size_t]
    for the product. *)
Fixpoint add_multirange_attribute_loop (st : AstInternal) (wire_node : AstNode)
    (size : Z) (ranges : list AstNode) : result (AstNode * Z * list AstNode) :=
  match ranges with
  | [] => Ok (wire_node, size, [])
  | r :: rest =>
      _ ← log_assert (bool_decide (is_Some (current_ast_mod st)))
            "AST_INTERNAL::current_ast_mod";
      let r := if (length (children r) =? 1)%nat
               then set_children (children r ++ take 1 (children r)) r else r in
      let r := ast_simplify st r in
      c0 ← vector_at (children r) 0;
      c1 ← vector_at (children r) 1;
      _ ← log_assert (bool_decide (type c0 = AST_CONSTANT))
            "ranges[i]->children[0]->type == AST::AST_CONSTANT";
      _ ← log_assert (bool_decide (type c1 = AST_CONSTANT))
            "ranges[i]->children[1]->type == AST::AST_CONSTANT";
      let i0 := to_uint32 (integer c0) in
      let i1 := to_uint32 (integer c1) in
      let lo := to_int (Z.min i0 i1) in
      let width := to_int (Z.max i0 i1 - Z.min i0 i1 + 1) in
      let wire_node :=
        set_multirange (multirange_dimensions wire_node ++ [lo; width])
                       (multirange_swapped wire_node ++ [range_swapped r])
                       wire_node in
      let size := size_t_mul size width in
      '(wire_node, size, rest) ← add_multirange_attribute_loop st wire_node size rest;
      Ok (wire_node, size, r :: rest)
  end.

Definition add_multirange_attribute (st : AstInternal) (wire_node : AstNode)
    (ranges : list AstNode) : result (AstNode * Z * list AstNode) :=
  add_multirange_attribute_loop st wire_node 1 ranges.

(** The running products pushed by the first loop of [convert_range]:
    [elem_size *= dims[j + 1] - dims[j]] for [j = 0, 2, 4, ...], computed
    in [int].  A product that does not fit is undefined in C++; the
    embedding takes the two's-complement result. *)
Fixpoint elem_sizes (elem_size : Z) (dims : list Z) : list Z :=
  match dims with
  | lo :: w :: rest =>
      let elem_size := to_int (elem_size * (w - lo)) in
      elem_size :: elem_sizes elem_size rest
  | _ => []
  end.

Definition single_elem_size (dims : list Z) : list Z :=
  reverse (1 :: elem_sizes 1 dims).

(** [convert_range(id, packed_ranges, unpacked_ranges, i)].  The recursion
    goes from selector [i] to the last selector of [id]; [fuel] bounds its
    depth ([convert_range] below supplies one unit per selector). *)
Fixpoint convert_range_rec (fuel : nat) (st : AstInternal) (id : AstNode)
    (packed_ranges unpacked_ranges : list AstNode) (i : nat) : result AstNode :=
  _ ← log_assert (bool_decide (is_Some (current_ast_mod st)))
        "AST_INTERNAL::current_ast_mod";
  _ ← log_assert (bool_decide (is_Some (current_scope st !! str id)))
        "AST_INTERNAL::current_scope.count(id->str)";
  wire_node ← match current_scope st !! str id with
              | Some w => Ok w
              | None => Abort (Undefined "null wire_node")
              end;
  _ ← log_assert (negb (bool_decide (multirange_dimensions wire_node = [])))
        "!wire_node->multirange_dimensions.empty()";
  let single_elem_size := single_elem_size (multirange_dimensions wire_node) in
  _ ← log_assert (i <? length unpacked_ranges + length packed_ranges)%nat
        "i < static_cast<int>(unpacked_ranges.size() + packed_ranges.size())";
  _ ← log_assert (negb (bool_decide (children id = [])))
        "!id->children.empty()";
  (* we want to start converting from the end *)
  result ← (if (Z.of_nat i <? Z.of_nat (length (children id)) - 1)
            then match fuel with
                 | S fuel =>
                     Some <$> convert_range_rec fuel st id packed_ranges
                                unpacked_ranges (i + 1)
                 | O => Abort OutOfFuel
                 end
            else Ok None);
  (* special case, we want to select whole wire *)
  if ((length (children id) =? 0) && (i =? 0))%nat then
    e ← vector_at single_elem_size i;
    Ok (make_range (to_int (e - 1)) 0)
  else
    sel ← vector_at (children id) i;
    '(range_left, range_right) ←
      (if (length (children sel) =? 2)%nat then
         l ← vector_at (children sel) 0;
         r ← vector_at (children sel) 1;
         Ok (l, r)
       else
         l ← vector_at (children sel) 0;
         Ok (l, l));
    '(range_left, range_right) ←
      (if negb (bool_decide (multirange_swapped wire_node = [])) then
         is_swapped ← vector_at_back (multirange_swapped wire_node) i;
         if is_swapped : bool then
           hi ← vector_at_back (multirange_dimensions wire_node) (i * 2);
           lo ← vector_at_back (multirange_dimensions wire_node) (i * 2 + 1);
           let elem_size := to_int (hi - lo) in
           Ok (new_AstNode AST_SUB
                 [mkconst_int (to_uint32 (elem_size - 1)) 32; range_left],
               new_AstNode AST_SUB
                 [mkconst_int (to_uint32 (elem_size - 1)) 32; range_right])
         else Ok (range_left, range_right)
       else Ok (range_left, range_right));
    e ← vector_at single_elem_size (i + 1);
    let range_left :=
      new_AstNode AST_SUB
        [new_AstNode AST_MUL
           [new_AstNode AST_ADD [range_left; mkconst_int 1 32];
            mkconst_int (to_uint32 e) 32];
         mkconst_int 1 32] in
    let range_right :=
      new_AstNode AST_MUL [range_right; mkconst_int (to_uint32 e) 32] in
    '(range_left, range_right) ←
      match result with
      | Some res =>
          r0 ← vector_at (children res) 0;
          r1 ← vector_at (children res) 1;
          let range_right := new_AstNode AST_ADD [range_right; r1] in
          let range_left :=
            new_AstNode AST_SUB [new_AstNode AST_ADD [range_right; r0]; r1] in
          Ok (range_left, range_right)
      | None => Ok (range_left, range_right)
      end;
    Ok (new_AstNode AST_RANGE [range_left; range_right]).

Definition convert_range (st : AstInternal) (id : AstNode)
    (packed_ranges unpacked_ranges : list AstNode) (i : nat) : result AstNode :=
  convert_range_rec (length (children id)) st id packed_ranges unpacked_ranges i.

(** [wire_node->attributes[k]->children = rs] when the attribute exists:
    the range nodes handled by [add_multirange_attribute] are the
    attribute's own children, so what the loop does to them stays there. *)
Definition store_attribute_children (k : string) (rs : list AstNode)
    (n : AstNode) : AstNode :=
  set_attributes (alter (set_children rs) k (attributes n)) n.

Definition first_child_is (t : AstNodeType) (n : AstNode) : bool :=
  match children n with
  | c :: _ => bool_decide (type c = t)
  | [] => false
  end.

Definition resolve_wiretype (st : AstInternal) (wire_node : AstNode)
    : result AstNode :=
  (* First check if it has already defined ranges *)
  let packed_ranges := attribute_children wire_node ID.packed_ranges in
  let unpacked_ranges := attribute_children wire_node ID.unpacked_ranges in
  wiretype_ast ←
    (match children wire_node with
     | c :: _ =>
         if bool_decide (type c = AST_WIRETYPE) then
           _ ← log_assert (bool_decide (is_Some (current_scope st !! str c)))
                 "AST_INTERNAL::current_scope.count(wire_node->children[0]->str)";
           Ok (current_scope st !! str c)
         else Ok None
     | [] => Ok None
     end);
  let wire_node := ast_simplify st wire_node in
  wire_node ←
    (match wiretype_ast with
     | Some t =>
         if has_attribute wire_node ID.wiretype then
           _ ← log_assert (bool_decide (type t = AST_TYPEDEF))
                 "wiretype_ast->type == AST::AST_TYPEDEF";
           target ← vector_at (children t) 0;
           Ok (set_attributes
                 (alter (set_id2ast (Some target)) ID.wiretype (attributes wire_node))
                 wire_node)
         else Ok wire_node
     | None => Ok wire_node
     end);
  c0 ← vector_at (children wire_node) 0;
  if bool_decide (type c0 = AST_RANGE)
     && bool_decide (multirange_dimensions wire_node = []) then
    let packed_ranges := packed_ranges ++ [c0] in
    let wire_node := set_children [] wire_node in
    let a1 := <[ID.packed_ranges := ranges_attribute (reverse packed_ranges)]>
                (attributes wire_node) in
    let a2 := <[ID.unpacked_ranges := ranges_attribute unpacked_ranges]> a1 in
    Ok (set_attributes a2 wire_node)
  else Ok wire_node.

Definition add_force_convert_attribute (wire_node : AstNode) (val : Z) : AstNode :=
  set_attributes (<[ID.force_convert := mkconst_int val 32]> (attributes wire_node))
                 wire_node.

(** [attributes.count(ID::force_convert) && attributes[ID::force_convert]->integer == 1] *)
Definition is_force_convert (n : AstNode) : bool :=
  match attributes n !! ID.force_convert with
  | Some a => bool_decide (integer a = 1)
  | None => false
  end.

(** The local [convert_node] of [convert_packed_unpacked_range]. *)
Definition convert_node (wire_node : AstNode)
    (packed_ranges unpacked_ranges : list AstNode) : bool :=
  (1 <? length packed_ranges)%nat || (1 <? length unpacked_ranges)%nat
  || has_attribute wire_node ID.wiretype
  || bool_decide (type wire_node = AST_PARAMETER)
  || bool_decide (type wire_node = AST_LOCALPARAM)
  || ((is_input wire_node || is_output wire_node)
      && ((0 <? length packed_ranges)%nat || (0 <? length unpacked_ranges)%nat))
  || is_force_convert wire_node.

(** This is the workaround for multirange (n-range) packed/unpacked nodes:
    it converts such a node to a single-range node. *)
Definition convert_packed_unpacked_range (st : AstInternal) (wire_node : AstNode)
    : result AstNode :=
  wire_node ← (if first_child_is AST_WIRETYPE wire_node
               then resolve_wiretype st wire_node else Ok wire_node);
  let packed_ranges := attribute_children wire_node ID.packed_ranges in
  let unpacked_ranges := attribute_children wire_node ID.unpacked_ranges in
  if bool_decide (packed_ranges = []) && bool_decide (unpacked_ranges = []) then
    Ok (set_attributes
          (delete ID.unpacked_ranges (delete ID.packed_ranges (attributes wire_node)))
          wire_node)
  else
    let convert_node := convert_node wire_node packed_ranges unpacked_ranges in
    '(wire_node, ranges) ←
      (* Convert only when at least 1 of the ranges has more than 1 range *)
      (if convert_node then
         if bool_decide (multirange_dimensions wire_node = []) then
           '(wire_node, packed_size, prs) ←
             add_multirange_attribute st wire_node packed_ranges;
           let wire_node := store_attribute_children ID.packed_ranges prs wire_node in
           '(wire_node, unpacked_size, urs) ←
             add_multirange_attribute st wire_node unpacked_ranges;
           let wire_node := store_attribute_children ID.unpacked_ranges urs wire_node in
           let size := size_t_mul packed_size unpacked_size in
           Ok (wire_node, [make_range (to_int (size - 1)) 0])
         else Ok (wire_node, [])
       else
         let ranges := packed_ranges ++ unpacked_ranges in
         (* if there is only one packed and one unpacked range,
            and wire is not port wire, change type to AST_MEMORY *)
         if bool_decide (type wire_node = AST_WIRE)
            && (length packed_ranges =? 1)%nat && (length unpacked_ranges =? 1)%nat
            && negb (is_input wire_node) && negb (is_output wire_node)
         then Ok (set_type AST_MEMORY wire_node, ranges)
         else Ok (wire_node, ranges));
    (* Insert new range *)
    Ok (set_children (children wire_node ++ ranges) wire_node).

End RangeEngine.

(** ** Memories loaded by [$readmemh] *)

(** The nodes of a tree in the order in which [visitEachDescendantStatic]
    hands them to its callback: every child, followed by its own
    descendants.  The position of a node in this list is its address in the
    store the callback works on. *)
Fixpoint descendants (node : AstNode) : list AstNode :=
  match node with
  | mkAstNode _ _ cs _ _ _ _ _ _ _ _ _ _ _ _ =>
      flat_map (fun c => c :: descendants c) cs
  end.

(** The callback of [check_memories] works on the store of visited
    nodes: [memories] maps a name to the address of the wire registered
    under it, and an attribute write goes to the store at that address.
    The callback is made of three tests, in this order. *)
Definition visit_readmemh (node : AstNode)
    (s : gmap string nat * list AstNode) : result (gmap string nat * list AstNode) :=
  let '(memories, store) := s in
  if bool_decide (str node = "\$readmemh") then
    arg ← vector_at (children node) 1;
    match memories !! str arg with
    | Some m =>
        w ← vector_at store m;
        Ok (memories, <[m := add_force_convert_attribute w 0]> store)
    | None => Abort (Undefined "memories[node->children[1]->str] is null")
    end
  else Ok s.

Definition visit_wire (k : nat) (node : AstNode)
    (s : gmap string nat * list AstNode) : result (gmap string nat * list AstNode) :=
  let '(memories, store) := s in
  if bool_decide (type node = AST_WIRE) then
    let packed_ranges := attribute_children node ID.packed_ranges in
    let unpacked_ranges := attribute_children node ID.unpacked_ranges in
    if ((length packed_ranges =? 1) && (length unpacked_ranges =? 1))%nat then
      _ ← log_assert (negb (bool_decide (is_Some (memories !! str node))))
            "!memories.count(node->str)";
      Ok (<[str node := k]> memories, store)
    else Ok s
  else Ok s.

Definition visit_identifier (node : AstNode)
    (s : gmap string nat * list AstNode) : result (gmap string nat * list AstNode) :=
  let '(memories, store) := s in
  if bool_decide (type node = AST_IDENTIFIER) then
    match memories !! str node with
    | Some m =>
        w ← vector_at store m;
        if negb (has_attribute w ID.force_convert)
           && (length (children node) =? 0)%nat
        then Ok (memories, <[m := add_force_convert_attribute w 1]> store)
        else Ok s
    | None => Ok s
    end
  else Ok s.

(** The callback at the node stored at address [k]. *)
Definition check_memories_visit (k : nat)
    (s : gmap string nat * list AstNode) : result (gmap string nat * list AstNode) :=
  node ← vector_at s.2 k;
  s ← visit_readmemh node s;
  s ← visit_wire k node s;
  visit_identifier node s.

(** [check_memories(module_node)]: the store after every descendant has
    been visited, in order. *)
Definition check_memories (module_node : AstNode) : result (list AstNode) :=
  let store := descendants module_node in
  snd <$> fold_result (fun s k => check_memories_visit k s)
            (seq 0 (length store)) (∅, store).

(** The store read back as a tree: the node kept at each address, with its
    children read back in turn.  Addresses follow [descendants]. *)
Fixpoint read_children (store : list AstNode) (node : AstNode) (addr : nat)
    : list AstNode * nat :=
  match node with
  | mkAstNode _ _ cs _ _ _ _ _ _ _ _ _ _ _ _ =>
      (fix go (cs : list AstNode) (addr : nat) : list AstNode * nat :=
         match cs with
         | [] => ([], addr)
         | c :: cs =>
             let '(ccs, a1) := read_children store c (S addr) in
             let c' := set_children ccs (default c (store !! addr)) in
             let '(rest, a2) := go cs a1 in
             (c' :: rest, a2)
         end) cs addr
  end.

Definition read_back (store : list AstNode) (module_node : AstNode) : AstNode :=
  set_children (fst (read_children store module_node 0)) module_node.

(** ** Struct path expander *)

(** [s.find("\\") == 0 ? s.substr(1) : s] *)
Definition strip_backslash (s : string) : string :=
  match s with
  | String c rest => if Ascii.eqb c "\"%char then rest else s
  | EmptyString => s
  end.

(** [s.substr(1)]; it throws on the empty string. *)
Definition substr1 (s : string) : result string :=
  match s with
  | String _ rest => Ok rest
  | EmptyString => Abort (Undefined "std::out_of_range")
  end.

(** The local range of the located member: the bounds of a scalar item, or
    for a nested struct the span of its members. *)
Definition struct_elem_bounds (current_struct_elem : AstNode)
    : result (AstNode * AstNode) :=
  if bool_decide (type current_struct_elem = AST_STRUCT_ITEM) then
    Ok (mkconst_int (range_left current_struct_elem) 32,
        mkconst_int (range_right current_struct_elem) 32)
  else if bool_decide (type current_struct_elem = AST_STRUCT) then
    (* Struct can have multiple range, so to get size of 1 struct,
       we get left range for first children, and right range for last children *)
    front ← vector_at (children current_struct_elem) 0;
    back ← vector_at_back (children current_struct_elem) 0;
    Ok (mkconst_int (range_left front) 32, mkconst_int (range_right back) 32)
  else
    (* Structs currently can only have AST_STRUCT or AST_STRUCT_ITEM *)
    log_error ("Found " +:+ type2str (type current_struct_elem)
               +:+ " elem in struct that is currently unsupported!").

(** The loop over the children of the search node: the nested path, expanded
    by [expand] within the located member, and the trailing range. *)
Fixpoint expand_dot_children (expand : AstNode -> result AstNode)
    (cs : list AstNode) (sub_dot struct_range : option AstNode)
    : result (option AstNode * option AstNode) :=
  match cs with
  | [] => Ok (sub_dot, struct_range)
  | c :: cs =>
      sub_dot ←
        (if bool_decide (type c = AST_DOT) then
           (* There should be only 1 AST_DOT node children *)
           _ ← log_assert (negb (bool_decide (is_Some sub_dot))) "!sub_dot";
           Some <$> expand c
         else Ok sub_dot);
      struct_range ←
        (if bool_decide (type c = AST_RANGE) then
           (* Currently supporting only 1 range *)
           _ ← log_assert (negb (bool_decide (is_Some struct_range)))
                 "!struct_range";
           Ok (Some c)
         else Ok struct_range);
      expand_dot_children expand cs sub_dot struct_range
  end.

(** The trailing range applied to the selected bounds. *)
Definition apply_struct_range (current_struct_elem elem_size left_ right_
    struct_range : AstNode) : result (AstNode * AstNode) :=
  (* now we have correct element set, but we still need to set correct struct *)
  _ ← log_assert (negb (bool_decide (children struct_range = [])))
        "!struct_range->children.empty()";
  if bool_decide (type current_struct_elem = AST_STRUCT_ITEM) then
    (* if we selecting range of struct item, just add this range
       to our current select *)
    match children struct_range with
    | [sr0; sr1] =>
        let range_size :=
          new_AstNode AST_ADD [new_AstNode AST_SUB [sr0; sr1]; mkconst_int 1 32] in
        let right' := new_AstNode AST_ADD [right_; sr1] in
        let left' :=
          new_AstNode AST_ADD
            [left_;
             new_AstNode AST_ADD
               [sr1; new_AstNode AST_SUB [range_size; elem_size]]] in
        Ok (left', right')
    | [sr0] =>
        let right' := new_AstNode AST_ADD [right_; sr0] in
        Ok (right', right')
    | _ => log_error "Unhandled range select (AST_STRUCT_ITEM) in AST_DOT!"
    end
  else if bool_decide (type current_struct_elem = AST_STRUCT) then
    match children struct_range with
    | [sr0; sr1] =>
        if bool_decide (type sr0 = AST_CONSTANT)
           && negb (bool_decide (range_left struct_range = range_right struct_range))
        then
          (* for now just add to current range selected range *)
          let right' := new_AstNode AST_ADD [right_; sr1] in
          let range_size :=
            new_AstNode AST_ADD
              [new_AstNode AST_SUB [sr0; sr1]; mkconst_int 1 32] in
          let left' :=
            new_AstNode AST_ADD
              [left_; new_AstNode AST_SUB [range_size; elem_size]] in
          Ok (left', right')
        else log_error "Unhandled range select (AST_STRUCT) in AST_DOT!"
    | [sr0] =>
        let mul := new_AstNode AST_MUL [elem_size; sr0] in
        Ok (new_AstNode AST_ADD [left_; mul], new_AstNode AST_ADD [right_; mul])
    | _ => log_error "Unhandled range select (AST_STRUCT) in AST_DOT!"
    end
  else log_error ("Found " +:+ type2str (type current_struct_elem)
                  +:+ " elem in struct that is currently unsupported!").

Fixpoint expand_dot (current_struct search_node : AstNode) {struct search_node}
    : result AstNode :=
  match search_node with
  | mkAstNode _ search_node_str search_node_children _ _ _ _ _ _ _ _ _ _ _ _ =>
  let search_str := strip_backslash search_node_str in
  match find (fun node => bool_decide (str node = search_str))
             (children current_struct) with
  | None =>
      log_error ("Couldn't find search elem: " +:+ search_str +:+ " in struct")
  | Some current_struct_elem =>
  '(left_, right_) ← struct_elem_bounds current_struct_elem;
  let elem_size :=
    new_AstNode AST_ADD [new_AstNode AST_SUB [left_; right_]; mkconst_int 1 32] in
  '(sub_dot, struct_range) ←
    expand_dot_children (expand_dot current_struct_elem) search_node_children
                        None None;
  '(left_, right_) ←
    (match sub_dot with
     | Some sub =>
         (* First select correct element in first struct *)
         l ← vector_at (children sub) 0;
         r ← vector_at (children sub) 1;
         Ok (l, r)
     | None => Ok (left_, right_)
     end);
  '(left_, right_) ←
    (match struct_range with
     | Some struct_range =>
         apply_struct_range current_struct_elem elem_size left_ right_ struct_range
     | None => Ok (left_, right_)
     end);
  (* Return range from the begining of *current* struct *)
  Ok (new_AstNode AST_RANGE [left_; right_])
  end
  end.

(** The loop of [get_max_offset]: descend into the first child while
    [range_left] is negative. *)
Fixpoint max_offset_walk (node : AstNode) : result Z :=
  match node with
  | mkAstNode _ _ cs _ _ _ rl _ _ _ _ _ _ _ _ =>
      if rl <? 0 then
        match cs with
        | c :: _ => max_offset_walk c
        | [] => Abort (Undefined "vector index out of range")
        end
      else Ok rl
  end.

(** get the width from the MS member in the struct *)
Definition get_max_offset (node : AstNode) : result Z :=
  _ ← log_assert (bool_decide (type node = AST_STRUCT)
                  || bool_decide (type node = AST_UNION))
        "node->type == AST::AST_STRUCT || node->type == AST::AST_UNION";
  max_offset_walk node.

Definition convert_dot (wire_node node dot : AstNode) : result AstNode :=
  struct_node ←
    (if bool_decide (type wire_node = AST_STRUCT) then Ok wire_node
     else match attributes wire_node !! ID.wiretype with
          | Some a =>
              match id2ast a with
              | Some s => Ok s
              | None =>
                  Abort (AssertionFailed
                           "wire_node->attributes[ID::wiretype]->id2ast")
              end
          | None => Abort (AssertionFailed "struct_node")
          end);
  expanded ← expand_dot struct_node dot;
  c0 ← vector_at (children node) 0;
  if bool_decide (type c0 = AST_RANGE) then
    max_offset ← get_max_offset struct_node;
    let struct_size_int := max_offset + 1 in
    _ ← log_assert (negb (bool_decide (multirange_dimensions wire_node = [])))
          "!wire_node->multirange_dimensions.empty()";
    back ← vector_at_back (multirange_dimensions wire_node) 0;
    let unpacked_range := back - 1 in
    index ← vector_at (children c0) 0;
    e0 ← vector_at (children expanded) 0;
    e1 ← vector_at (children expanded) 1;
    let term :=
      new_AstNode AST_MUL
        [mkconst_int struct_size_int 32;
         new_AstNode AST_SUB [mkconst_int unpacked_range 32; index]] in
    Ok (set_children [new_AstNode AST_ADD [e0; term]; new_AstNode AST_ADD [e1; term]]
                     expanded)
  else Ok expanded.

(** ** Symbol scope table and the lowering pass *)

(** What [setup_current_scope] does with one child [o] of a package. *)
Definition import_package_child (package_str : string)
    (scope : gmap string AstNode) (o : AstNode) : result (gmap string AstNode) :=
  (* import only parameters *)
  if bool_decide (type o = AST_TYPEDEF) || bool_decide (type o = AST_PARAMETER)
     || bool_decide (type o = AST_LOCALPARAM) then
    (* add imported nodes to current scope *)
    bare ← substr1 (str o);
    Ok (<[str o := o]> (<[package_str +:+ "::" +:+ bare := o]> scope))
  else if bool_decide (type o = AST_ENUM) then
    Ok (foldl (fun scope c => <[str c := c]> scope) (<[str o := o]> scope)
              (children o))
  else Ok scope.

(** The loop over [top_nodes]; a null entry is dereferenced. *)
Definition import_top_node (scope : gmap string AstNode)
    (entry : string * option AstNode) : result (gmap string AstNode) :=
  match entry.2 with
  | Some node =>
      if bool_decide (type node = AST_PACKAGE)
      then fold_result (import_package_child (str node)) (children node) scope
      else Ok scope
  | None => Abort (Undefined "null top node")
  end.

(** [top_nodes] is an unordered map: [map_to_list] stands for its iteration
    order, which the code does not control either. *)
Definition setup_current_scope (top_nodes : gmap string (option AstNode))
    (current_top_node : option AstNode) (st : AstInternal) : result AstInternal :=
  scope ← fold_result import_top_node (map_to_list top_nodes) (current_scope st);
  (* hackish way of setting current_ast_mod as it is required
     for simplify to get references for already defined ids *)
  _ ← log_assert (bool_decide (is_Some current_top_node))
        "AST_INTERNAL::current_ast_mod != nullptr";
  Ok (mkAstInternal scope current_top_node).

Definition clear_current_scope (st : AstInternal) : AstInternal :=
  (* Remove clear current_scope from package nodes, unset current_ast_mod *)
  mkAstInternal ∅ None.

Section Lowering.

Variable ast_simplify : AstInternal -> AstNode -> AstNode.

Definition is_declaration_type (t : AstNodeType) : bool :=
  bool_decide (t = AST_WIRE) || bool_decide (t = AST_PARAMETER)
  || bool_decide (t = AST_LOCALPARAM).

(** [AST_INTERNAL::current_scope[name] = node] *)
Definition declare (name : string) (node : AstNode) (st : AstInternal)
    : AstInternal :=
  mkAstInternal (<[name := node]> (current_scope st)) (current_ast_mod st).

(** The first part of [simplify]: a field-access child is expanded to a
    range, or, when the identifier is not in scope, folded into a dotted
    name. *)
Definition simplify_dot (current_node : AstNode) (st : AstInternal)
    : result AstNode :=
  match find (fun c => bool_decide (type c = AST_DOT)) (children current_node) with
  | Some dot =>
      match current_scope st !! str current_node with
      | None =>
          (* fallback to "." notation *)
          field ← substr1 (str dot);
          Ok (set_children []
                (set_str (str current_node +:+ "." +:+ field) current_node))
      | Some wire_node =>
          expanded ← convert_dot wire_node current_node dot;
          Ok (set_basic_prep true (set_children [expanded] current_node))
      end
  | None => Ok current_node
  end.

(** The loop [simplify(current_node->children[i], current_node)]. *)
Fixpoint simplify_children
    (simplify_child : AstNode -> AstInternal -> result AstNode * AstInternal)
    (cs : list AstNode) (st : AstInternal)
    : result (list AstNode) * AstInternal :=
  match cs with
  | [] => (Ok [], st)
  | c :: cs =>
      match simplify_child c st with
      | (Abort e, st) => (Abort e, st)
      | (Ok c, st) =>
          match simplify_children simplify_child cs st with
          | (Abort e, st) => (Abort e, st)
          | (Ok cs, st) => (Ok (c :: cs), st)
          end
      end
  end.

(** The [switch (current_node->type)] that ends [simplify]. *)
Definition simplify_switch (current_node : AstNode) (parent_node : option AstNode)
    (st : AstInternal) : result AstNode * AstInternal :=
  match type current_node with
  | AST_TYPEDEF | AST_ENUM =>
      (Ok current_node, declare (str current_node) current_node st)
  | AST_WIRE | AST_PARAMETER | AST_LOCALPARAM =>
      let st := declare (str current_node) current_node st in
      match convert_packed_unpacked_range ast_simplify st current_node with
      | Ok converted => (Ok converted, declare (str current_node) converted st)
      | Abort e => (Abort e, st)
      end
  | AST_IDENTIFIER =>
      if negb (bool_decide (children current_node = []))
         && negb (basic_prep current_node) then
        match current_ast_mod st with
        | None => (Abort (AssertionFailed "AST_INTERNAL::current_ast_mod"), st)
        | Some _ =>
            match current_scope st !! str current_node with
            | None => (Ok current_node, st)
            | Some wire_node =>
                let packed_ranges := attribute_children wire_node ID.packed_ranges in
                let unpacked_ranges :=
                  attribute_children wire_node ID.unpacked_ranges in
                if is_declaration_type (type wire_node)
                   && negb (bool_decide (packed_ranges = [])
                            && bool_decide (unpacked_ranges = []))
                   && negb (length packed_ranges + length unpacked_ranges =? 1)%nat
                then
                  match convert_range st current_node packed_ranges
                          unpacked_ranges 0 with
                  | Ok result =>
                      (Ok (set_children [result] (set_basic_prep true current_node)),
                       st)
                  | Abort e => (Abort e, st)
                  end
                else (Ok current_node, st)
            end
        end
      else (Ok current_node, st)
  | AST_STRUCT =>
      match parent_node with
      | Some parent =>
          if negb (bool_decide (str current_node = ""))
             && negb (bool_decide (type parent = AST_TYPEDEF))
             && negb (bool_decide (type parent = AST_STRUCT)) then
            let current_node := ast_simplify st current_node in
            match current_scope st !! str current_node with
            | Some wire_node =>
                let wiretype :=
                  set_id2ast (Some current_node) (mkconst_str (str current_node)) in
                let wire_node :=
                  set_attributes (<[ID.wiretype := wiretype]> (attributes wire_node))
                                 wire_node in
                (Ok current_node, declare (str current_node) wire_node st)
            | None =>
                (Abort (Undefined "current_scope[current_node->str] is null"), st)
            end
          else (Ok current_node, st)
      | None => (Ok current_node, st)
      end
  | _ => (Ok current_node, st)
  end.

(** [simplify(current_node, parent_node)].  It returns the rewritten node
    and the ambient state; when the run ends early the state is the one
    reached at that point.  A scope entry points at a node of the tree: the
    entry written for a declaration is the declaration as
    [convert_packed_unpacked_range] leaves it.  The [wiretype] attribute that
    the struct case writes through a scope entry is kept in the entry; the
    returned tree does not show it on the declaration the entry points at.
    The recursion enters freshly built ranges, hence the [fuel]. *)
Fixpoint simplify (fuel : nat) (current_node : AstNode)
    (parent_node : option AstNode) (st : AstInternal) {struct fuel}
    : result AstNode * AstInternal :=
  match fuel with
  | O => (Abort OutOfFuel, st)
  | S fuel =>
      match simplify_dot current_node st with
      | Abort e => (Abort e, st)
      | Ok current_node =>
          (* First simplify children *)
          match simplify_children
                  (fun c => simplify fuel c (Some current_node))
                  (children current_node) st with
          | (Abort e, st) => (Abort e, st)
          | (Ok cs, st) =>
              simplify_switch (set_children cs current_node) parent_node st
          end
      end
  end.

(** [AstNode::get_bool_attribute]: the attribute is present and not zero. *)
Definition get_bool_attribute (node : AstNode) (k : string) : bool :=
  match attributes node !! k with
  | Some a => negb (bool_decide (integer a = 0))
  | None => false
  end.

(** The four calls [process_design] makes for one top-level unit:
    [check_memories], [setup_current_scope], [simplify],
    [clear_current_scope].  The unit is rewritten in place in [top_nodes]. *)
Definition lower_unit (fuel : nat) (name : string) (node : AstNode)
    (s : gmap string (option AstNode) * AstInternal)
    : result (AstNode * gmap string (option AstNode) * AstInternal) :=
  let '(top_nodes, st) := s in
  store ← check_memories node;
  let node := read_back store node in
  let top_nodes := <[name := Some node]> top_nodes in
  st ← setup_current_scope top_nodes (Some node) st;
  match simplify fuel node None st with
  | (Abort e, _) => Abort e
  | (Ok node, st) =>
      Ok (node, <[name := Some node]> top_nodes, clear_current_scope st)
  end.

(** [UhdmAst::process_design], from the point where [shared.top_nodes] has
    been filled by the walk over the design's interfaces, packages and
    modules.  A module marked partial is deleted while its entry stays in
    [shared.top_nodes]: [deleted] lists the names whose entry has become a
    dangling pointer, and is returned with the registry.  The scope set-up
    reads the node of every entry, so lowering a unit after a deletion reads
    a deleted node, which is undefined. *)
Definition process_design (fuel : nat) (top_nodes : gmap string (option AstNode))
    (st : AstInternal)
    : result (AstNode * gmap string (option AstNode) * list string * AstInternal) :=
  let names := (map_to_list top_nodes).*1 in
  '(top_nodes, st) ←
    fold_result
      (fun s name =>
         match s.1 !! name with
         | Some (Some node) =>
             if bool_decide (type node = AST_PACKAGE) then
               '(_, top_nodes, st) ← lower_unit fuel name node s;
               Ok (top_nodes, st)
             else Ok s
         | _ => Ok s
         end) names (top_nodes, st);
  (* Once we walked everything, unroll that as children of this node *)
  '(design_children, top_nodes, deleted, st) ←
    fold_result
      (fun acc name =>
         let '(design_children, top_nodes, deleted, st) := acc in
         match top_nodes !! name with
         | Some (Some node) =>
             if negb (get_bool_attribute node ID.partial) then
               if bool_decide (type node = AST_PACKAGE) then
                 Ok (node :: design_children, top_nodes, deleted, st)
               else if bool_decide (deleted = []) then
                 '(node, top_nodes, st) ← lower_unit fuel name node (top_nodes, st);
                 Ok (design_children ++ [node], top_nodes, deleted, st)
               else
                 _ ← check_memories node;
                 Abort (Undefined "setup_current_scope reads a deleted top node")
             else
               (* Removing unused module from the design *)
               Ok (design_children, top_nodes, deleted ++ [name], st)
         | _ => Ok acc
         end) names ([], top_nodes, [], st);
  Ok (new_AstNode AST_DESIGN design_children, top_nodes, deleted, st).

End Lowering.

(** ** Module/parameter specializer *)

(** The part of the walker's shared state that specialization uses.
    Module entities live in [heap]; [top_nodes] maps a name to the address
    of its entity, or to the null pointer. *)
Record Shared : Type := mkShared {
  top_nodes : gmap string (option nat);
  heap : list AstNode;
  current_top_node : option nat
}.

(** [new] and [clone()] both place a node at a fresh address. *)
Definition alloc (n : AstNode) (h : list AstNode) : nat * list AstNode :=
  (length h, h ++ [n]).

(** [m[k]] on a map of pointers: a missing key is inserted with the null
    pointer. *)
Definition lookup_or_null (k : string) (m : gmap string (option nat))
    : option nat * gmap string (option nat) :=
  match m !! k with
  | Some p => (p, m)
  | None => (None, <[k := None]> m)
  end.

(** The registry as the scope set-up reads it: every entry dereferenced. *)
Definition top_nodes_values (sh : Shared) : list (string * option AstNode) :=
  (fun e : string * option nat => (e.1, e.2 ≫= fun p => heap sh !! p))
    <$> map_to_list (top_nodes sh).

Definition registers_in_scope (n : AstNode) : bool :=
  bool_decide (type n = AST_TYPEDEF) || bool_decide (type n = AST_PARAMETER)
  || bool_decide (type n = AST_LOCALPARAM).

(** [visitEachDescendant(node, f)] with the callback of [simplify_parameter]. *)
Definition declare_descendants (node : AstNode) (scope : gmap string AstNode)
    : gmap string AstNode :=
  foldl (fun scope n => if registers_in_scope n then <[str n := n]> scope else scope)
        scope (descendants node).

(** [std::to_string] of a [uint32_t]. *)
Definition to_string_uint32 (z : Z) : string := pretty (z mod 2 ^ 32).

Section Specializer.

Variable ast_simplify : AstInternal -> AstNode -> AstNode.

(** The digest of [libs/sha1], which is not part of this code base. *)
Variable sha1 : string -> string.

Definition simplify_parameter (sh : Shared) (parameter : AstNode)
    (module_node : option AstNode) (st : AstInternal)
    : result (AstNode * AstInternal) :=
  scope ← fold_result import_top_node (top_nodes_values sh) (current_scope st);
  top ← (match current_top_node sh ≫= (fun p => heap sh !! p) with
         | Some t => Ok t
         | None => Abort (AssertionFailed "shared.current_top_node != nullptr")
         end);
  let scope := declare_descendants top scope in
  let scope := match module_node with
               | Some m => declare_descendants m scope
               | None => scope
               end in
  let parameter := ast_simplify (mkAstInternal scope (Some top)) parameter in
  Ok (parameter, mkAstInternal ∅ None).

(** The text one parameter assignment contributes to the module name. *)
Definition parameter_text (node value : AstNode) : string :=
  if negb (bool_decide (str value = "")) then str node +:+ "=" +:+ str value
  else str node +:+ "=" +:+ pretty (length (bits value)) +:+ "'d"
         +:+ to_string_uint32 (integer value).

(** The callback of the first walk over the instance's parameter
    assignments: it extends [module_parameters]. *)
Definition collect_parameter (type_name : string) (sh : Shared)
    (acc : string * AstInternal) (visited : option AstNode)
    : result (string * AstInternal) :=
  let '(module_parameters, st) := acc in
  match visited with
  | Some node =>
      if bool_decide (type node = AST_PARAMETER) then
        value ← vector_at (children node) 0;
        '(node, st) ←
          (if negb (bool_decide (type value = AST_CONSTANT)) then
             match top_nodes sh !! type_name with
             | Some p =>
                 '(node, st) ← simplify_parameter sh node
                                  (p ≫= fun p => heap sh !! p) st;
                 value ← vector_at (children node) 0;
                 _ ← log_assert (bool_decide (type value = AST_CONSTANT)
                                 || bool_decide (type value = AST_REALVALUE))
                       "node->children[0]->type == AST::AST_CONSTANT || node->children[0]->type == AST::AST_REALVALUE";
                 Ok (node, st)
             | None => Ok (node, st)
             end
           else Ok (node, st));
        match top_nodes sh !! type_name with
        | Some _ =>
            value ← vector_at (children node) 0;
            Ok (module_parameters +:+ parameter_text node value, st)
        | None => Ok (module_parameters, st)
        end
      else Ok acc
  | None => Ok acc
  end.

(** rename module in same way yosys do *)
Definition derive_module_name (type_name module_parameters : string) : string :=
  if (60 <? String.length module_parameters)%nat then
    "$paramod$" +:+ sha1 module_parameters +:+ type_name
  else if negb (bool_decide (module_parameters = "")) then
    "$paramod" +:+ type_name +:+ module_parameters
  else type_name.

(** What the instance branch of [process_module] hands on to the rest of
    the function. *)
Record InstanceHead : Type := mkInstanceHead {
  module_node : nat;
  module_name : string;
  module_parameters : string;
  cell_instance : Z
}.

(** The instance branch of [UhdmAst::process_module], from the walk over the
    parameter assignments to the registration of the module entity under its
    derived name (lines 1159-1207).  [type_name] is the sanitized definition
    name, [assigns] the nodes the walk over [vpiParamAssign] yields,
    [cell_instance] the value of [vpiCellInstance].  The rest of the branch,
    which writes attributes and children to the entity at [module_node], is
    not part of this function. *)
Definition process_module_instance (type_name : string)
    (assigns : list (option AstNode)) (cell_instance : Z)
    (s : Shared * AstInternal) : result (InstanceHead * Shared * AstInternal) :=
  let '(sh, st) := s in
  '(module_parameters, st) ←
    fold_result (collect_parameter type_name sh) assigns ("", st);
  let module_name := derive_module_name type_name module_parameters in
  let '(found, nodes) := lookup_or_null module_name (top_nodes sh) in
  '(module_node, module_name, cell_instance, nodes, h) ←
    (match found with
     | Some p => Ok (p, module_name, cell_instance, nodes, heap sh)
     | None =>
         let '(generic, nodes) := lookup_or_null type_name nodes in
         let '(p, module_name, cell_instance, h) :=
           match generic with
           | Some p => (p, module_name, cell_instance, heap sh)
           | None =>
               let placeholder :=
                 set_attributes {[ ID.partial := mkconst_int 2 1 ]}
                   (set_str type_name (new_AstNode AST_MODULE [])) in
               let '(p, h) := alloc placeholder (heap sh) in
               (p, type_name, 1, h)
           end in
         if negb (bool_decide (module_parameters = "")) then
           original ← vector_at h p;
           let '(p, h) := alloc original h in
           Ok (p, module_name, cell_instance, nodes, h)
         else Ok (p, module_name, cell_instance, nodes, h)
     end);
  entity ← vector_at h module_node;
  let h := <[module_node := set_str module_name entity]> h in
  let nodes := <[module_name := Some module_node]> nodes in
  Ok (mkInstanceHead module_node module_name module_parameters cell_instance,
      mkShared nodes h (current_top_node sh), st).

End Specializer.

(** * Vocabulary of the properties *)

(** The simplifier on a tree that is already folded: nothing changes. *)
Definition already_folded : AstInternal -> AstNode -> AstNode := fun _ n => n.

(** One declared dimension as the dimension tables record it. *)
Record Dimension : Type := mkDimension {
  dim_low : Z;
  dim_width : Z;
  dim_swapped : bool
}.

Definition dimension_table (ds : list Dimension) : list Z :=
  ds ≫= fun d => [dim_low d; dim_width d].

Definition swapped_table (ds : list Dimension) : list bool :=
  dim_swapped <$> ds.

Definition list_product (l : list Z) : Z := foldr Z.mul 1 l.

(** Row-major offset: the sum of [index_i] times the product of the widths
    of the dimensions after [i]. *)
Fixpoint row_major_offset (indices widths : list Z) : Z :=
  match indices, widths with
  | x :: indices, _ :: widths =>
      x * list_product widths + row_major_offset indices widths
  | _, _ => 0
  end.

(** The index a selector contributes: complemented against the width when
    the dimension is marked swapped. *)
Definition effective_index (d : Dimension) (x : Z) : Z :=
  if dim_swapped d then dim_width d - dim_low d - 1 - x else x.

(** A selector made of one constant index. *)
Definition selects (sel : AstNode) (x : Z) : Prop :=
  exists c, children sel = [c] /\ type c = AST_CONSTANT /\ integer c = x.

(** The width of a dimension as [convert_range] computes it from the
    table: [dims[j + 1] - dims[j]]. *)
Definition dim_elem (d : Dimension) : Z := dim_width d - dim_low d.

(** Offset of a fully indexed access, dimensions in access order. *)
Fixpoint flat_offset (ds : list Dimension) (xs : list Z) : Z :=
  match ds, xs with
  | d :: ds, x :: xs =>
      effective_index d x * list_product (dim_elem <$> ds) + flat_offset ds xs
  | _, _ => 0
  end.

(** The sizes of the sub-arrays below each dimension, outermost first. *)
Fixpoint suffix_products (ds : list Dimension) : list Z :=
  match ds with
  | [] => [1]
  | d :: ds => (dim_elem d * list_product (dim_elem <$> ds)) :: suffix_products ds
  end.

(** A range node in folded form: two constant bounds, left as it is by the
    simplifier. *)
Definition folded_range (ast_simplify : AstInternal -> AstNode -> AstNode)
    (st : AstInternal) (r : AstNode) : Prop :=
  ast_simplify st r = r /\
  exists c0 c1, children r = [c0; c1] /\ type c0 = AST_CONSTANT /\ type c1 = AST_CONSTANT.

(** The table entry [add_multirange_attribute] records for a folded range. *)
Definition range_dimension (r : AstNode) : Dimension :=
  match children r with
  | c0 :: c1 :: _ =>
      let i0 := to_uint32 (integer c0) in
      let i1 := to_uint32 (integer c1) in
      mkDimension (to_int (Z.min i0 i1)) (to_int (Z.max i0 i1 - Z.min i0 i1 + 1))
                  (range_swapped r)
  | _ => mkDimension 0 0 false
  end.

(** The [size_t] product of the widths of a list of ranges. *)
Definition ranges_size (size : Z) (ranges : list AstNode) : Z :=
  foldl (fun size r => size_t_mul size (dim_width (range_dimension r))) size ranges.

(** The dimension a range [[left:right]] declares: its lower bound and the
    number of its elements. *)
Definition range_low (r : AstNode) : Z :=
  match children r with
  | c0 :: c1 :: _ => Z.min (integer c0) (integer c1)
  | _ => 0
  end.

Definition range_width (r : AstNode) : Z :=
  match children r with
  | c0 :: c1 :: _ => Z.abs (integer c0 - integer c1) + 1
  | _ => 0
  end.

Definition declared_dimension (r : AstNode) : Dimension :=
  mkDimension (range_low r) (range_width r) (range_swapped r).

(** Both bounds of the range lie between [0] and [2^31 - 1]. *)
Definition small_range (r : AstNode) : Prop :=
  match children r with
  | c0 :: c1 :: _ => 0 <= integer c0 < 2 ^ 31 /\ 0 <= integer c1 < 2 ^ 31
  | _ => False
  end.

(** A declaration [x] with the given dimensions, as the walker builds it,
    and an access [x[i1][i2]...] with constant indices. *)
Definition declaration (name : string) (packed_ranges unpacked_ranges : list AstNode)
    : AstNode :=
  add_multirange_wire (set_str name (new_AstNode AST_WIRE []))
                      packed_ranges unpacked_ranges true.

Definition index_selector (x : Z) : AstNode :=
  new_AstNode AST_RANGE [mkconst_int x 32].

Definition access (name : string) (indices : list Z) : AstNode :=
  set_str name (new_AstNode AST_IDENTIFIER (index_selector <$> indices)).

(** The ambient state while a module is lowered, with the given scope. *)
Definition lowering_state (scope : gmap string AstNode) : AstInternal :=
  mkAstInternal scope (Some (new_AstNode AST_MODULE [])).

(** The pair of bounds to which the access [x[indices]] is rewritten
    against the declaration [wire] of [x]. *)
Definition rewritten_access (wire : AstNode) (indices : list Z)
    : result (option (Z * Z)) :=
  eval_range (fun _ => 0)
    <$> convert_range (lowering_state {[ str wire := wire ]})
          (access (str wire) indices)
          (attribute_children wire ID.packed_ranges)
          (attribute_children wire ID.unpacked_ranges) 0.

(** [n'] is [n] up to the forced-conversion attribute. *)
Definition flag_variant (n n' : AstNode) : Prop :=
  n' = n \/ exists v, n' = add_force_convert_attribute n v.

(** Every node of the store is the visited node up to the flag. *)
Definition store_follows (ds : list AstNode)
    (s : gmap string nat * list AstNode) : Prop :=
  forall a n', s.2 !! a = Some n' -> exists n, ds !! a = Some n /\ flag_variant n n'.

(** A call [$readmemh("mem.hex", name)] and a reference to the whole of
    [name], as the walker builds them. *)
Definition readmemh_call (name : string) : AstNode :=
  set_str "\$readmemh"
    (new_AstNode AST_TCALL
       [mkconst_str "mem.hex"; set_str name (new_AstNode AST_IDENTIFIER [])]).

Definition whole_reference (name : string) : AstNode :=
  set_str name (new_AstNode AST_IDENTIFIER []).

(** Modelled from the spec: the bit layout of a packed struct.  The bounds
    of the struct items are assigned by the target AST, outside this code
    base; the spec fixes them: field order is the declared order and the
    first-declared field occupies the most-significant bits, so the right
    bound of a field is the total width of the fields declared after it. *)
Definition struct_item (name : string) (left right : Z) : AstNode :=
  set_range left right (set_str name (new_AstNode AST_STRUCT_ITEM [])).

Definition total_width (fields : list (string * Z)) : Z :=
  foldr (fun field below => field.2 + below) 0 fields.

Fixpoint layout_fields (fields : list (string * Z)) : list AstNode :=
  match fields with
  | [] => []
  | (name, width) :: rest =>
      struct_item name (total_width rest + width - 1) (total_width rest)
        :: layout_fields rest
  end.

Definition packed_struct (fields : list (string * Z)) : AstNode :=
  new_AstNode AST_STRUCT (layout_fields fields).

(** The path [.name], as the walker builds it. *)
Definition field_path (name : string) : AstNode :=
  set_str ("\" +:+ name) (new_AstNode AST_DOT []).







(** A parameter assignment whose value is a resolved constant (other
    nodes of the walk are skipped by the instance branch). *)
Definition resolved_assign (a : option AstNode) : Prop :=
  match a with
  | Some node =>
      type node = AST_PARAMETER ->
      exists value rest, children node = value :: rest /\ type value = AST_CONSTANT
  | None => True
  end.

(** The text the resolved assignments contribute to the module name. *)
Definition parameters_text (assigns : list (option AstNode)) : string :=
  foldl (fun text a =>
           match a with
           | Some node =>
               if bool_decide (type node = AST_PARAMETER) then
                 match children node with
                 | value :: _ => text +:+ parameter_text node value
                 | [] => text
                 end
               else text
           | None => text
           end) "" assigns.

(** The assignment of the string [value] to the parameter [name]. *)
Definition string_parameter (name value : string) : AstNode :=
  set_str name (new_AstNode AST_PARAMETER [mkconst_str value]).

(** A stand-in for the digest where the parameter text is short and the
    digest is not consulted. *)
Definition no_digest : string -> string := fun _ => "".

(** The instance branch run for a sequence of instances of the module
    [type_name], each given by its parameter assignments and its
    [vpiCellInstance] value, in the order of the traversal. *)
Definition instantiate_each (ast_simplify : AstInternal -> AstNode -> AstNode)
    (sha1 : string -> string) (type_name : string)
    (instances : list (list (option AstNode) * Z)) (s : Shared * AstInternal)
    : result (list InstanceHead * Shared * AstInternal) :=
  fold_result
    (fun (acc : list InstanceHead * Shared * AstInternal)
         (instance : list (option AstNode) * Z) =>
       let '(heads, sh, st) := acc in
       '(head, sh, st) ←
         process_module_instance ast_simplify sha1 type_name
           instance.1 instance.2 (sh, st);
       Ok (heads ++ [head], sh, st))
    instances ([], s.1, s.2).

(** The assignment of a sized integer to the parameter [name]. *)
Definition integer_parameter (name : string) (value : Z) (width : nat) : AstNode :=
  set_str name (new_AstNode AST_PARAMETER [mkconst_int value width]).

(** ** Symbol names *)

(** [s.find_last_of(c)] and [s.rfind(c)] for one character: the position of
    its last occurrence, [None] standing for [npos]. *)
Fixpoint find_last_of (c : ascii) (s : string) : option nat :=
  match s with
  | EmptyString => None
  | String a rest =>
      match find_last_of c rest with
      | Some pos => Some (S pos)
      | None => if Ascii.eqb a c then Some 0%nat else None
      end
  end.

(** [s.find(pat)]: the position of the first occurrence of [pat]. *)
Fixpoint string_find (pat s : string) : option nat :=
  if String.prefix pat s then Some 0%nat
  else match s with
       | String _ rest => S <$> string_find pat rest
       | EmptyString => None
       end.

(** [s.substr(pos)]; it throws when [pos > s.size()]. *)
Fixpoint substr (s : string) (pos : nat) : result string :=
  match pos, s with
  | O, _ => Ok s
  | S pos, String _ rest => substr rest pos
  | S _, EmptyString => Abort (Undefined "std::out_of_range")
  end.

(** [pos + 1] on [size_t]: [npos] is the largest value, so [npos + 1] is 0. *)
Definition next_position (pos : option nat) : nat :=
  match pos with
  | Some pos => S pos
  | None => 0
  end.

(** [s[0] = c]; on the empty string it writes to the terminator. *)
Definition set_front (c : ascii) (s : string) : result string :=
  match s with
  | String _ rest => Ok (String c rest)
  | EmptyString => Abort (Undefined "write to the terminator of an empty string")
  end.

Definition sanitize_symbol_name (name : string) : result string :=
  if negb (bool_decide (name = "")) then
    let pos := find_last_of "@" name in
    name ← substr name (next_position pos);
    (* symbol names must begin with '\' *)
    Ok ("\" +:+ name)
  else Ok name.

(** The string properties of a VPI object that the naming functions read;
    [vpi_get_str] yields the string or a null pointer. *)
Inductive vpi_property : Type := vpiName | vpiFullName | vpiDefName.

Definition vpiHandle : Type := vpi_property -> option string.

Definition vpi_get_str (property : vpi_property) (obj_h : vpiHandle)
    : option string :=
  obj_h property.

Definition get_name (obj_h : vpiHandle) (prefer_full_name : bool) : result string :=
  let first_check := if prefer_full_name then vpiFullName else vpiName in
  let last_check := if prefer_full_name then vpiName else vpiFullName in
  let name :=
    match vpi_get_str first_check obj_h with
    | Some s => s
    | None =>
        match vpi_get_str vpiDefName obj_h with
        | Some s => s
        | None =>
            match vpi_get_str last_check obj_h with
            | Some s => s
            | None => ""
            end
        end
    end in
  name ← (match find_last_of "." name with
          | Some pos => substr name (pos + 1)
          | None => Ok name
          end);
  sanitize_symbol_name name.

Definition strip_package_name (name : string) : result string :=
  match string_find "::" name with
  | Some sep_index =>
      name ← substr name (sep_index + 1);
      set_front "\" name
  | None => Ok name
  end.

(** The names [process_module] works with: the definition name and the
    instance name of the object, sanitized and without package prefix, and
    whether the object is an instance. *)
Definition module_names (obj_h : vpiHandle) : result (string * string * bool) :=
  type ← (match vpi_get_str vpiDefName obj_h with
          | Some s => Ok s
          | None => Abort (Undefined "std::string from a null pointer")
          end);
  let name := match vpi_get_str vpiName obj_h with
              | Some s => s
              | None => type
              end in
  let is_module_instance := negb (bool_decide (type = name)) in
  type ← sanitize_symbol_name type;
  name ← sanitize_symbol_name name;
  type ← strip_package_name type;
  name ← strip_package_name name;
  Ok (type, name, is_module_instance).

(** [c] does not occur in [s]. *)
Definition free_of (c : ascii) (s : string) : Prop :=
  ~ In c (String.list_ascii_of_string s).

(** A symbol name as the walker hands it on: empty, or a backslash followed
    by text without ['@']. *)
Definition symbol_name (s : string) : Prop :=
  s = "" \/ exists base, s = "\" +:+ base /\ free_of "@" base.

(** ** Children of a module

    [add_or_replace_child] also copies [port_id] and sets [is_custom_type],
    two fields of [AstNode] that no other function of the embedding reads:
    a child of the parent is the node together with these two fields. *)
Record Child : Type := mkChild {
  ast : AstNode;
  port_id : Z;
  is_custom_type : bool
}.

(** If port direction is already set, copy it to replaced child node. *)
Definition copy_port_direction (existing child : Child) : Child :=
  if is_input (ast existing) || is_output (ast existing) then
    let node := set_port (is_input (ast existing)) (is_output (ast existing))
                         (ast child) in
    let node := if bool_decide (type node = AST_MEMORY)
                then set_type AST_WIRE node else node in
    mkChild node (port_id existing) (is_custom_type child)
  else child.

(** One turn of the loop that copies the children of the replaced child:
    the grandchild is cloned into [child], and a wire that receives a
    [AST_WIRETYPE] child is marked as being of a custom type. *)
Definition push_grandchild (child : Child) (grandchild : AstNode) : Child :=
  let node := set_children (children (ast child) ++ [grandchild]) (ast child) in
  mkChild node (port_id child)
    (if bool_decide (type node = AST_WIRE)
        && bool_decide (type grandchild = AST_WIRETYPE)
     then true else is_custom_type child).

(** If the child we are replacing has children and our node does not, its
    children are copied to not lose any information. *)
Definition copy_grandchildren (existing child : Child) : Child :=
  if negb (bool_decide (children (ast existing) = []))
     && bool_decide (children (ast child) = []) then
    foldl push_grandchild child (children (ast existing))
  else child.

(** The ranges recorded under the attribute [k] are taken over from the
    replaced child when the new child records none. *)
Definition copy_ranges (k : string) (existing child : Child) : Child :=
  match attributes (ast existing) !! k, attributes (ast child) !! k with
  | Some existing_ranges, Some child_ranges =>
      if negb (bool_decide (children existing_ranges = []))
         && bool_decide (children child_ranges = []) then
        mkChild (set_attributes (<[k := existing_ranges]> (attributes (ast child)))
                                (ast child))
                (port_id child) (is_custom_type child)
      else child
  | _, _ => child
  end.

(** [v.insert(find_if(v.begin(), v.end(), p), x)]: before the first element
    that satisfies [p], at the end when there is none. *)
Definition insert_before `{forall x : A, Decision (P x)} (l : list A) (x : A)
    : list A :=
  match list_find P l with
  | Some (i, _) => take i l ++ x :: drop i l
  | None => l ++ [x]
  end.

(** [add_or_replace_child(parent, child)], [parent] being given by its
    vector of children. *)
Definition add_or_replace_child (parent : list Child) (child : Child)
    : result (list Child) :=
  if negb (bool_decide (str (ast child) = "")) then
    match list_find (fun existing_child => str (ast existing_child) = str (ast child))
                    parent with
    | Some (it, existing) =>
        let child := copy_port_direction existing child in
        let child := copy_grandchildren existing child in
        let child := copy_ranges ID.packed_ranges existing child in
        let child := copy_ranges ID.unpacked_ranges existing child in
        Ok (<[it := child]> parent)
    | None => Ok (parent ++ [child])
    end
  else if bool_decide (type (ast child) = AST_INITIAL) then
    (* Special case for initials: ensure that there is only one AST_INITIAL
       in the design and only one AST_BLOCK inside that initial *)
    match list_find (fun node => type (ast node) = AST_INITIAL) parent with
    | Some (it, initial_node) =>
        _ ← log_assert (negb (bool_decide (children (ast initial_node) = [])))
              "!(initial_node->children.empty())";
        block_node ← vector_at (children (ast initial_node)) 0;
        _ ← log_assert (bool_decide (type block_node = AST_BLOCK))
              "initial_node->children[0]->type == AST::AST_BLOCK";
        _ ← log_assert (negb (bool_decide (children (ast child) = [])))
              "!(child->children.empty())";
        child_block_node ← vector_at (children (ast child)) 0;
        _ ← log_assert (bool_decide (type child_block_node = AST_BLOCK))
              "child->children[0]->type == AST::AST_BLOCK";
        (* Place the contents of child block node inside parent block *)
        let block_node :=
          set_children (children block_node ++ children child_block_node)
                       block_node in
        (* Place the remaining contents of child initial node inside the
           parent initial *)
        let initial_children :=
          <[0%nat := block_node]> (children (ast initial_node))
            ++ drop 1 (children (ast child)) in
        Ok (<[it := mkChild (set_children initial_children (ast initial_node))
                            (port_id initial_node) (is_custom_type initial_node)]>
              parent)
    | None =>
        (* Parent AST_INITIAL does not exist:
           place child AST_INITIAL before AST_ALWAYS if found *)
        Ok (insert_before (P := fun node => type (ast node) = AST_ALWAYS) parent child)
    end
  else Ok (parent ++ [child]).

(** The names of the named children. *)
Definition child_names (parent : list Child) : list string :=
  filter (fun name => name <> "") ((fun child => str (ast child)) <$> parent).

(** The children of type [AST_INITIAL]. *)
Definition initial_nodes (parent : list Child) : list Child :=
  filter (fun node => type (ast node) = AST_INITIAL) parent.

(** A child without port fields, as the walker builds a declaration. *)
Definition plain_child (node : AstNode) : Child := mkChild node 0 false.

(** ** The walker

    A [UhdmAst] object as [find_ancestor] sees it: the node it is
    building, if any, and the walker that created it. *)
Inductive UhdmAst : Type := mkUhdmAst {
  current_node : option AstNode;
  parent : option UhdmAst
}.

Fixpoint find_ancestor (types : list AstNodeType) (searched_node : UhdmAst)
    : option AstNode :=
  match searched_node with
  | mkUhdmAst current parent =>
      let next := match parent with
                  | Some searched_node => find_ancestor types searched_node
                  | None => None
                  end in
      match current with
      | Some node => if bool_decide (type node ∈ types) then Some node else next
      | None => next
      end
  end.

(** The nodes under construction from a walker upwards, nearest first. *)
Fixpoint enclosing (walker : UhdmAst) : list (option AstNode) :=
  match walker with
  | mkUhdmAst current parent =>
      current :: match parent with
                 | Some walker => enclosing walker
                 | None => []
                 end
  end.

(** The node visited at address [k] is a wire with one packed and one
    unpacked range: the shape [check_memories] registers as a memory. *)
Definition memory_at (ds : list AstNode) (k : nat) (w : AstNode) : Prop :=
  ds !! k = Some w /\ type w = AST_WIRE /\
  length (attribute_children w ID.packed_ranges) = 1%nat /\
  length (attribute_children w ID.unpacked_ranges) = 1%nat.

(** A node of the walk over the parameter assignments that the instance
    branch can read: a parameter assignment has its value as first child. *)
Definition has_value (a : option AstNode) : Prop :=
  match a with
  | Some node => type node = AST_PARAMETER -> children node <> []
  | None => True
  end.

(** The placeholder for a module whose definition has not been seen. *)
Definition placeholder_module (type_name : string) : AstNode :=
  set_attributes {[ ID.partial := mkconst_int 2 1 ]}
    (set_str type_name (new_AstNode AST_MODULE [])).

(** * Properties *)

Ltac norm := cbn [log_assert mbind result_bind negb andb].

(** ** Basic facts about vectors, nodes and values *)

Lemma vector_at_Some {A} (v : list A) i x : v !! i = Some x -> vector_at v i = Ok x.
Proof. unfold vector_at. by intros ->. Qed.

Lemma vector_at_back_reverse {A} (v : list A) k x :
  reverse v !! k = Some x -> vector_at_back v k = Ok x.
Proof.
  intros H. assert (Hk : (k < length v)%nat).
  { apply lookup_lt_Some in H. by rewrite length_reverse in H. }
  unfold vector_at_back. apply Nat.ltb_lt in Hk as Hb. rewrite Hb.
  apply vector_at_Some. rewrite reverse_lookup in H by done.
  replace (length v - k - 1)%nat with (length v - S k)%nat by lia. done.
Qed.

Lemma set_attributes_same n : set_attributes (attributes n) n = n.
Proof. by destruct n. Qed.

Lemma set_children_same n : set_children (children n) n = n.
Proof. by destruct n. Qed.

Lemma set_multirange_twice a b c d n :
  set_multirange a b (set_multirange c d n) = set_multirange a b n.
Proof. by destruct n. Qed.

Lemma eval_mkconst_int env v w : eval env (mkconst_int v w) = Some v.
Proof. reflexivity. Qed.

Lemma eval_constant env c : type c = AST_CONSTANT -> eval env c = Some (integer c).
Proof. destruct c; simpl; intros ->; reflexivity. Qed.

(** ** Machine integers and products *)

Lemma to_int_small z : - 2 ^ 31 <= z < 2 ^ 31 -> to_int z = z.
Proof. intros H. unfold to_int. rewrite Z.mod_small by lia. lia. Qed.

Lemma to_int_bounds z : - 2 ^ 31 <= to_int z < 2 ^ 31.
Proof.
  unfold to_int. pose proof (Z.mod_pos_bound (z + 2 ^ 31) (2 ^ 32) ltac:(lia)). lia.
Qed.

Lemma to_uint32_small z : 0 <= z < 2 ^ 32 -> to_uint32 z = z.
Proof. intros H. unfold to_uint32. by rewrite Z.mod_small. Qed.

Lemma list_product_cons x l : list_product (x :: l) = x * list_product l.
Proof. reflexivity. Qed.

Lemma list_product_app a b : list_product (a ++ b) = list_product a * list_product b.
Proof.
  induction a as [|x a IH].
  - change (list_product ([] ++ b)) with (list_product b).
    change (list_product []) with 1. lia.
  - change (list_product ((x :: a) ++ b)) with (x * list_product (a ++ b)).
    rewrite list_product_cons, IH. lia.
Qed.

Lemma list_product_positive l : Forall (fun x => 0 < x) l -> 0 < list_product l.
Proof.
  induction 1 as [|x l Hx _ IH]; [done|]. rewrite list_product_cons. lia.
Qed.

(** Among positive factors, no factor and no product of a suffix exceeds
    the whole product. *)
Lemma list_product_drop_le l i :
  Forall (fun x => 0 < x) l -> 1 <= list_product (drop i l) <= list_product l.
Proof.
  intros Hl. rewrite <- (take_drop i l) at 3. rewrite list_product_app.
  pose proof (list_product_positive (take i l) ltac:(by apply Forall_take)).
  pose proof (list_product_positive (drop i l) ltac:(by apply Forall_drop)).
  nia.
Qed.

Lemma list_product_elem_le l i x :
  Forall (fun x => 0 < x) l -> l !! i = Some x -> 0 < x <= list_product l.
Proof.
  intros Hl Hx. rewrite <- (take_drop_middle l i x Hx), list_product_app.
  rewrite list_product_cons.
  pose proof (list_product_positive (take i l) ltac:(by apply Forall_take)).
  pose proof (list_product_positive (drop (S i) l) ltac:(by apply Forall_drop)).
  assert (0 < x) by (eapply (Forall_lookup_1 _ l); eauto).
  split; [done|].
  match goal with |- _ <= ?a * (x * ?b) =>
    replace (a * (x * b)) with (x * (a * b)) by ring; assert (1 <= a * b) by nia
  end.
  nia.
Qed.

(** ** Dimension tables *)

Lemma dimension_table_app a b :
  dimension_table (a ++ b) = dimension_table a ++ dimension_table b.
Proof. unfold dimension_table. apply bind_app. Qed.

Lemma dimension_table_length ds : length (dimension_table ds) = (2 * length ds)%nat.
Proof.
  induction ds as [|d ds IH]; [done|].
  change (dimension_table (d :: ds))
    with (dim_low d :: dim_width d :: dimension_table ds).
  simpl. rewrite IH. lia.
Qed.

Lemma reverse_dimension_table ds :
  reverse (dimension_table (reverse ds)) = ds ≫= fun d => [dim_width d; dim_low d].
Proof.
  unfold dimension_table. induction ds as [|d ds IH]; [done|].
  rewrite reverse_cons, bind_app, reverse_app, IH. simpl. done.
Qed.

Lemma pairs_lookup (ds : list Dimension) i d :
  ds !! i = Some d ->
  (ds ≫= fun d => [dim_width d; dim_low d]) !! (i * 2)%nat = Some (dim_width d) /\
  (ds ≫= fun d => [dim_width d; dim_low d]) !! (i * 2 + 1)%nat = Some (dim_low d).
Proof.
  revert i. induction ds as [|d' ds IH]; intros [|i] H; simplify_eq/=; [done|].
  apply IH in H. replace (i * 2 + 1)%nat with (S (i * 2)) in H by lia.
  replace (i * 2 + 1)%nat with (S (i * 2)) by lia. done.
Qed.

Lemma swapped_table_back ds i d :
  ds !! i = Some d ->
  vector_at_back (swapped_table (reverse ds)) i = Ok (dim_swapped d).
Proof.
  intros H. apply vector_at_back_reverse. unfold swapped_table.
  rewrite <- fmap_reverse, reverse_involutive, list_lookup_fmap, H. done.
Qed.

Lemma dimension_table_back ds i d :
  ds !! i = Some d ->
  vector_at_back (dimension_table (reverse ds)) (i * 2) = Ok (dim_width d) /\
  vector_at_back (dimension_table (reverse ds)) (i * 2 + 1) = Ok (dim_low d).
Proof.
  intros H. destruct (pairs_lookup _ _ _ H) as [H1 H2].
  split; apply vector_at_back_reverse; by rewrite reverse_dimension_table.
Qed.

Lemma dim_elems_positive ds :
  Forall (fun d => 0 < dim_elem d) ds -> Forall (fun x => 0 < x) (dim_elem <$> ds).
Proof. intros H. by apply Forall_fmap. Qed.

(** As long as the running product fits in an [int], the loop computes it
    exactly. *)
Lemma elem_sizes_app a ds rest :
  0 < a -> Forall (fun d => 0 < dim_elem d) ds ->
  a * list_product (dim_elem <$> ds) < 2 ^ 31 ->
  elem_sizes a (dimension_table ds ++ rest) =
  elem_sizes a (dimension_table ds)
    ++ elem_sizes (a * list_product (dim_elem <$> ds)) rest.
Proof.
  intros Ha Hpos. revert a Ha.
  induction Hpos as [|d ds Hd Hpos IH]; intros a Ha Hfit.
  - simpl. by rewrite Z.mul_1_r.
  - cbn [fmap list_fmap] in Hfit. rewrite list_product_cons in Hfit.
    pose proof (list_product_positive _ (dim_elems_positive ds Hpos)) as Hp.
    assert (He : to_int (a * (dim_width d - dim_low d)) = a * dim_elem d).
    { apply to_int_small. unfold dim_elem in *. nia. }
    change (dimension_table (d :: ds))
      with (dim_low d :: dim_width d :: dimension_table ds).
    cbn [app elem_sizes]. rewrite He, IH by nia.
    cbn [fmap list_fmap]. rewrite list_product_cons, Z.mul_assoc. reflexivity.
Qed.

Lemma list_product_reverse l : list_product (reverse l) = list_product l.
Proof.
  induction l as [|x l IH]; [done|]. rewrite reverse_cons. simpl.
  rewrite <- IH. generalize (reverse l). intros l'.
  induction l' as [|y l' IH']; simpl; [lia|]. rewrite IH'. lia.
Qed.

(** When every dimension has at least one element and the whole product
    fits in an [int], the sizes [convert_range] works with are the products
    of the dimensions below each position. *)
Lemma single_elem_size_table ds :
  Forall (fun d => 0 < dim_elem d) ds ->
  list_product (dim_elem <$> ds) < 2 ^ 31 ->
  single_elem_size (dimension_table (reverse ds)) = suffix_products ds.
Proof.
  unfold single_elem_size. induction 1 as [|d ds Hd Hpos IH]; intros Hfit; [done|].
  cbn [fmap list_fmap] in Hfit. rewrite list_product_cons in Hfit.
  pose proof (list_product_positive _ (dim_elems_positive ds Hpos)) as Hp.
  assert (Hrev : list_product (dim_elem <$> reverse ds) = list_product (dim_elem <$> ds)).
  { by rewrite fmap_reverse, list_product_reverse. }
  rewrite (reverse_cons ds d), dimension_table_app, elem_sizes_app;
    [|lia|by apply Forall_reverse|rewrite Hrev; nia].
  rewrite Hrev, Z.mul_1_l.
  change (dimension_table [d]) with [dim_low d; dim_width d].
  cbn [elem_sizes].
  assert (He : to_int (list_product (dim_elem <$> ds) * (dim_width d - dim_low d))
               = dim_elem d * list_product (dim_elem <$> ds)).
  { rewrite to_int_small; unfold dim_elem in *; nia. }
  rewrite He, app_comm_cons, reverse_app, IH by nia. reflexivity.
Qed.

Lemma suffix_products_lookup ds i :
  (i <= length ds)%nat ->
  suffix_products ds !! i = Some (list_product (dim_elem <$> drop i ds)).
Proof.
  revert i. induction ds as [|d ds IH]; intros [|i] H; simpl in *; try lia; try done.
  apply IH. lia.
Qed.

(** ** Access rewriting *)

Section ConvertRange.
Context (st : AstInternal) (id wire : AstNode) (packed unpacked : list AstNode).
Context (ds : list Dimension) (xs : list Z) (env : string -> Z).
Hypothesis Hmod : is_Some (current_ast_mod st).
Hypothesis Hscope : current_scope st !! str id = Some wire.
Hypothesis Hdims : multirange_dimensions wire = dimension_table (reverse ds).
Hypothesis Hsw : multirange_swapped wire = swapped_table (reverse ds).
Hypothesis Hcount : (length unpacked + length packed = length ds)%nat.
Hypothesis Hsel : Forall2 selects (children id) xs.
Hypothesis Hpos : Forall (fun d => 0 < dim_elem d) ds.
Hypothesis Hfit : list_product (dim_elem <$> ds) < 2 ^ 31.

(** What the rewriting reads for selector [i]: the size of the dimension and
    the size of the sub-array below it, both as the [int] and [uint32_t]
    arithmetic leaves them. *)
Lemma convert_range_reads i d :
  ds !! i = Some d ->
  to_int (dim_width d - dim_low d) = dim_elem d /\
  to_uint32 (dim_elem d - 1) = dim_elem d - 1 /\
  to_uint32 (list_product (dim_elem <$> drop (S i) ds))
  = list_product (dim_elem <$> drop (S i) ds) /\
  vector_at (single_elem_size (multirange_dimensions wire)) (i + 1)
  = Ok (list_product (dim_elem <$> drop (S i) ds)).
Proof using Hdims Hpos Hfit.
  clear Hmod Hscope Hsw Hcount Hsel. intros Hd.
  assert (Hi : (i < length ds)%nat) by (by eapply lookup_lt_Some).
  pose proof (list_product_elem_le (dim_elem <$> ds) i (dim_elem d)
                (dim_elems_positive ds Hpos)
                ltac:(by rewrite list_lookup_fmap, Hd)) as He.
  pose proof (list_product_drop_le (dim_elem <$> ds) (S i)
                (dim_elems_positive ds Hpos)) as Hs.
  rewrite <- fmap_drop in Hs.
  split; [|split; [|split]].
  - apply to_int_small. unfold dim_elem in *. lia.
  - apply to_uint32_small. lia.
  - apply to_uint32_small. lia.
  - rewrite Hdims, single_elem_size_table by done. apply vector_at_Some.
    replace (i + 1)%nat with (S i) by lia. apply suffix_products_lookup. lia.
Qed.

Hypothesis Hlen : length xs = length ds.

(** From selector [i] on, the rewritten range is one bit wide and sits at
    the offset of the remaining indices. *)
Lemma convert_range_rec_offset k : forall i fuel,
  (i + k = length ds)%nat -> (1 <= k)%nat -> (k <= fuel)%nat ->
  exists l h,
    convert_range_rec fuel st id packed unpacked i
      = Ok (new_AstNode AST_RANGE [l; h]) /\
    eval env l = Some (flat_offset (drop i ds) (drop i xs)) /\
    eval env h = Some (flat_offset (drop i ds) (drop i xs)).
Proof.
  assert (Hn : length (children id) = length ds).
  { apply Forall2_length in Hsel. lia. }
  induction k as [|k IH]; intros i fuel Hik Hk Hfuel; [lia|].
  destruct fuel as [|fuel]; [lia|].
  assert (Hi : (i < length ds)%nat) by lia.
  destruct (lookup_lt_is_Some_2 ds i Hi) as [d Hd].
  destruct (lookup_lt_is_Some_2 xs i ltac:(lia)) as [x Hx].
  destruct (lookup_lt_is_Some_2 (children id) i ltac:(lia)) as [sel Hs].
  assert (Hselx : selects sel x) by (eapply Forall2_lookup_lr; eauto).
  destruct Hselx as (c & Hc & Hct & Hcx).
  assert (Hdrop : drop i ds = d :: drop (S i) ds) by (by apply drop_S).
  assert (Hdropx : drop i xs = x :: drop (S i) xs) by (by apply drop_S).
  assert (Hne : multirange_dimensions wire <> []).
  { rewrite Hdims. intros E. apply (f_equal length) in E.
    rewrite dimension_table_length, length_reverse in E. simpl in E. lia. }
  assert (Hsne : multirange_swapped wire <> []).
  { rewrite Hsw. intros E. apply (f_equal length) in E.
    unfold swapped_table in E. rewrite length_fmap, length_reverse in E.
    simpl in E. lia. }
  assert (Hcne : children id <> []).
  { intros E. rewrite E in Hs. done. }
  destruct (dimension_table_back ds i d Hd) as [Hhi Hlo].
  pose proof (swapped_table_back ds i d Hd) as Hswb.
  rewrite <- Hsw in Hswb. rewrite <- Hdims in Hhi, Hlo.
  destruct (convert_range_reads i d Hd) as (Hel & Hu1 & Hu2 & He).
  cbn [convert_range_rec].
  rewrite (bool_decide_eq_true_2 _ Hmod). norm.
  rewrite Hscope.
  rewrite (bool_decide_eq_true_2 (is_Some (Some wire))) by eauto. norm.
  rewrite (bool_decide_eq_false_2 _ Hne). norm.
  rewrite Hcount, (proj2 (Nat.ltb_lt _ _) Hi). norm.
  rewrite (bool_decide_eq_false_2 _ Hcne). norm.
  replace ((length (children id) =? 0)%nat) with false
    by (symmetry; apply Nat.eqb_neq; lia).
  rewrite Hdrop, Hdropx. cbn [flat_offset].
  pose proof (eval_constant env c Hct) as Hev. rewrite Hcx in Hev.
  destruct k as [|k].
  - (* the last selector *)
    replace (Z.of_nat i <? Z.of_nat (length (children id)) - 1) with false
      by (symmetry; apply Z.ltb_ge; lia).
    assert (Hnil : drop (S i) ds = []) by (apply drop_ge; lia).
    rewrite Hnil in *. cbn [fmap list_fmap list_product foldr] in *.
    norm. rewrite (vector_at_Some _ _ _ Hs). norm. rewrite Hc.
    cbn [length Nat.eqb vector_at lookup list_lookup]. norm.
    rewrite (bool_decide_eq_false_2 _ Hsne). norm. rewrite Hswb. norm.
    unfold effective_index.
    destruct (dim_swapped d);
      [rewrite Hhi; norm; rewrite Hlo; norm; rewrite Hel, Hu1|];
      rewrite He; norm; rewrite Hu2; eexists _, _; (split; [reflexivity|]); split.
    all: unfold dim_elem; simpl; rewrite Hev; simpl; destruct (drop (S i) xs);
      f_equal; lia.
  - replace (Z.of_nat i <? Z.of_nat (length (children id)) - 1) with true
      by (symmetry; apply Z.ltb_lt; lia).
    destruct (IH (i + 1)%nat fuel ltac:(lia) ltac:(lia) ltac:(lia))
      as (l' & h' & Hrec & Hl' & Hh').
    rewrite Hrec. replace (i + 1)%nat with (S i) in Hl', Hh' by lia.
    cbn [fmap result_fmap]. norm.
    rewrite (vector_at_Some _ _ _ Hs). norm. rewrite Hc.
    cbn [length Nat.eqb vector_at lookup list_lookup]. norm.
    rewrite (bool_decide_eq_false_2 _ Hsne). norm. rewrite Hswb. norm.
    unfold effective_index.
    destruct (dim_swapped d);
      [rewrite Hhi; norm; rewrite Hlo; norm; rewrite Hel, Hu1|];
      rewrite He; norm; rewrite Hu2;
      cbn [children new_AstNode vector_at lookup list_lookup]; norm;
      eexists _, _; (split; [reflexivity|]); split.
    all: unfold dim_elem; simpl; rewrite ?Hev, ?Hl', ?Hh'; simpl;
      rewrite ?Hl', ?Hh'; simpl; f_equal; lia.
Qed.

End ConvertRange.

Lemma dim_elem_width ds :
  Forall (fun d => dim_low d = 0) ds -> dim_elem <$> ds = dim_width <$> ds.
Proof.
  induction 1 as [|d ds Hd _ IH]; [done|]. cbn [fmap list_fmap] in *.
  rewrite IH. unfold dim_elem. rewrite Hd. f_equal. lia.
Qed.

Lemma flat_offset_row_major ds xs :
  Forall (fun d => dim_low d = 0) ds ->
  flat_offset ds xs
  = row_major_offset (zip_with effective_index ds xs) (dim_width <$> ds).
Proof.
  intros Hlow. revert xs.
  induction Hlow as [|d ds Hd Hlow IH]; intros [|x xs]; try done.
  simpl. rewrite IH. do 2 f_equal. by rewrite (dim_elem_width ds).
Qed.

(** C1 (as amended).  For a flattened declaration whose recorded dimensions
    all have lower bound 0 and at least one element, and whose widths
    multiply to less than [2^31], an access with one constant index per
    dimension is rewritten by [convert_range] to a range whose two bounds
    both denote the row-major sum of [e_i] times the product of the widths
    of the dimensions after [i], where [e_i] is the index itself for an
    unswapped dimension and [width_i - 1 - index_i] for a dimension marked
    swapped.  [ds] lists the dimensions in access order; the tables hold
    them reversed, as flattening records them. *)
Theorem convert_range_row_major (st : AstInternal) (id wire : AstNode)
    (packed unpacked : list AstNode) (ds : list Dimension) (xs : list Z)
    (env : string -> Z) :
  is_Some (current_ast_mod st) ->
  current_scope st !! str id = Some wire ->
  multirange_dimensions wire = dimension_table (reverse ds) ->
  multirange_swapped wire = swapped_table (reverse ds) ->
  (length unpacked + length packed = length ds)%nat ->
  Forall2 selects (children id) xs ->
  length xs = length ds ->
  ds <> [] ->
  Forall (fun d => dim_low d = 0) ds ->
  Forall (fun d => 0 < dim_width d) ds ->
  list_product (dim_width <$> ds) < 2 ^ 31 ->
  exists l h,
    convert_range st id packed unpacked 0 = Ok (new_AstNode AST_RANGE [l; h]) /\
    eval env l
      = Some (row_major_offset (zip_with effective_index ds xs) (dim_width <$> ds)) /\
    eval env h
      = Some (row_major_offset (zip_with effective_index ds xs) (dim_width <$> ds)).
Proof.
  intros Hmod Hscope Hdims Hsw Hcount Hsel Hlen Hne Hlow Hwidth Hfit.
  assert (Hn : length (children id) = length ds).
  { apply Forall2_length in Hsel. lia. }
  assert (Hpos : (1 <= length ds)%nat) by (destruct ds; simpl; [done|lia]).
  assert (Helem : Forall (fun d => 0 < dim_elem d) ds).
  { apply Forall_forall. intros d Hd. unfold dim_elem.
    rewrite Forall_forall in Hlow, Hwidth.
    specialize (Hlow d Hd). specialize (Hwidth d Hd). simpl in *. lia. }
  rewrite <- (dim_elem_width ds Hlow) in Hfit.
  destruct (convert_range_rec_offset st id wire packed unpacked ds xs env
              Hmod Hscope Hdims Hsw Hcount Hsel Helem Hfit Hlen (length ds) 0%nat
              (length (children id)) ltac:(lia) Hpos ltac:(lia))
    as (l & h & Hr & Hl & Hh).
  exists l, h. rewrite drop_0 in Hl, Hh. rewrite drop_0 in Hl, Hh.
  rewrite flat_offset_row_major in Hl, Hh by done. done.
Qed.

(** The theorem at [x[2][1]] against dimensions [[3:0][1:0]]. *)
Lemma convert_range_row_major_witness :
  exists l h,
    convert_range
      (lowering_state
         {[ "\x" := set_multirange [0; 2; 0; 4] [false; false]
                      (declaration "\x" [make_range 3 0; make_range 1 0] []) ]})
      (access "\x" [2; 1]) [make_range 1 0; make_range 3 0] [] 0
      = Ok (new_AstNode AST_RANGE [l; h]) /\
    eval (fun _ => 0) l = Some 5 /\ eval (fun _ => 0) h = Some 5.
Proof.
  eapply (convert_range_row_major _ _ _ _ _
            [mkDimension 0 4 false; mkDimension 0 2 false] [2; 1]).
  - eexists; reflexivity.
  - reflexivity.
  - reflexivity.
  - reflexivity.
  - reflexivity.
  - repeat constructor; eexists; repeat split; reflexivity.
  - reflexivity.
  - discriminate.
  - repeat constructor.
  - repeat constructor.
  - reflexivity.
Defined.

(** C1 as stated fails in three ways.  Against a table whose outer
    dimension (width 4) is marked swapped, [x[1][0]] is rewritten to bit 4,
    not to the row-major offset [1 * 2 + 0].  For the declaration
    [[3:0][4:1]], whose inner dimension has lower bound 1, the size of that
    dimension is taken to be [4 - 1]: [x[1][1]] is rewritten to bit 4, not to
    [1 * 4 + 1], and so is [x[0][4]].  For the declaration
    [[1:0][65535:0][65535:0]] the product of the two inner widths does not
    fit in an [int]: [x[1][0][0]] is rewritten to bit 0, not to [2^32]. *)
Lemma convert_range_not_row_major :
  (let wire := set_multirange [0; 2; 0; 4] [false; true]
                 (declaration "\x" [make_range 0 3; make_range 1 0] []) in
   rewritten_access wire [1; 0] = Ok (Some (4, 4)) /\
   row_major_offset [1; 0] [4; 2] = 2) /\
  match convert_packed_unpacked_range already_folded (lowering_state ∅)
          (declaration "\x" [make_range 3 0; make_range 4 1] []) with
  | Ok wire =>
      multirange_dimensions wire = [1; 4; 0; 4] /\
      rewritten_access wire [1; 1] = Ok (Some (4, 4)) /\
      rewritten_access wire [0; 4] = Ok (Some (4, 4)) /\
      row_major_offset [1; 1] [4; 4] = 5
  | Abort _ => False
  end /\
  match convert_packed_unpacked_range already_folded (lowering_state ∅)
          (declaration "\x"
             [make_range 1 0; make_range 65535 0; make_range 65535 0] []) with
  | Ok wire =>
      multirange_dimensions wire = [0; 65536; 0; 65536; 0; 2] /\
      rewritten_access wire [1; 0; 0] = Ok (Some (0, 0)) /\
      row_major_offset [1; 0; 0] [2; 65536; 65536] = 4294967296
  | Abort _ => False
  end.
Proof. vm_compute. repeat split. Qed.

(** ** Flattening *)

Section Flatten.
Variable ast_simplify : AstInternal -> AstNode -> AstNode.
Variable st : AstInternal.
Hypothesis Hmod : is_Some (current_ast_mod st).

Lemma add_multirange_attribute_loop_folded ranges : forall wire size,
  Forall (folded_range ast_simplify st) ranges ->
  add_multirange_attribute_loop ast_simplify st wire size ranges
  = Ok (set_multirange
          (multirange_dimensions wire ++ dimension_table (range_dimension <$> ranges))
          (multirange_swapped wire ++ swapped_table (range_dimension <$> ranges))
          wire,
        ranges_size size ranges, ranges).
Proof.
  induction ranges as [|r ranges IH]; intros wire size Hf.
  - simpl. rewrite !app_nil_r. by destruct wire.
  - apply Forall_cons in Hf as [(Hs & c0 & c1 & Hc & Ht0 & Ht1) Hf].
    cbn [add_multirange_attribute_loop].
    rewrite (bool_decide_eq_true_2 _ Hmod). norm.
    rewrite Hc. cbn [length Nat.eqb]. rewrite Hs, Hc.
    cbn [vector_at lookup list_lookup]. norm.
    rewrite (bool_decide_eq_true_2 _ Ht0), (bool_decide_eq_true_2 _ Ht1). norm.
    rewrite IH by done. norm.
    rewrite set_multirange_twice.
    assert (Hd : range_dimension r
                 = mkDimension
                     (to_int (Z.min (to_uint32 (integer c0)) (to_uint32 (integer c1))))
                     (to_int (Z.max (to_uint32 (integer c0)) (to_uint32 (integer c1))
                              - Z.min (to_uint32 (integer c0)) (to_uint32 (integer c1))
                              + 1))
                     (range_swapped r)).
    { unfold range_dimension. by rewrite Hc. }
    cbn [fmap list_fmap]. unfold ranges_size. cbn [foldl].
    change (dimension_table (range_dimension r :: (range_dimension <$> ranges)))
      with ([dim_low (range_dimension r); dim_width (range_dimension r)]
              ++ dimension_table (range_dimension <$> ranges)).
    change (swapped_table (range_dimension r :: (range_dimension <$> ranges)))
      with ([dim_swapped (range_dimension r)]
              ++ swapped_table (range_dimension <$> ranges)).
    rewrite Hd. cbn [dim_low dim_width dim_swapped].
    destruct wire; cbn [multirange_dimensions multirange_swapped set_multirange].
    rewrite <- !app_assoc. reflexivity.
Qed.

End Flatten.

Lemma attribute_children_set_multirange a b n k :
  attribute_children (set_multirange a b n) k = attribute_children n k.
Proof. by destruct n. Qed.

Lemma store_attribute_children_same k n :
  store_attribute_children k (attribute_children n k) n = n.
Proof.
  unfold store_attribute_children, attribute_children.
  destruct (attributes n !! k) as [a|] eqn:E.
  - rewrite alter_id; [apply set_attributes_same|].
    intros x Hx. rewrite E in Hx. injection Hx as <-. apply set_children_same.
  - rewrite alter_id; [apply set_attributes_same|]. intros x Hx. congruence.
Qed.

Lemma store_attribute_children_multirange k a b n :
  store_attribute_children k (attribute_children n k) (set_multirange a b n)
  = set_multirange a b n.
Proof.
  rewrite <- (attribute_children_set_multirange a b n k).
  apply store_attribute_children_same.
Qed.

Section FlattenDeclaration.
Variable ast_simplify : AstInternal -> AstNode -> AstNode.
Variable st : AstInternal.

(** The conversion path on a declaration whose ranges are in folded form:
    the tables receive one entry per range, packed ranges first, and one
    synthetic range is appended. *)
Lemma flatten_converts decl :
  let packed := attribute_children decl ID.packed_ranges in
  let unpacked := attribute_children decl ID.unpacked_ranges in
  is_Some (current_ast_mod st) ->
  first_child_is AST_WIRETYPE decl = false ->
  packed ++ unpacked <> [] ->
  convert_node decl packed unpacked = true ->
  multirange_dimensions decl = [] ->
  Forall (folded_range ast_simplify st) (packed ++ unpacked) ->
  convert_packed_unpacked_range ast_simplify st decl
  = Ok (set_children
          (children decl
             ++ [make_range
                   (to_int (size_t_mul (ranges_size 1 packed) (ranges_size 1 unpacked) - 1))
                   0])
          (set_multirange
             (dimension_table (range_dimension <$> packed ++ unpacked))
             (multirange_swapped decl
                ++ swapped_table (range_dimension <$> packed ++ unpacked))
             decl)).
Proof.
  intros packed unpacked Hmod Hwt Hne Hconv Hdims Hf.
  apply Forall_app in Hf as [Hfp Hfu].
  assert (Hboth : bool_decide (packed = []) && bool_decide (unpacked = []) = false).
  { destruct packed, unpacked; try done. }
  subst packed unpacked.
  unfold convert_packed_unpacked_range. rewrite Hwt. norm.
  rewrite Hboth, Hconv, (bool_decide_eq_true_2 _ Hdims).
  unfold add_multirange_attribute.
  rewrite (add_multirange_attribute_loop_folded ast_simplify st Hmod) by done. norm.
  rewrite store_attribute_children_multirange.
  rewrite (add_multirange_attribute_loop_folded ast_simplify st Hmod) by done. norm.
  rewrite set_multirange_twice, store_attribute_children_multirange.
  rewrite Hdims. destruct decl; cbn.
  rewrite !fmap_app, dimension_table_app. unfold swapped_table.
  rewrite !fmap_app, <- !app_assoc. reflexivity.
Qed.

(** The other path: the declaration keeps its tables and receives its own
    ranges as children; a plain wire with one packed and one unpacked range
    becomes a memory. *)
Lemma flatten_keeps_simple decl :
  let packed := attribute_children decl ID.packed_ranges in
  let unpacked := attribute_children decl ID.unpacked_ranges in
  first_child_is AST_WIRETYPE decl = false ->
  convert_node decl packed unpacked = false ->
  exists w,
    convert_packed_unpacked_range ast_simplify st decl = Ok w /\
    multirange_dimensions w = multirange_dimensions decl /\
    multirange_swapped w = multirange_swapped decl /\
    children w = children decl ++ packed ++ unpacked /\
    (type decl = AST_WIRE -> length packed = 1%nat -> length unpacked = 1%nat ->
     is_input decl = false -> is_output decl = false -> type w = AST_MEMORY).
Proof.
  intros packed unpacked Hwt Hconv.
  unfold convert_packed_unpacked_range. rewrite Hwt. norm.
  change (attribute_children decl ID.packed_ranges) with packed.
  change (attribute_children decl ID.unpacked_ranges) with unpacked.
  destruct (bool_decide (packed = []) && bool_decide (unpacked = [])) eqn:Hboth.
  - apply andb_true_iff in Hboth as [Hp%bool_decide_eq_true Hu%bool_decide_eq_true].
    eexists. split; [reflexivity|]. rewrite Hp, Hu, !app_nil_r.
    destruct decl; cbn. repeat split; try done.
  - rewrite Hconv.
    destruct (bool_decide (type decl = AST_WIRE) && (length packed =? 1)%nat
              && (length unpacked =? 1)%nat && negb (is_input decl)
              && negb (is_output decl)) eqn:Hmem; norm.
    + eexists. split; [reflexivity|]. destruct decl; cbn. repeat split; done.
    + eexists. split; [reflexivity|]. destruct decl; cbn in *.
      repeat split; try done. intros -> Hp Hu -> ->.
      rewrite Hp, Hu in Hmem. done.
Qed.

End FlattenDeclaration.

Lemma make_range_folded (ast_simplify : AstInternal -> AstNode -> AstNode) st l r :
  ast_simplify st (make_range l r) = make_range l r ->
  folded_range ast_simplify st (make_range l r).
Proof. intros H. split; [done|]. by eexists _, _. Qed.

(** C2 (as amended).  For the declaration with packed dimensions
    [[3:0][1:0]], whose range nodes the simplifier leaves unchanged,
    flattening records the dimension-size table [(0,2),(0,4)] (reversed
    declaration order, the outermost dimension last) and appends the flat
    range [[7:0]]; against the flattened declaration the access [x[2][1]]
    is rewritten to the single-bit range [[5:5]]. *)
Theorem flatten_scenario (ast_simplify : AstInternal -> AstNode -> AstNode)
    (st : AstInternal) (env : string -> Z) :
  is_Some (current_ast_mod st) ->
  ast_simplify st (make_range 3 0) = make_range 3 0 ->
  ast_simplify st (make_range 1 0) = make_range 1 0 ->
  exists wire,
    convert_packed_unpacked_range ast_simplify st
      (declaration "\x" [make_range 3 0; make_range 1 0] []) = Ok wire /\
    multirange_dimensions wire = [0; 2; 0; 4] /\
    children wire = [make_range 7 0] /\
    eval_range env
      <$> convert_range (lowering_state {[ "\x" := wire ]}) (access "\x" [2; 1])
            (attribute_children wire ID.packed_ranges)
            (attribute_children wire ID.unpacked_ranges) 0
    = Ok (Some (5, 5)).
Proof.
  intros Hmod H30 H10.
  eexists. split.
  - apply flatten_converts; [done | reflexivity | discriminate | reflexivity
                            | reflexivity |].
    change (Forall (folded_range ast_simplify st) [make_range 1 0; make_range 3 0]).
    apply Forall_cons_2; [by apply make_range_folded|].
    apply Forall_cons_2; [by apply make_range_folded|]. apply Forall_nil_2.
  - repeat split; vm_compute; reflexivity.
Qed.

Lemma flatten_scenario_witness :
  exists wire,
    convert_packed_unpacked_range already_folded (lowering_state ∅)
      (declaration "\x" [make_range 3 0; make_range 1 0] []) = Ok wire /\
    multirange_dimensions wire = [0; 2; 0; 4] /\
    children wire = [make_range 7 0] /\
    eval_range (fun _ => 0)
      <$> convert_range (lowering_state {[ "\x" := wire ]}) (access "\x" [2; 1])
            (attribute_children wire ID.packed_ranges)
            (attribute_children wire ID.unpacked_ranges) 0
    = Ok (Some (5, 5)).
Proof.
  apply (flatten_scenario already_folded (lowering_state ∅) (fun _ => 0)).
  - eexists; reflexivity.
  - reflexivity.
  - reflexivity.
Defined.

(** C2 as stated fails on the table: the outermost dimension (width 4) is
    recorded last, not first. *)
Lemma flatten_scenario_table_order :
  match convert_packed_unpacked_range already_folded (lowering_state ∅)
          (declaration "\x" [make_range 3 0; make_range 1 0] []) with
  | Ok wire =>
      multirange_dimensions wire = [0; 2; 0; 4] /\
      multirange_dimensions wire <> [0; 4; 0; 2]
  | Abort _ => False
  end.
Proof. vm_compute. split; [reflexivity | discriminate]. Qed.

(** On the conversion path a second call changes nothing. *)
Lemma flatten_converted_twice (ast_simplify : AstInternal -> AstNode -> AstNode)
    st decl :
  let packed := attribute_children decl ID.packed_ranges in
  let unpacked := attribute_children decl ID.unpacked_ranges in
  is_Some (current_ast_mod st) ->
  first_child_is AST_WIRETYPE decl = false ->
  packed ++ unpacked <> [] ->
  convert_node decl packed unpacked = true ->
  multirange_dimensions decl = [] ->
  Forall (folded_range ast_simplify st) (packed ++ unpacked) ->
  exists once,
    convert_packed_unpacked_range ast_simplify st decl = Ok once /\
    convert_packed_unpacked_range ast_simplify st once = Ok once.
Proof.
  intros packed unpacked Hmod Hwt Hne Hconv Hdims Hf.
  eexists. split; [by apply flatten_converts|].
  assert (Hboth : bool_decide (packed = []) && bool_decide (unpacked = []) = false).
  { destruct packed, unpacked; try done. }
  assert (Htable : dimension_table (range_dimension <$> packed ++ unpacked) <> []).
  { intros E. apply (f_equal length) in E.
    rewrite dimension_table_length, length_fmap in E.
    destruct (packed ++ unpacked); simpl in E; [done|lia]. }
  match goal with |- convert_packed_unpacked_range _ _ ?n = _ => set (once := n) end.
  assert (Ha : forall k, attribute_children once k = attribute_children decl k).
  { intros k. subst once. by destruct decl. }
  assert (Hw1 : first_child_is AST_WIRETYPE once = false).
  { subst once. destruct decl as [t s cs at_ bs i rl rr rs ii io bp md ms i2].
    unfold first_child_is in *. cbn in *. by destruct cs. }
  assert (Hc1 : convert_node once packed unpacked = true).
  { rewrite <- Hconv. subst once. by destruct decl. }
  assert (Hd1 : multirange_dimensions once <> []).
  { subst once. by destruct decl. }
  unfold convert_packed_unpacked_range. rewrite Hw1. norm.
  rewrite !Ha. fold packed unpacked. rewrite Hboth, Hc1.
  rewrite (bool_decide_eq_false_2 _ Hd1). norm.
  rewrite app_nil_r. by rewrite set_children_same.
Qed.

(** C5 at the failing input.  A plain wire with the single packed range
    [[7:0]] takes the path that copies the declared ranges into the
    children; calling flatten again copies them once more, so the second
    call does not leave the range children as the first call left them. *)
Theorem flatten_twice_duplicates_ranges
    (ast_simplify : AstInternal -> AstNode -> AstNode) (st : AstInternal) :
  exists once twice,
    convert_packed_unpacked_range ast_simplify st
      (declaration "\w" [make_range 7 0] []) = Ok once /\
    convert_packed_unpacked_range ast_simplify st once = Ok twice /\
    children once = [make_range 7 0] /\
    children twice = [make_range 7 0; make_range 7 0].
Proof. eexists _, _. repeat split; vm_compute; reflexivity. Qed.

(** C6.  A declaration with at most one packed and at most one unpacked
    range that is not a parameter or localparam, carries no named type, is
    not a port with ranges and is not marked for forced conversion is not
    flattened: its dimension tables are left as they were and the ranges
    appended to its children are its own declared ranges; with exactly one
    packed and one unpacked range it becomes a memory. *)
Theorem simple_declaration_not_flattened
    (ast_simplify : AstInternal -> AstNode -> AstNode) (st : AstInternal)
    (decl : AstNode) :
  let packed := attribute_children decl ID.packed_ranges in
  let unpacked := attribute_children decl ID.unpacked_ranges in
  (length packed <= 1)%nat -> (length unpacked <= 1)%nat ->
  is_declaration_type (type decl) = true ->
  type decl <> AST_PARAMETER -> type decl <> AST_LOCALPARAM ->
  has_attribute decl ID.wiretype = false ->
  first_child_is AST_WIRETYPE decl = false ->
  (is_input decl || is_output decl)
    && ((0 <? length packed)%nat || (0 <? length unpacked)%nat) = false ->
  is_force_convert decl = false ->
  exists w,
    convert_packed_unpacked_range ast_simplify st decl = Ok w /\
    multirange_dimensions w = multirange_dimensions decl /\
    multirange_swapped w = multirange_swapped decl /\
    children w = children decl ++ packed ++ unpacked /\
    (length packed = 1%nat -> length unpacked = 1%nat -> type w = AST_MEMORY).
Proof.
  intros packed unpacked Hp Hu Hdecl Hnp Hnl Hnt Hwt Hport Hfc.
  assert (Hconv : convert_node decl packed unpacked = false).
  { unfold convert_node. rewrite Hnt, Hport, Hfc.
    rewrite (bool_decide_eq_false_2 _ Hnp), (bool_decide_eq_false_2 _ Hnl).
    replace (1 <? length packed)%nat with false by (symmetry; apply Nat.ltb_ge; lia).
    replace (1 <? length unpacked)%nat with false by (symmetry; apply Nat.ltb_ge; lia).
    reflexivity. }
  destruct (flatten_keeps_simple ast_simplify st decl Hwt Hconv)
    as (w & Hw & Hd & Hs & Hc & Hm).
  exists w. repeat split; try done.
  intros Hp1 Hu1. apply Hm; try done.
  - unfold is_declaration_type in Hdecl.
    rewrite (bool_decide_eq_false_2 _ Hnp), (bool_decide_eq_false_2 _ Hnl) in Hdecl.
    rewrite !orb_false_r in Hdecl. by apply bool_decide_eq_true in Hdecl.
  - fold packed in Hport. rewrite Hp1 in Hport. simpl in Hport.
    rewrite andb_true_r in Hport. by apply orb_false_iff in Hport as [? ?].
  - fold packed in Hport. rewrite Hp1 in Hport. simpl in Hport.
    rewrite andb_true_r in Hport. by apply orb_false_iff in Hport as [? ?].
Qed.

Lemma simple_declaration_not_flattened_witness :
  exists w,
    convert_packed_unpacked_range already_folded (lowering_state ∅)
      (declaration "\mem" [make_range 7 0] [make_range 0 3]) = Ok w /\
    multirange_dimensions w = [] /\
    multirange_swapped w = [] /\
    children w = [] ++ [make_range 7 0] ++ [make_range 0 3] /\
    (1 = 1 -> 1 = 1 -> type w = AST_MEMORY)%nat.
Proof.
  apply (simple_declaration_not_flattened already_folded (lowering_state ∅)
           (declaration "\mem" [make_range 7 0] [make_range 0 3]));
    first [ reflexivity | discriminate | vm_compute; lia ].
Defined.

(** ** Memories loaded by [$readmemh] *)

Lemma fold_result_app {A B} (f : A -> B -> result A) l1 l2 a :
  fold_result f (l1 ++ l2) a = fold_result f l1 a ≫= fold_result f l2.
Proof.
  revert a. induction l1 as [|x l1 IH]; intros a; [done|].
  simpl. destruct (f a x); simpl; [apply IH | done].
Qed.

Lemma fold_result_invariant {A B} (P : A -> Prop) (f : A -> B -> result A) l :
  (forall a x a', P a -> f a x = Ok a' -> P a') ->
  forall a b, P a -> fold_result f l a = Ok b -> P b.
Proof.
  intros Hstep. induction l as [|x l IH]; intros a b Ha H; simpl in H.
  - by injection H as <-.
  - destruct (f a x) as [a'|] eqn:E; [|done]. eapply IH; [|exact H]. eauto.
Qed.

Lemma add_force_convert_twice n v v' :
  add_force_convert_attribute (add_force_convert_attribute n v) v'
  = add_force_convert_attribute n v'.
Proof.
  destruct n. unfold add_force_convert_attribute. cbn.
  by rewrite insert_insert_eq.
Qed.

Lemma flag_variant_add n n' v :
  flag_variant n n' ->
  add_force_convert_attribute n' v = add_force_convert_attribute n v.
Proof. intros [->|[v' ->]]; [done|]. apply add_force_convert_twice. Qed.

Lemma flag_variant_after n n' v :
  flag_variant n n' -> flag_variant n (add_force_convert_attribute n' v).
Proof. intros H. right. exists v. by apply flag_variant_add. Qed.

Lemma flag_variant_fields n n' :
  flag_variant n n' ->
  str n' = str n /\ type n' = type n /\ children n' = children n /\
  attribute_children n' ID.packed_ranges = attribute_children n ID.packed_ranges /\
  attribute_children n' ID.unpacked_ranges = attribute_children n ID.unpacked_ranges.
Proof.
  intros [->|[v ->]]; [done|]. destruct n. unfold attribute_children. cbn.
  rewrite !lookup_insert_ne by done. done.
Qed.

Lemma has_force_convert_after n v :
  has_attribute (add_force_convert_attribute n v) ID.force_convert = true.
Proof.
  destruct n. unfold has_attribute. cbn. rewrite lookup_insert_eq.
  apply bool_decide_eq_true_2. eauto.
Qed.

(** What the three tests of the callback can do to the state: write the
    flag of a registered wire, or register a name that was free. *)
Section VisitPreserves.
Context (P : gmap string nat * list AstNode -> Prop).
Hypothesis Hwrite : forall mem store m wv v,
  P (mem, store) -> store !! m = Some wv ->
  (v = 0 \/ has_attribute wv ID.force_convert = false) ->
  P (mem, <[m := add_force_convert_attribute wv v]> store).
Hypothesis Hregister : forall mem store name a,
  P (mem, store) -> mem !! name = None -> P (<[name := a]> mem, store).

Lemma visit_readmemh_preserves node s s' :
  P s -> visit_readmemh node s = Ok s' -> P s'.
Proof.
  destruct s as [mem store]. intros HP. unfold visit_readmemh.
  case_bool_decide; [|by intros [= <-]].
  destruct (vector_at (children node) 1) as [arg|]; [|done]. norm.
  destruct (mem !! str arg) as [m|]; [|done].
  unfold vector_at. destruct (store !! m) as [wv|] eqn:Hm; [|done]. norm.
  intros [= <-]. apply Hwrite; auto.
Qed.

Lemma visit_wire_preserves k node s s' :
  P s -> visit_wire k node s = Ok s' -> P s'.
Proof.
  destruct s as [mem store]. intros HP. unfold visit_wire.
  case_bool_decide; [|by intros [= <-]].
  destruct (_ && _)%nat; [|by intros [= <-]].
  destruct (mem !! str node) as [a|] eqn:E.
  - rewrite bool_decide_eq_true_2 by eauto. done.
  - rewrite bool_decide_eq_false_2 by (by intros [? ?]). norm.
    intros [= <-]. by apply Hregister.
Qed.

Lemma visit_identifier_preserves node s s' :
  P s -> visit_identifier node s = Ok s' -> P s'.
Proof.
  destruct s as [mem store]. intros HP. unfold visit_identifier.
  case_bool_decide; [|by intros [= <-]].
  destruct (mem !! str node) as [m|]; [|by intros [= <-]].
  unfold vector_at. destruct (store !! m) as [wv|] eqn:Hm; [|done]. norm.
  destruct (has_attribute wv ID.force_convert) eqn:Ha; cbn [negb andb];
    [by intros [= <-]|].
  destruct (length (children node) =? 0)%nat; [|by intros [= <-]].
  intros [= <-]. apply Hwrite; auto.
Qed.

Lemma check_memories_visit_preserves k s s' :
  P s -> check_memories_visit k s = Ok s' -> P s'.
Proof.
  intros HP. unfold check_memories_visit.
  destruct (vector_at s.2 k) as [node|]; [|done]. norm.
  destruct (visit_readmemh node s) as [s1|] eqn:E1; [|done]. norm.
  destruct (visit_wire k node s1) as [s2|] eqn:E2; [|done]. norm.
  intros E3.
  eauto using visit_readmemh_preserves, visit_wire_preserves,
    visit_identifier_preserves.
Qed.

End VisitPreserves.

Section CheckMemories.
Context (ds : list AstNode) (k : nat) (w : AstNode).

Lemma store_follows_write mem store m wv v :
  store_follows ds (mem, store) -> store !! m = Some wv ->
  (v = 0 \/ has_attribute wv ID.force_convert = false) ->
  store_follows ds (mem, <[m := add_force_convert_attribute wv v]> store).
Proof.
  intros Hf Hm _ a n' Ha. cbn in *.
  destruct (decide (a = m)) as [->|Hne].
  - rewrite list_lookup_insert_eq in Ha by (by eapply lookup_lt_Some).
    injection Ha as <-. destruct (Hf m wv Hm) as (n & Hn & Hv).
    exists n. split; [done|]. by apply flag_variant_after.
  - rewrite list_lookup_insert_ne in Ha by done. by apply Hf.
Qed.

Lemma store_follows_register mem store name a :
  store_follows ds (mem, store) -> mem !! name = None ->
  store_follows ds (<[name := a]> mem, store).
Proof. intros Hf _. exact Hf. Qed.

(** Once the wire at address [k] is registered under a name, it stays. *)
Lemma registered_write name (mem : gmap string nat) (store : list AstNode) m wv v :
  mem !! name = Some k -> store !! m = Some wv ->
  (v = 0 \/ has_attribute wv ID.force_convert = false) ->
  mem !! name = Some k.
Proof. done. Qed.

Lemma registered_register name (mem : gmap string nat) name' a :
  mem !! name = Some k -> mem !! name' = None -> <[name' := a]> mem !! name = Some k.
Proof. intros H H'. rewrite lookup_insert_ne; [done|]. congruence. Qed.

(** Once the flag of the wire at address [k] is 0, it stays 0. *)
Lemma flag_zero_write (store : list AstNode) m wv v :
  store !! k = Some (add_force_convert_attribute w 0) -> store !! m = Some wv ->
  (v = 0 \/ has_attribute wv ID.force_convert = false) ->
  <[m := add_force_convert_attribute wv v]> store !! k
  = Some (add_force_convert_attribute w 0).
Proof.
  intros Hk Hm Hv. destruct (decide (k = m)) as [<-|Hne].
  - rewrite list_lookup_insert_eq by (by eapply lookup_lt_Some).
    rewrite Hk in Hm. injection Hm as <-. destruct Hv as [->|Hv].
    + by rewrite add_force_convert_twice.
    + by rewrite has_force_convert_after in Hv.
  - by rewrite list_lookup_insert_ne.
Qed.

Lemma visit_identifier_memories node s s' :
  visit_identifier node s = Ok s' -> s'.1 = s.1.
Proof.
  destruct s as [mem store]. unfold visit_identifier.
  case_bool_decide; [|by intros [= <-]].
  destruct (mem !! str node) as [m|]; [|by intros [= <-]].
  destruct (vector_at store m) as [wv|]; [|done]. norm.
  destruct (_ && _); by intros [= <-].
Qed.

Hypothesis Hw : ds !! k = Some w.

(** Visiting a wire with one packed and one unpacked range registers it. *)
Lemma visit_registers s s' :
  type w = AST_WIRE ->
  length (attribute_children w ID.packed_ranges) = 1%nat ->
  length (attribute_children w ID.unpacked_ranges) = 1%nat ->
  store_follows ds s ->
  check_memories_visit k s = Ok s' ->
  s'.1 !! str w = Some k.
Proof.
  intros Ht Hp Hu Hf. unfold check_memories_visit, vector_at.
  destruct (s.2 !! k) as [node|] eqn:Hn; [|done]. norm.
  destruct (Hf k node Hn) as (w' & Hw' & Hv). rewrite Hw in Hw'. injection Hw' as <-.
  destruct (flag_variant_fields _ _ Hv) as (Hs & Hty & _ & Hpr & Hur).
  destruct (visit_readmemh node s) as [[mem1 store1]|]; [|done]. norm.
  unfold visit_wire. rewrite Hty, Hpr, Hur, Hp, Hu, Hs.
  rewrite (bool_decide_eq_true_2 _ Ht). cbn [Nat.eqb andb].
  destruct (mem1 !! str w) as [a|] eqn:E.
  - rewrite bool_decide_eq_true_2 by eauto. done.
  - rewrite bool_decide_eq_false_2 by (by intros [? ?]). norm.
    intros E3. apply visit_identifier_memories in E3. rewrite E3. cbn.
    apply lookup_insert_eq.
Qed.

(** Visiting a [$readmemh] call that names the registered wire sets the
    wire's flag to 0. *)
Lemma visit_flags j call arg s s' :
  ds !! j = Some call ->
  str call = "\$readmemh" ->
  children call !! 1%nat = Some arg ->
  str arg = str w ->
  store_follows ds s ->
  s.1 !! str w = Some k ->
  check_memories_visit j s = Ok s' ->
  s'.2 !! k = Some (add_force_convert_attribute w 0).
Proof.
  intros Hj Hs Harg Hname Hf Hreg. unfold check_memories_visit, vector_at.
  destruct (s.2 !! j) as [node|] eqn:Hn; [|done]. norm.
  destruct (Hf j node Hn) as (c' & Hc' & Hv). rewrite Hj in Hc'. injection Hc' as <-.
  destruct (flag_variant_fields _ _ Hv) as (Hstr & _ & Hch & _).
  destruct s as [mem store]. cbn in Hreg, Hn.
  unfold visit_readmemh at 1. rewrite Hstr, Hch.
  rewrite (bool_decide_eq_true_2 _ Hs). unfold vector_at. rewrite Harg. norm.
  rewrite Hname, Hreg.
  destruct (store !! k) as [wv|] eqn:Hk; [|done]. norm.
  destruct (Hf k wv Hk) as (w' & Hw' & Hvw). rewrite Hw in Hw'. injection Hw' as <-.
  rewrite (flag_variant_add _ _ 0 Hvw).
  set (P := fun s : gmap string nat * list AstNode =>
              s.2 !! k = Some (add_force_convert_attribute w 0)).
  assert (HP1 : P (mem, <[k := add_force_convert_attribute w 0]> store)).
  { unfold P. cbn. apply list_lookup_insert_eq. by eapply lookup_lt_Some. }
  assert (Hwr : forall mem store m wv v,
             P (mem, store) -> store !! m = Some wv ->
             (v = 0 \/ has_attribute wv ID.force_convert = false) ->
             P (mem, <[m := add_force_convert_attribute wv v]> store)).
  { unfold P. cbn. intros. by apply flag_zero_write. }
  assert (Hrg : forall mem store name a,
             P (mem, store) -> mem !! name = None -> P (<[name := a]> mem, store)).
  { unfold P. by cbn. }
  destruct (visit_wire j node _) as [s2|] eqn:E2; [|done]. norm.
  intros E3.
  apply (visit_identifier_preserves P Hwr node s2 s'); [|done].
  by eapply (visit_wire_preserves P Hrg j node).
Qed.

Lemma check_memories_sets_flag_zero j call arg m store' :
  ds = descendants m ->
  type w = AST_WIRE ->
  length (attribute_children w ID.packed_ranges) = 1%nat ->
  length (attribute_children w ID.unpacked_ranges) = 1%nat ->
  (k < j)%nat ->
  ds !! j = Some call ->
  str call = "\$readmemh" ->
  children call !! 1%nat = Some arg ->
  str arg = str w ->
  check_memories m = Ok store' ->
  store' !! k = Some (add_force_convert_attribute w 0).
Proof.
  intros Hds Ht Hp Hu Hkj Hj Hs Harg Hname. unfold check_memories.
  rewrite <- Hds. set (visit := fun s i => check_memories_visit i s).
  assert (Hjn : (j < length ds)%nat) by (by eapply lookup_lt_Some).
  replace (length ds) with (k + (1 + ((j - S k) + (1 + (length ds - S j)))))%nat by lia.
  rewrite !seq_app. cbn [seq].
  replace (0 + k)%nat with k by lia.
  replace (k + 1 + (j - S k))%nat with j by lia.
  (* before the declaration *)
  rewrite fold_result_app.
  destruct (fold_result visit (seq 0 k) (∅, ds)) as [sA|] eqn:EA; [|done]. norm.
  assert (HA : store_follows ds sA).
  { eapply (fold_result_invariant (store_follows ds)); [| |exact EA].
    - intros a x a' Ha Hx.
      eapply (check_memories_visit_preserves (store_follows ds));
        [apply store_follows_write | apply store_follows_register
        | exact Ha | exact Hx].
    - intros a n' Ha. exists n'. split; [done|by left]. }
  (* the declaration *)
  subst visit. cbn [app fold_result].
  destruct (check_memories_visit k sA) as [sk|] eqn:Ek; [|done]. norm.
  set (visit := fun s i => check_memories_visit i s).
  assert (Hk1 : store_follows ds sk).
  { eapply check_memories_visit_preserves; [| | exact HA | exact Ek].
    - apply store_follows_write. - apply store_follows_register. }
  pose proof (visit_registers sA sk Ht Hp Hu HA Ek) as Hk2.
  (* between the declaration and the call *)
  rewrite fold_result_app.
  destruct (fold_result visit (seq (k + 1) (j - S k)) sk) as [sB|] eqn:EB; [|done]. norm.
  assert (HB : store_follows ds sB /\ sB.1 !! str w = Some k).
  { eapply (fold_result_invariant
              (fun s => store_follows ds s /\ s.1 !! str w = Some k));
      [| |exact EB]; [|done].
    intros a x a' Ha Hx.
    eapply (check_memories_visit_preserves
              (fun s => store_follows ds s /\ s.1 !! str w = Some k));
      [| | exact Ha | exact Hx].
    - intros mem store mm wv v [H1 H2] Hm Hv. split; [|done].
      by apply store_follows_write.
    - intros mem store name a0 [H1 H2] Hn. split; [done|].
      cbn in *. by apply registered_register. }
  destruct HB as [HB1 HB2].
  (* the call *)
  subst visit. cbn [app fold_result].
  destruct (check_memories_visit j sB) as [sj|] eqn:Ej; [|done]. norm.
  set (visit := fun s i => check_memories_visit i s).
  pose proof (visit_flags j call arg sB sj Hj Hs Harg Hname HB1 HB2 Ej) as Hflag.
  (* after the call *)
  destruct (fold_result visit (seq (j + 1) (length ds - S j)) sj) as [sC|] eqn:EC;
    [|done].
  cbn [fmap result_fmap]. intros [= <-].
  eapply (fold_result_invariant
            (fun s => s.2 !! k = Some (add_force_convert_attribute w 0)));
    [| exact Hflag | exact EC].
  intros a x a' Ha Hx.
  eapply (check_memories_visit_preserves
            (fun s => s.2 !! k = Some (add_force_convert_attribute w 0)));
    [| | exact Ha | exact Hx].
  - intros. cbn in *. by apply flag_zero_write.
  - intros. by cbn in *.
Qed.

End CheckMemories.

Lemma convert_node_flag_zero w :
  type w = AST_WIRE ->
  length (attribute_children w ID.packed_ranges) = 1%nat ->
  length (attribute_children w ID.unpacked_ranges) = 1%nat ->
  is_input w = false -> is_output w = false ->
  has_attribute w ID.wiretype = false ->
  convert_node (add_force_convert_attribute w 0)
    (attribute_children (add_force_convert_attribute w 0) ID.packed_ranges)
    (attribute_children (add_force_convert_attribute w 0) ID.unpacked_ranges)
  = false.
Proof.
  intros Ht Hp Hu Hi Ho Hn.
  destruct (flag_variant_fields w (add_force_convert_attribute w 0))
    as (_ & _ & _ & -> & ->); [right; eauto|].
  unfold convert_node. rewrite Hp, Hu.
  destruct w. unfold has_attribute, is_force_convert in *. cbn in *.
  rewrite lookup_insert_ne by done. rewrite Hn, Ht, Hi, Ho.
  rewrite lookup_insert_eq. reflexivity.
Qed.

(** C10 (as amended).  A wire with exactly one packed and one unpacked
    range that is visited before a [$readmemh] call naming it leaves
    [check_memories] with its forced-conversion flag set to 0, whatever
    references follow; if moreover it is not a port and carries no named
    type, flattening leaves it unflattened and retypes it as a memory. *)
Theorem readmemh_memory_keeps_flag_zero
    (ast_simplify : AstInternal -> AstNode -> AstNode) (st : AstInternal)
    (m w call arg : AstNode) (k j : nat) (store' : list AstNode) :
  descendants m !! k = Some w ->
  type w = AST_WIRE ->
  length (attribute_children w ID.packed_ranges) = 1%nat ->
  length (attribute_children w ID.unpacked_ranges) = 1%nat ->
  (k < j)%nat ->
  descendants m !! j = Some call ->
  str call = "\$readmemh" ->
  children call !! 1%nat = Some arg ->
  str arg = str w ->
  check_memories m = Ok store' ->
  store' !! k = Some (add_force_convert_attribute w 0) /\
  (is_input w = false -> is_output w = false ->
   has_attribute w ID.wiretype = false -> first_child_is AST_WIRETYPE w = false ->
   exists mem,
     convert_packed_unpacked_range ast_simplify st (add_force_convert_attribute w 0)
       = Ok mem /\
     type mem = AST_MEMORY /\
     multirange_dimensions mem = multirange_dimensions w /\
     children mem = children w ++ attribute_children w ID.packed_ranges
                      ++ attribute_children w ID.unpacked_ranges).
Proof.
  intros Hk Ht Hp Hu Hkj Hj Hs Harg Hname Hcheck. split.
  - by eapply (check_memories_sets_flag_zero (descendants m) k w Hk j call arg m).
  - intros Hi Ho Hn Hwt.
    pose proof (convert_node_flag_zero w Ht Hp Hu Hi Ho Hn) as Hconv.
    destruct (flag_variant_fields w (add_force_convert_attribute w 0))
      as (_ & Hty & Hch & Hpr & Hur); [right; eauto|].
    assert (Hwt' : first_child_is AST_WIRETYPE (add_force_convert_attribute w 0) = false).
    { unfold first_child_is. by rewrite Hch. }
    destruct (flatten_keeps_simple ast_simplify st _ Hwt' Hconv)
      as (mem & Hmem & Hd & _ & Hc & Hm).
    exists mem. rewrite Hpr, Hur, Hch in Hc. rewrite Hpr, Hur, Hty in Hm.
    split; [done|]. split; [|split; [|done]].
    + apply Hm; try done; by destruct w.
    + rewrite Hd. by destruct w.
Qed.

Lemma readmemh_memory_keeps_flag_zero_witness :
  let w := declaration "\mem" [make_range 7 0] [make_range 0 3] in
  let m := new_AstNode AST_MODULE
             [w; readmemh_call "\mem"; whole_reference "\mem"] in
  exists store',
    check_memories m = Ok store' /\
    store' !! 0%nat = Some (add_force_convert_attribute w 0) /\
    exists mem,
      convert_packed_unpacked_range already_folded (lowering_state ∅)
        (add_force_convert_attribute w 0) = Ok mem /\
      type mem = AST_MEMORY /\
      multirange_dimensions mem = [] /\
      children mem = [make_range 7 0; make_range 0 3].
Proof.
  intros w m.
  destruct (check_memories m) as [store'|] eqn:E; [|vm_compute in E; discriminate].
  exists store'. split; [reflexivity|].
  destruct (readmemh_memory_keeps_flag_zero already_folded (lowering_state ∅)
              m w (readmemh_call "\mem")
              (set_str "\mem" (new_AstNode AST_IDENTIFIER [])) 0 1 store')
    as [Hflag Hmem]; try reflexivity; [lia | exact E |].
  split; [exact Hflag|]. apply Hmem; reflexivity.
Defined.

(** C10 as stated fails for a port: an output wire with one packed and one
    unpacked range gets the flag 0 from [check_memories] all the same, and
    flattening still converts it to a single synthetic range. *)
Lemma readmemh_port_is_flattened :
  let w := set_port false true (declaration "\mem" [make_range 7 0] [make_range 0 3]) in
  let m := new_AstNode AST_MODULE
             [w; readmemh_call "\mem"; whole_reference "\mem"] in
  match check_memories m with
  | Ok store' =>
      store' !! 0%nat = Some (add_force_convert_attribute w 0) /\
      match convert_packed_unpacked_range already_folded (lowering_state ∅)
              (add_force_convert_attribute w 0) with
      | Ok flat =>
          type flat = AST_WIRE /\
          multirange_dimensions flat = [0; 8; 0; 4] /\
          children flat = [make_range 31 0]
      | Abort _ => False
      end
  | Abort _ => False
  end.
Proof. vm_compute. repeat split; reflexivity. Qed.

(** ** Struct path expander *)

Lemma find_layout_fields fields : forall m name w,
  NoDup fields.*1 ->
  fields !! m = Some (name, w) ->
  find (fun node => bool_decide (str node = name)) (layout_fields fields)
  = Some (struct_item name (total_width (drop (S m) fields) + w - 1)
                      (total_width (drop (S m) fields))).
Proof.
  induction fields as [|[n0 w0] fields IH]; intros m name w Hnd Hm; [done|].
  apply NoDup_cons in Hnd as [Hnotin Hnd]. destruct m as [|m]; simpl in Hm.
  - injection Hm as -> ->. cbn [layout_fields find].
    change (str (struct_item name _ _)) with name.
    rewrite bool_decide_eq_true_2 by done. reflexivity.
  - cbn [layout_fields find]. change (str (struct_item n0 _ _)) with n0.
    rewrite bool_decide_eq_false_2.
    + by apply IH.
    + intros ->. apply Hnotin. apply list_elem_of_fmap.
      exists (name, w). split; [done|]. by eapply list_elem_of_lookup_2.
Qed.

(** C3.  For a struct whose fields are laid out in declared order (first
    field in the most-significant bits), the path to the field of width [w]
    at position [m] expands to the range whose low bound is the total width
    of the fields declared after it and whose high bound is [w - 1] above
    it; so the range is [w] bits wide. *)
Theorem expand_dot_field_offset (env : string -> Z) (fields : list (string * Z))
    (m : nat) (name : string) (w : Z) :
  NoDup fields.*1 ->
  fields !! m = Some (name, w) ->
  exists l r,
    expand_dot (packed_struct fields) (field_path name)
      = Ok (new_AstNode AST_RANGE [l; r]) /\
    eval env l = Some (total_width (drop (S m) fields) + w - 1) /\
    eval env r = Some (total_width (drop (S m) fields)).
Proof.
  intros Hnd Hm. cbn [field_path set_str new_AstNode str type children attributes
                      bits integer range_left range_right range_swapped is_input
                      is_output basic_prep multirange_dimensions multirange_swapped
                      id2ast expand_dot strip_backslash].
  change (strip_backslash ("\" +:+ name)) with name.
  change (children (packed_struct fields)) with (layout_fields fields).
  rewrite (find_layout_fields fields m name w Hnd Hm).
  eexists _, _. split; [reflexivity|]. split; reflexivity.
Qed.

(** The struct [{a:[7:0]; b:[3:0]}]: [.a] yields [[11:4]]. *)
Lemma expand_dot_field_offset_witness :
  exists l r,
    expand_dot (packed_struct [("a", 8); ("b", 4)]) (field_path "a")
      = Ok (new_AstNode AST_RANGE [l; r]) /\
    eval (fun _ => 0) l = Some 11 /\ eval (fun _ => 0) r = Some 4.
Proof.
  apply (expand_dot_field_offset (fun _ => 0) [("a", 8); ("b", 4)] 0 "a" 8).
  - by apply (bool_decide_unpack _).
  - reflexivity.
Defined.

(** In the same struct [.b] yields [[3:0]]. *)
Lemma expand_dot_last_field :
  eval_range (fun _ => 0)
    <$> expand_dot (packed_struct [("a", 8); ("b", 4)]) (field_path "b")
  = Ok (Some (3, 0)).
Proof. reflexivity. Qed.

(** C9.  When no field of the struct has the name the path asks for,
    [expand_dot] ends with [log_error]: no range is returned. *)
Theorem expand_dot_unknown_field (current_struct search_node : AstNode) :
  Forall (fun field => str field <> strip_backslash (str search_node))
         (children current_struct) ->
  expand_dot current_struct search_node
  = log_error ("Couldn't find search elem: "
               +:+ strip_backslash (str search_node) +:+ " in struct").
Proof.
  intros Hnone. destruct search_node as [t s cs at_ bs i rl rr rs ii io bp md ms i2].
  cbn [expand_dot str] in *.
  assert (Hfind : find (fun node => bool_decide (str node = strip_backslash s))
                       (children current_struct) = None).
  { induction Hnone as [|f fs Hf _ IH]; [done|].
    cbn [find]. by rewrite bool_decide_eq_false_2. }
  by rewrite Hfind.
Qed.

Lemma expand_dot_unknown_field_witness :
  expand_dot (packed_struct [("a", 8); ("b", 4)]) (field_path "c")
  = log_error "Couldn't find search elem: c in struct".
Proof.
  apply (expand_dot_unknown_field (packed_struct [("a", 8); ("b", 4)]) (field_path "c")).
  repeat constructor; discriminate.
Defined.

Lemma expand_dot_is_range current_struct search_node e :
  expand_dot current_struct search_node = Ok e ->
  exists l r, e = new_AstNode AST_RANGE [l; r].
Proof.
  destruct search_node as [t s cs at_ bs i rl rr rs ii io bp md ms i2].
  cbn [expand_dot].
  destruct (find _ _) as [elem|]; [|done].
  match goal with |- mbind _ ?x = _ -> _ => destruct x as [[l0 r0]|] end; [|done].
  norm.
  match goal with |- mbind _ ?x = _ -> _ => destruct x as [[sd sr]|] end; [|done].
  norm.
  match goal with |- mbind _ ?x = _ -> _ => destruct x as [[l1 r1]|] end; [|done].
  norm.
  match goal with |- mbind _ ?x = _ -> _ => destruct x as [[l2 r2]|] end; [|done].
  norm. intros [= <-]. eauto.
Qed.

(** C7.  When the access indexes the enclosing flattened declaration (the
    first child of the identifier is a range), [convert_dot] adds to both
    bounds of the expanded field range the term
    [(outer - 1 - index) * element_size], where [outer] is the width of the
    last recorded dimension of the declaration and [element_size] is the
    left bound of the struct's most-significant member plus one, that is the
    bit width of one struct element. *)
Theorem convert_dot_adds_element_offset (env : string -> Z)
    (wire_node node dot struct_node sel index el er : AstNode)
    (rest : list AstNode) (dims : list Z) (outer max_offset i a b : Z) :
  (type wire_node = AST_STRUCT /\ struct_node = wire_node) \/
  (type wire_node <> AST_STRUCT /\
   exists attr, attributes wire_node !! ID.wiretype = Some attr /\
                id2ast attr = Some struct_node) ->
  expand_dot struct_node dot = Ok (new_AstNode AST_RANGE [el; er]) ->
  children node = sel :: rest ->
  type sel = AST_RANGE ->
  children sel !! 0%nat = Some index ->
  get_max_offset struct_node = Ok max_offset ->
  multirange_dimensions wire_node = dims ++ [outer] ->
  eval env index = Some i ->
  eval env el = Some a ->
  eval env er = Some b ->
  exists l r,
    convert_dot wire_node node dot = Ok (new_AstNode AST_RANGE [l; r]) /\
    eval env l = Some (a + (outer - 1 - i) * (max_offset + 1)) /\
    eval env r = Some (b + (outer - 1 - i) * (max_offset + 1)).
Proof.
  intros Hstruct Hexp Hnode Hsel Hidx Hmax Hdims Hi Ha Hb.
  unfold convert_dot.
  assert (Hs : (if bool_decide (type wire_node = AST_STRUCT) then Ok wire_node
                else match attributes wire_node !! ID.wiretype with
                     | Some a0 =>
                         match id2ast a0 with
                         | Some s => Ok s
                         | None =>
                             Abort (AssertionFailed
                                      "wire_node->attributes[ID::wiretype]->id2ast")
                         end
                     | None => Abort (AssertionFailed "struct_node")
                     end) = Ok struct_node).
  { destruct Hstruct as [[Ht ->]|[Ht (attr & Hattr & Hid)]].
    - by rewrite bool_decide_eq_true_2.
    - rewrite bool_decide_eq_false_2 by done. by rewrite Hattr, Hid. }
  rewrite Hs. norm. rewrite Hexp. norm.
  rewrite Hnode. cbn [vector_at lookup list_lookup]. norm.
  rewrite (bool_decide_eq_true_2 _ Hsel), Hmax. norm.
  assert (Hne : dims ++ [outer] <> []) by (by destruct dims).
  rewrite Hdims, (bool_decide_eq_false_2 _ Hne). norm.
  assert (Hback : vector_at_back (dims ++ [outer]) 0 = Ok outer).
  { apply vector_at_back_reverse. by rewrite reverse_app. }
  rewrite Hback. norm. rewrite (vector_at_Some _ _ _ Hidx). norm.
  cbn [children new_AstNode vector_at lookup list_lookup]. norm.
  eexists _, _. split; [reflexivity|].
  simpl. rewrite Ha, Hb, Hi. simpl. split; f_equal; ring.
Qed.

(** [arr[2].b] for an array of four [{a:[7:0]; b:[3:0]}]: bits [[15:12]]. *)
Lemma convert_dot_adds_element_offset_witness :
  exists l r,
    convert_dot
      (set_multirange [0; 12; 0; 4] [false; false]
         (set_attributes
            {[ ID.wiretype :=
                 set_id2ast (Some (packed_struct [("a", 8); ("b", 4)]))
                            (mkconst_str "\arr") ]}
            (set_str "\arr" (new_AstNode AST_WIRE []))))
      (set_str "\arr"
         (new_AstNode AST_IDENTIFIER [index_selector 2; field_path "b"]))
      (field_path "b")
    = Ok (new_AstNode AST_RANGE [l; r]) /\
    eval (fun _ => 0) l = Some (3 + (4 - 1 - 2) * (11 + 1)) /\
    eval (fun _ => 0) r = Some (0 + (4 - 1 - 2) * (11 + 1)).
Proof.
  eapply (convert_dot_adds_element_offset (fun _ => 0) _ _ _
            (packed_struct [("a", 8); ("b", 4)]) (index_selector 2)
            (mkconst_int 2 32) (mkconst_int 3 32) (mkconst_int 0 32)
            [field_path "b"] [0; 12; 0] 4 11 2 3 0).
  - right. split; [discriminate|]. eexists. split; reflexivity.
  - reflexivity.
  - reflexivity.
  - reflexivity.
  - reflexivity.
  - reflexivity.
  - reflexivity.
  - reflexivity.
  - reflexivity.
  - reflexivity.
Defined.

(** ** Scope table *)














(** *** What [expand_dot] builds comes from the path *)







Section SimplifyScope.
Variable ast_simplify : AstInternal -> AstNode -> AstNode.
Variable x : string.





End SimplifyScope.

Lemma fold_result_invariant_in {A B} (P : A -> Prop) (f : A -> B -> result A) l :
  (forall a y a', y ∈ l -> P a -> f a y = Ok a' -> P a') ->
  forall a b, P a -> fold_result f l a = Ok b -> P b.
Proof.
  induction l as [|y l IH]; intros Hstep a b Ha H; simpl in H.
  - by injection H as <-.
  - destruct (f a y) as [a'|] eqn:E; [|done]. eapply IH; [| |exact H].
    + intros a0 y0 a0' Hy0. apply Hstep. apply elem_of_cons. by right.
    + eapply Hstep; [|exact Ha|exact E]. apply elem_of_cons. by left.
Qed.




(** What one unit's lowering hands on: the registry with the unit
    rewritten in place, and an empty scope table without elaboration
    target. *)
Lemma lower_unit_returns ast_simplify fuel name node top_nodes st lowered registry after :
  lower_unit ast_simplify fuel name node (top_nodes, st) = Ok (lowered, registry, after) ->
  registry = <[name := Some lowered]> top_nodes /\ after = mkAstInternal ∅ None.
Proof.
  unfold lower_unit.
  destruct (check_memories node) as [store|]; [|done]. norm.
  destruct (setup_current_scope _ _ st) as [st1|]; [|done]. norm.
  destruct (simplify _ _ _ _ _) as [[n2|] st2]; [|done].
  intros [= <- <- <-]. split; [|reflexivity]. by rewrite insert_insert_eq.
Qed.




(** ** Module/parameter specializer *)

Lemma string_length_app a b :
  String.length (a +:+ b) = (String.length a + String.length b)%nat.
Proof.
  induction a as [|c a IH]; [done|].
  change (String c a +:+ b) with (String c (a +:+ b)).
  cbn [String.length]. by rewrite IH.
Qed.

Section Specialization.
Variable ast_simplify : AstInternal -> AstNode -> AstNode.
Variable sha1 : string -> string.

(** With a parameter the derived name is longer than the module's name. *)
Lemma derive_module_name_fresh type_name text :
  text <> "" -> derive_module_name sha1 type_name text <> type_name.
Proof.
  intros Hne E. apply (f_equal String.length) in E. unfold derive_module_name in E.
  destruct (_ <? _)%nat.
  - rewrite !string_length_app in E. cbn in E. lia.
  - rewrite bool_decide_eq_false_2 in E by done. cbn [negb] in E.
    rewrite !string_length_app in E. cbn in E. lia.
Qed.

(** The walk over resolved assignments yields their text and leaves the
    ambient state alone. *)
Lemma collect_resolved type_name sh p assigns : forall text st,
  top_nodes sh !! type_name = Some p ->
  Forall resolved_assign assigns ->
  fold_result (collect_parameter ast_simplify type_name sh) assigns (text, st)
  = Ok (foldl (fun text a =>
                 match a with
                 | Some node =>
                     if bool_decide (type node = AST_PARAMETER) then
                       match children node with
                       | value :: _ => text +:+ parameter_text node value
                       | [] => text
                       end
                     else text
                 | None => text
                 end) text assigns, st).
Proof.
  induction assigns as [|a assigns IH]; intros text st Hp Hres; [done|].
  apply Forall_cons in Hres as [Ha Hres]. cbn [fold_result foldl].
  destruct a as [node|]; cbn [collect_parameter]; [|by apply IH].
  case_bool_decide as Ht; [|by apply IH].
  destruct (Ha Ht) as (value & rest & Hch & Hc). rewrite Hch.
  cbn [vector_at lookup list_lookup]. norm.
  rewrite (bool_decide_eq_true_2 _ Hc). cbn [negb]. norm. rewrite Hp. norm.
  rewrite Hch. cbn [vector_at lookup list_lookup]. norm. by apply IH.
Qed.

(** The first instantiation under a derived name clones the generic
    entity and registers the clone; the generic entity is left as it was. *)
Lemma instantiate_fresh type_name assigns cell sh st g generic :
  let text := parameters_text assigns in
  let name := derive_module_name sha1 type_name text in
  top_nodes sh !! type_name = Some (Some g) ->
  heap sh !! g = Some generic ->
  Forall resolved_assign assigns ->
  text <> "" ->
  (top_nodes sh !! name = None \/ top_nodes sh !! name = Some None) ->
  process_module_instance ast_simplify sha1 type_name assigns cell (sh, st)
  = Ok (mkInstanceHead (length (heap sh)) name text cell,
        mkShared (<[name := Some (length (heap sh))]> (top_nodes sh))
                 (heap sh ++ [set_str name generic])
                 (current_top_node sh),
        st).
Proof.
  intros text name Hg Hgen Hres Htext Hfree. unfold process_module_instance.
  rewrite (collect_resolved type_name sh (Some g) assigns "" st Hg Hres). norm.
  fold (parameters_text assigns). fold text. fold name.
  assert (Hname : name <> type_name) by (by apply derive_module_name_fresh).
  assert (Hlen : (g < length (heap sh))%nat) by (by eapply lookup_lt_Some).
  assert (Hfound : exists nodes,
             lookup_or_null name (top_nodes sh) = (None, nodes) /\
             nodes !! type_name = Some (Some g) /\
             <[name := Some (length (heap sh))]> nodes
             = <[name := Some (length (heap sh))]> (top_nodes sh)).
  { unfold lookup_or_null. destruct Hfree as [-> | ->].
    - eexists. split; [reflexivity|]. split.
      + by rewrite lookup_insert_ne.
      + by rewrite insert_insert_eq.
    - eexists. split; [reflexivity|]. done. }
  destruct Hfound as (nodes & -> & Hg' & Hins).
  unfold lookup_or_null. rewrite Hg'.
  rewrite (bool_decide_eq_false_2 _ Htext). cbn [negb].
  rewrite (vector_at_Some _ _ _ Hgen). norm. unfold alloc. norm.
  unfold vector_at. rewrite lookup_app_r by lia. rewrite Nat.sub_diag. cbn [lookup list_lookup].
  norm. rewrite Hins. do 3 f_equal.
  rewrite insert_app_r_alt by lia. rewrite Nat.sub_diag. reflexivity.
Qed.

(** An instantiation under a name that is already registered reuses the
    registered entity: nothing is cloned and the shared state is unchanged. *)
Lemma instantiate_registered type_name assigns cell sh st p c entity :
  let text := parameters_text assigns in
  let name := derive_module_name sha1 type_name text in
  top_nodes sh !! type_name = Some p ->
  Forall resolved_assign assigns ->
  top_nodes sh !! name = Some (Some c) ->
  heap sh !! c = Some entity ->
  str entity = name ->
  process_module_instance ast_simplify sha1 type_name assigns cell (sh, st)
  = Ok (mkInstanceHead c name text cell, sh, st).
Proof.
  intros text name Hp Hres Hc Hent Hstr. unfold process_module_instance.
  rewrite (collect_resolved type_name sh p assigns "" st Hp Hres). norm.
  fold (parameters_text assigns). fold text. fold name.
  unfold lookup_or_null. rewrite Hc. norm.
  rewrite (vector_at_Some _ _ _ Hent). norm.
  rewrite <- Hstr. replace (set_str (str entity) entity) with entity by (by destruct entity).
  rewrite list_insert_id by done. rewrite Hstr, insert_id by done.
  by destruct sh.
Qed.

End Specialization.

Section SpecializationDedup.
Variable ast_simplify : AstInternal -> AstNode -> AstNode.
Variable sha1 : string -> string.

(** Instances are told apart by their derived name only.  Take a generic
    module that is registered under [type_name], and two lists of resolved
    parameter assignments whose texts are not empty and whose derived names
    differ and are not yet registered.  Instantiating with the first list
    twice and then with the second list clones the generic module exactly
    twice: the second instance finds the first clone under the derived name
    and reuses it, the third instance gets a clone of its own under the
    other name, both clones live at addresses other than the generic
    module's, and the registration leaves the generic module as it was. *)
Lemma instantiate_by_derived_name type_name first second cell1 cell2 cell3
    sh st g generic :
  let text1 := parameters_text first in
  let text2 := parameters_text second in
  let name1 := derive_module_name sha1 type_name text1 in
  let name2 := derive_module_name sha1 type_name text2 in
  let clone1 := length (heap sh) in
  let clone2 := S (length (heap sh)) in
  top_nodes sh !! type_name = Some (Some g) ->
  heap sh !! g = Some generic ->
  Forall resolved_assign first ->
  Forall resolved_assign second ->
  text1 <> "" -> text2 <> "" ->
  name1 <> name2 ->
  top_nodes sh !! name1 = None ->
  top_nodes sh !! name2 = None ->
  exists registered,
    instantiate_each ast_simplify sha1 type_name
      [(first, cell1); (first, cell2); (second, cell3)] (sh, st)
    = Ok ([mkInstanceHead clone1 name1 text1 cell1;
           mkInstanceHead clone1 name1 text1 cell2;
           mkInstanceHead clone2 name2 text2 cell3], registered, st)
    /\ heap registered = heap sh ++ [set_str name1 generic; set_str name2 generic]
    /\ top_nodes registered
       = <[name2 := Some clone2]> (<[name1 := Some clone1]> (top_nodes sh))
    /\ heap registered !! g = Some generic
    /\ clone1 <> g /\ clone2 <> g /\ clone1 <> clone2.
Proof.
  intros text1 text2 name1 name2 clone1 clone2
    Hg Hgen Hfirst Hsecond Htext1 Htext2 Hnames Hfree1 Hfree2.
  assert (Hlen : (g < length (heap sh))%nat) by (by eapply lookup_lt_Some).
  assert (Hname1 : name1 <> type_name) by (by apply derive_module_name_fresh).
  assert (Hname2 : name2 <> type_name) by (by apply derive_module_name_fresh).
  eexists. split; [|split; [|split; [|split; [|repeat split]]]].
  - unfold instantiate_each. cbn [fold_result fst snd]. norm.
    rewrite (instantiate_fresh ast_simplify sha1 type_name first cell1 sh st g generic)
      by auto.
    norm. fold text1 name1 clone1.
    set (sh1 := mkShared _ _ _).
    rewrite (instantiate_registered ast_simplify sha1 type_name first cell2 sh1 st
               (Some g) clone1 (set_str name1 generic)); cycle 1.
    { subst sh1. cbn [top_nodes]. by rewrite lookup_insert_ne. }
    { done. }
    { subst sh1. cbn [top_nodes]. fold text1 name1. by rewrite lookup_insert_eq. }
    { subst sh1 clone1. cbn [heap]. rewrite lookup_app_r by lia.
      by rewrite Nat.sub_diag. }
    { by destruct generic. }
    norm. fold text1 name1.
    rewrite (instantiate_fresh ast_simplify sha1 type_name second cell3 sh1 st g generic);
      cycle 1.
    { subst sh1. cbn [top_nodes]. by rewrite lookup_insert_ne. }
    { subst sh1. cbn [heap]. by rewrite lookup_app_l. }
    { done. }
    { done. }
    { left. subst sh1. cbn [top_nodes]. fold text2 name2.
      by rewrite lookup_insert_ne. }
    norm. fold text2 name2. subst sh1. cbn [heap top_nodes current_top_node app].
    rewrite length_app. cbn [length]. rewrite Nat.add_1_r. fold clone2.
    reflexivity.
  - cbn [heap]. by rewrite <- app_assoc.
  - reflexivity.
  - cbn [heap]. rewrite <- app_assoc. by rewrite lookup_app_l.
  - subst clone1. lia.
  - subst clone2. lia.
  - subst clone1 clone2. lia.
Qed.

End SpecializationDedup.

(** C4 at the failing input.  The module [M] is instantiated with the
    parameter [W] given as the string ["32'd8"] and then as the 32-bit
    integer [8]: two different parameter maps, neither the default.  Both
    assignments are written [\W=32'd8], so both instances derive the name
    [$paramod\M\W=32'd8]; the second instance finds the clone of the first
    under that name and reuses it, and one specialized entity is registered
    where two with distinct names are required. *)
Theorem distinct_parameters_share_entity
    (ast_simplify : AstInternal -> AstNode -> AstNode) (sha1 : string -> string)
    (st : AstInternal) :
  let M := set_str "\M" (new_AstNode AST_MODULE [integer_parameter "\W" 4 32]) in
  let sh := mkShared {[ "\M" := Some 0%nat ]} [M] None in
  let as_string := [Some (string_parameter "\W" "32'd8")] in
  let as_integer := [Some (integer_parameter "\W" 8 32)] in
  as_string <> as_integer /\
  parameters_text as_string <> "" /\ parameters_text as_integer <> "" /\
  match instantiate_each ast_simplify sha1 "\M"
          [(as_string, 0); (as_integer, 0)] (sh, st) with
  | Ok ([one; other], registered, _) =>
      module_name one = "$paramod\M\W=32'd8" /\
      module_name other = "$paramod\M\W=32'd8" /\
      module_node one = module_node other /\
      heap registered = [M; set_str "$paramod\M\W=32'd8" M] /\
      top_nodes registered
      = <["$paramod\M\W=32'd8" := Some 1%nat]> {[ "\M" := Some 0%nat ]}
  | _ => False
  end.
Proof.
  intros M sh as_string as_integer. split; [|split; [|split]].
  - discriminate.
  - vm_compute. discriminate.
  - vm_compute. discriminate.
  - vm_compute. repeat split.
Qed.

(** ** Symbol names *)

Lemma free_of_cons c a s :
  free_of c (String a s) <-> a <> c /\ free_of c s.
Proof. unfold free_of. cbn [String.list_ascii_of_string In]. tauto. Qed.

Lemma free_of_app c a b :
  free_of c (a +:+ b) <-> free_of c a /\ free_of c b.
Proof.
  induction a as [|x a IH].
  - change ("" +:+ b) with b. unfold free_of at 2. cbn. tauto.
  - change (String x a +:+ b) with (String x (a +:+ b)).
    rewrite !free_of_cons, IH. tauto.
Qed.

Lemma find_last_of_None c s :
  find_last_of c s = None <-> free_of c s.
Proof.
  induction s as [|a s IH].
  - unfold free_of. cbn. tauto.
  - rewrite free_of_cons, <- IH. cbn [find_last_of].
    destruct (find_last_of c s) as [p|].
    + split; [done|]. by intros [_ ?].
    + destruct (Ascii.eqb_spec a c) as [->|Hne]; split; try done.
      by intros [? _].
Qed.

Lemma find_last_of_Some c s pos :
  find_last_of c s = Some pos ->
  exists front back,
    s = front +:+ String c back /\ String.length front = pos /\ free_of c back.
Proof.
  revert pos. induction s as [|a s IH]; intros pos; cbn [find_last_of]; [done|].
  destruct (find_last_of c s) as [p|] eqn:E.
  - intros [= <-]. destruct (IH p eq_refl) as (front & back & -> & <- & Hfree).
    by exists (String a front), back.
  - destruct (Ascii.eqb_spec a c) as [->|Hne]; [|done].
    intros [= <-]. exists "", s. repeat split. by apply find_last_of_None.
Qed.

Lemma substr_app front back :
  substr (front +:+ back) (String.length front) = Ok back.
Proof.
  induction front as [|a front IH]; [by destruct back|].
  change (String a front +:+ back) with (String a (front +:+ back)). exact IH.
Qed.

Lemma substr_0 s : substr s 0 = Ok s.
Proof. by destruct s. Qed.

(** What [sanitize_symbol_name] keeps of a name: the part after the last
    ['@'], behind a backslash. *)
Lemma sanitize_symbol_name_parts name :
  name <> "" ->
  exists front base,
    sanitize_symbol_name name = Ok ("\" +:+ base) /\
    free_of "@" base /\
    (name = base \/ name = front +:+ String "@" base).
Proof.
  intros Hne. unfold sanitize_symbol_name.
  rewrite (bool_decide_eq_false_2 _ Hne). cbn [negb].
  destruct (find_last_of "@" name) as [pos|] eqn:E.
  - destruct (find_last_of_Some _ _ _ E) as (front & back & -> & <- & Hfree).
    exists front, back. cbn [next_position].
    change (S (String.length front)) with (String.length (String "@" front)).
    replace (front +:+ String "@" back) with ((front +:+ "@") +:+ back).
    2:{ clear. induction front as [|a f IH]; [done|].
        change (String a f +:+ "@") with (String a (f +:+ "@")).
        change (String a (f +:+ "@") +:+ back) with (String a ((f +:+ "@") +:+ back)).
        by rewrite IH. }
    replace (String.length (String "@" front)) with (String.length (front +:+ "@")).
    2:{ rewrite string_length_app. cbn. lia. }
    rewrite substr_app. norm. repeat split; [done|]. by right.
  - exists "", name. cbn [next_position]. rewrite substr_0. norm.
    repeat split; [by apply find_last_of_None | by left].
Qed.

Lemma string_app_assoc (a b c : string) : (a +:+ b) +:+ c = a +:+ (b +:+ c).
Proof.
  induction a as [|x a IH]; [done|].
  change (String x a +:+ b) with (String x (a +:+ b)).
  change (String x (a +:+ b) +:+ c) with (String x ((a +:+ b) +:+ c)).
  by rewrite IH.
Qed.

Lemma prefix_sep s :
  String.prefix "::" s = true -> exists back, s = "::" +:+ back.
Proof.
  destruct s as [|a [|b s]]; cbn [String.prefix]; try done.
  - by destruct (ascii_dec ":" a).
  - destruct (ascii_dec ":" a) as [<-|]; [|done].
    destruct (ascii_dec ":" b) as [<-|]; [|done]. intros _. by exists s.
Qed.

Lemma string_find_sep_Some s pos :
  string_find "::" s = Some pos ->
  exists front back, s = front +:+ "::" +:+ back /\ String.length front = pos.
Proof.
  revert pos. induction s as [|a s IH]; intros pos.
  - cbn. done.
  - cbn [string_find]. destruct (String.prefix "::" (String a s)) eqn:E.
    + intros [= <-]. destruct (prefix_sep _ E) as [back ->]. by exists "", back.
    + destruct (string_find "::" s) as [p|]; [|done]. cbn. intros [= <-].
      destruct (IH p eq_refl) as (front & back & -> & <-).
      by exists (String a front), back.
Qed.

Lemma string_find_sep_free front back :
  free_of ":" front ->
  string_find "::" (front +:+ "::" +:+ back) = Some (String.length front).
Proof.
  induction front as [|a front IH]; intros Hfree.
  - change ("" +:+ "::" +:+ back) with (String ":" (String ":" back)).
    cbn [string_find String.prefix]. by destruct back.
  - apply free_of_cons in Hfree as [Hne Hfree].
    change (String a front +:+ "::" +:+ back) with (String a (front +:+ "::" +:+ back)).
    cbn [string_find String.prefix].
    destruct (ascii_dec ":" a) as [<-|_]; [done|].
    rewrite (IH Hfree). reflexivity.
Qed.

Lemma string_find_sep_none s :
  free_of ":" s -> string_find "::" s = None.
Proof.
  induction s as [|a s IH]; intros Hfree; [done|].
  apply free_of_cons in Hfree as [Hne Hfree].
  cbn [string_find String.prefix].
  destruct (ascii_dec ":" a) as [<-|_]; [done|]. by rewrite (IH Hfree).
Qed.

Lemma substr_past front c back :
  substr (front +:+ String c back) (String.length front + 1) = Ok back.
Proof.
  induction front as [|a front IH]; [by destruct back|].
  change (String a front +:+ String c back)
    with (String a (front +:+ String c back)). exact IH.
Qed.

(** [strip_package_name] cannot fail; it returns the name as it is or the
    part behind the first ["::"], behind a backslash. *)
Lemma strip_package_name_parts name :
  exists stripped,
    strip_package_name name = Ok stripped /\
    (stripped = name \/
     exists front back, name = front +:+ "::" +:+ back /\ stripped = "\" +:+ back).
Proof.
  unfold strip_package_name.
  destruct (string_find "::" name) as [pos|] eqn:E; [|by eexists; split; [|left]].
  destruct (string_find_sep_Some _ _ E) as (front & back & -> & <-).
  change ("::" +:+ back) with (String ":" (String ":" back)).
  rewrite substr_past. norm. cbn [set_front].
  eexists. split; [reflexivity|]. right. by exists front, back.
Qed.

(** X1.  [sanitize_symbol_name] turns a non-empty name into a backslash followed
    by the part of the name behind its last ['@'] (the whole name when it has
    none); what follows the backslash contains no ['@']. *)
Theorem sanitize_symbol_name_drops_library (name : string) :
  name <> "" ->
  exists base,
    sanitize_symbol_name name = Ok ("\" +:+ base) /\
    free_of "@" base /\
    (name = base \/ exists front, name = front +:+ "@" +:+ base).
Proof.
  intros Hne. destruct (sanitize_symbol_name_parts name Hne)
    as (front & base & Hs & Hfree & Hname).
  exists base. repeat split; [done..|].
  destruct Hname as [?|?]; [by left|right; by exists front].
Qed.

Lemma sanitize_symbol_name_drops_library_witness :
  exists base,
    sanitize_symbol_name "work@top" = Ok ("\" +:+ base) /\
    free_of "@" base /\
    ("work@top" = base \/ exists front, "work@top" = front +:+ "@" +:+ base).
Proof. apply (sanitize_symbol_name_drops_library "work@top"). discriminate. Defined.

(** X2.  A name without [':'] is left as it is by [strip_package_name]; when
    such a prefix is followed by ["::"] and more text, everything up to and
    including the first ["::"] is replaced by one backslash, and the rest,
    further qualifiers included, is kept. *)
Theorem strip_package_name_first_qualifier (pkg rest : string) :
  free_of ":" pkg ->
  strip_package_name pkg = Ok pkg /\
  strip_package_name (pkg +:+ "::" +:+ rest) = Ok ("\" +:+ rest).
Proof.
  intros Hfree. unfold strip_package_name. split.
  - by rewrite string_find_sep_none.
  - rewrite string_find_sep_free by done.
    change ("::" +:+ rest) with (String ":" (String ":" rest)).
    rewrite substr_past. reflexivity.
Qed.

Lemma strip_package_name_first_qualifier_witness :
  strip_package_name "\pkg" = Ok "\pkg" /\
  strip_package_name ("\pkg" +:+ "::" +:+ "inner::x") = Ok ("\" +:+ "inner::x").
Proof.
  apply (strip_package_name_first_qualifier "\pkg" "inner::x").
  unfold free_of. cbn. intros H. repeat destruct H as [H|H]; try discriminate H. done.
Defined.

(** X3.  [get_name] never fails, and the name it returns is empty or a backslash
    followed by text that contains neither ['.'] nor ['@']: of a hierarchical,
    library-qualified name only the last component is kept. *)
Theorem get_name_is_flat (obj_h : vpiHandle) (prefer_full_name : bool) :
  exists name,
    get_name obj_h prefer_full_name = Ok name /\
    (name = "" \/
     exists base, name = "\" +:+ base /\ free_of "." base /\ free_of "@" base).
Proof.
  unfold get_name.
  set (name0 := match vpi_get_str _ obj_h with Some s => s | None => _ end).
  assert (Hdot : exists name1,
             (match find_last_of "." name0 with
              | Some pos => substr name0 (pos + 1)
              | None => Ok name0
              end) = Ok name1 /\ free_of "." name1).
  { destruct (find_last_of "." name0) as [pos|] eqn:E.
    - destruct (find_last_of_Some _ _ _ E) as (front & back & -> & <- & Hfree).
      exists back. by rewrite substr_past.
    - exists name0. split; [done|]. by apply find_last_of_None. }
  destruct Hdot as (name1 & -> & Hfree). norm.
  destruct (decide (name1 = "")) as [->|Hne].
  - exists "". split; [reflexivity|by left].
  - destruct (sanitize_symbol_name_parts name1 Hne)
      as (front & base & -> & Hat & Hname).
    eexists. split; [reflexivity|]. right. exists base. repeat split; [|done].
    destruct Hname as [<- | ->]; [done|].
    apply free_of_app in Hfree as [_ Hfree]. by apply free_of_cons in Hfree as [_ ?].
Qed.

Lemma symbol_name_sanitize name :
  exists sanitized, sanitize_symbol_name name = Ok sanitized /\ symbol_name sanitized.
Proof.
  destruct (decide (name = "")) as [->|Hne].
  - exists "". split; [reflexivity|by left].
  - destruct (sanitize_symbol_name_parts name Hne) as (front & base & -> & Hat & _).
    eexists. split; [reflexivity|]. right. by exists base.
Qed.

Lemma symbol_name_strip name :
  symbol_name name ->
  exists stripped, strip_package_name name = Ok stripped /\ symbol_name stripped.
Proof.
  intros Hsym. destruct (strip_package_name_parts name)
    as (stripped & -> & [-> | (front & back & -> & ->)]).
  - by exists name.
  - eexists. split; [reflexivity|]. right. exists back. split; [done|].
    destruct Hsym as [E|(base & E & Hfree)].
    + by destruct front.
    + assert (H : free_of "@" (front +:+ "::" +:+ back)).
      { rewrite E. apply free_of_cons. split; [discriminate|done]. }
      apply free_of_app in H as [_ H]. by apply free_of_app in H as [_ H].
Qed.

(** X4.  For an object that has a definition name, the two names
    [process_module] works with (definition name and instance name, sanitized
    and then stripped of a package prefix) are computed without failure, and
    each is empty or a backslash followed by text without ['@']. *)
Theorem module_names_are_symbols (obj_h : vpiHandle) (def_name : string) :
  vpi_get_str vpiDefName obj_h = Some def_name ->
  exists type_name name is_module_instance,
    module_names obj_h = Ok (type_name, name, is_module_instance) /\
    symbol_name type_name /\ symbol_name name.
Proof.
  intros Hdef. unfold module_names. rewrite Hdef. norm.
  set (name := match vpi_get_str vpiName obj_h with Some s => s | None => _ end).
  destruct (symbol_name_sanitize def_name) as (t1 & -> & Ht1).
  destruct (symbol_name_sanitize name) as (n1 & -> & Hn1). norm.
  destruct (symbol_name_strip t1 Ht1) as (t2 & -> & Ht2).
  destruct (symbol_name_strip n1 Hn1) as (n2 & -> & Hn2). norm.
  by eexists _, _, _.
Qed.

Lemma module_names_are_symbols_witness :
  exists type_name name is_module_instance,
    module_names (fun property =>
                    match property with
                    | vpiDefName => Some "work@pkg::M"
                    | vpiName => Some "u1"
                    | vpiFullName => None
                    end)
    = Ok (type_name, name, is_module_instance) /\
    symbol_name type_name /\ symbol_name name.
Proof.
  apply (module_names_are_symbols _ "work@pkg::M"). reflexivity.
Defined.

(** ** Children of a module *)

Ltac bind_case :=
  match goal with
  | |- mbind _ ?x = _ -> _ => destruct x eqn:?; [norm | done]
  end.

Section CopyFields.
Context (existing child : Child).

Lemma copy_port_direction_fields :
  let copied := copy_port_direction existing child in
  str (ast copied) = str (ast child) /\
  children (ast copied) = children (ast child) /\
  attributes (ast copied) = attributes (ast child).
Proof.
  unfold copy_port_direction.
  destruct (is_input (ast existing) || is_output (ast existing)); [|done].
  cbn [ast]. case_bool_decide; by destruct (ast child).
Qed.

Lemma copy_grandchildren_loop (gs : list AstNode) : forall c : Child,
  let copied := foldl push_grandchild c gs in
  str (ast copied) = str (ast c) /\
  type (ast copied) = type (ast c) /\
  is_input (ast copied) = is_input (ast c) /\
  is_output (ast copied) = is_output (ast c) /\
  attributes (ast copied) = attributes (ast c) /\
  port_id copied = port_id c /\
  children (ast copied) = children (ast c) ++ gs.
Proof.
  induction gs as [|g gs IH]; intros c; cbn [foldl].
  - by rewrite app_nil_r.
  - destruct (IH (push_grandchild c g)) as (H1 & H2 & H3 & H4 & H5 & H6 & H7).
    cbn zeta in *. rewrite H1, H2, H3, H4, H5, H6, H7.
    unfold push_grandchild. cbn [ast port_id].
    destruct (ast c); cbn. by rewrite <- app_assoc.
Qed.

Lemma copy_grandchildren_fields :
  let copied := copy_grandchildren existing child in
  str (ast copied) = str (ast child) /\
  type (ast copied) = type (ast child) /\
  is_input (ast copied) = is_input (ast child) /\
  is_output (ast copied) = is_output (ast child) /\
  attributes (ast copied) = attributes (ast child) /\
  port_id copied = port_id child /\
  children (ast copied)
  = if bool_decide (children (ast child) = []) then children (ast existing)
    else children (ast child).
Proof.
  unfold copy_grandchildren.
  destruct (bool_decide (children (ast existing) = [])) eqn:Ee;
    destruct (bool_decide (children (ast child) = [])) eqn:Ec; cbn [negb andb];
    try done.
  - apply bool_decide_eq_true in Ee, Ec. rewrite Ee, Ec. done.
  - apply bool_decide_eq_true in Ec.
    destruct (copy_grandchildren_loop (children (ast existing)) child)
      as (H1 & H2 & H3 & H4 & H5 & H6 & H7).
    repeat split; try done. cbn zeta in H7. by rewrite H7, Ec.
Qed.

Lemma copy_ranges_fields k :
  let copied := copy_ranges k existing child in
  str (ast copied) = str (ast child) /\
  type (ast copied) = type (ast child) /\
  is_input (ast copied) = is_input (ast child) /\
  is_output (ast copied) = is_output (ast child) /\
  children (ast copied) = children (ast child) /\
  port_id copied = port_id child.
Proof.
  unfold copy_ranges.
  destruct (attributes (ast existing) !! k) as [e|]; [|done].
  destruct (attributes (ast child) !! k) as [c|]; [|done].
  destruct (_ && _); [|done]. cbn [ast port_id]. by destruct (ast child).
Qed.

End CopyFields.

(** The child that takes the place of [existing]. *)
Lemma replacement_fields existing child :
  let replaced :=
    copy_ranges ID.unpacked_ranges existing
      (copy_ranges ID.packed_ranges existing
         (copy_grandchildren existing (copy_port_direction existing child))) in
  str (ast replaced) = str (ast child) /\
  children (ast replaced)
  = (if bool_decide (children (ast child) = []) then children (ast existing)
     else children (ast child)) /\
  (is_input (ast existing) || is_output (ast existing) = true ->
   is_input (ast replaced) = is_input (ast existing) /\
   is_output (ast replaced) = is_output (ast existing) /\
   port_id replaced = port_id existing /\
   type (ast replaced) <> AST_MEMORY).
Proof.
  intros replaced. subst replaced.
  set (c1 := copy_port_direction existing child).
  set (c2 := copy_grandchildren existing c1).
  set (c3 := copy_ranges ID.packed_ranges existing c2).
  destruct (copy_port_direction_fields existing child) as (P1 & P2 & P3).
  destruct (copy_grandchildren_fields existing c1) as (G1 & G2 & G3 & G4 & G5 & G6 & G7).
  destruct (copy_ranges_fields existing c2 ID.packed_ranges)
    as (R1 & R2 & R3 & R4 & R5 & R6).
  destruct (copy_ranges_fields existing c3 ID.unpacked_ranges)
    as (U1 & U2 & U3 & U4 & U5 & U6).
  fold c1 in P1, P2, P3. fold c2 in G1, G2, G3, G4, G5, G6, G7.
  fold c3 in R1, R2, R3, R4, R5, R6.
  split; [congruence|]. split.
  - rewrite U5, R5, G7, P2. reflexivity.
  - intros Hport. rewrite U3, U4, U6, U2, R3, R4, R6, R2, G3, G4, G6, G2.
    subst c1. unfold copy_port_direction. rewrite Hport. cbn [ast port_id].
    clear. generalize (ast child). intros n.
    destruct n as [t s cs at_ bs i rl rr rs ii io bp md ms i2]. cbn.
    case_bool_decide as Hm; cbn; [done|]. repeat split. exact Hm.
Qed.

Lemma child_names_insert parent it existing replaced :
  parent !! it = Some existing ->
  str (ast replaced) = str (ast existing) ->
  child_names (<[it := replaced]> parent) = child_names parent.
Proof.
  intros Hit Hstr. unfold child_names. rewrite list_fmap_insert, Hstr.
  rewrite list_insert_id; [done|]. by rewrite list_lookup_fmap, Hit.
Qed.

Lemma child_names_app parent child :
  child_names (parent ++ [child])
  = child_names parent ++ (if bool_decide (str (ast child) = "") then []
                           else [str (ast child)]).
Proof.
  unfold child_names. rewrite fmap_app, filter_app. f_equal.
  cbn [fmap list_fmap]. rewrite filter_cons, filter_nil.
  case_bool_decide; by case_decide.
Qed.

Lemma child_names_unnamed parent i child :
  str (ast child) = "" ->
  child_names (take i parent ++ child :: drop i parent) = child_names parent.
Proof.
  intros Hstr. unfold child_names.
  rewrite <- (take_drop i parent) at 3.
  rewrite !fmap_app, !filter_app. f_equal.
  cbn [fmap list_fmap]. rewrite filter_cons, Hstr. by case_decide.
Qed.

(** X5.  [add_or_replace_child] keeps the named children of the parent distinct
    by name: if no two named children shared a name before the call, none do
    after it, and a named child is among the children afterwards. *)
Theorem add_or_replace_child_unique_names (parent parent' : list Child)
    (child : Child) :
  add_or_replace_child parent child = Ok parent' ->
  NoDup (child_names parent) ->
  NoDup (child_names parent') /\
  (str (ast child) <> "" -> str (ast child) ∈ child_names parent').
Proof.
  unfold add_or_replace_child. intros Hrun Hnd. revert Hrun.
  destruct (bool_decide (str (ast child) = "")) eqn:Hnamed; cbn [negb].
  - apply bool_decide_eq_true in Hnamed.
    destruct (bool_decide (type (ast child) = AST_INITIAL)).
    + destruct (list_find _ parent) as [[it initial_node]|] eqn:Hfind.
      * apply list_find_Some in Hfind as (Hit & _ & _).
        do 6 bind_case.
        intros [= <-]. split; [|done].
        rewrite (child_names_insert parent it initial_node); [done..|].
        cbn [ast]. by destruct (ast initial_node).
      * intros [= <-]. split; [|done]. unfold insert_before.
        clear Hfind. destruct (list_find _ parent) as [[i a]|].
        -- by rewrite child_names_unnamed.
        -- rewrite child_names_app, bool_decide_eq_true_2 by done.
           by rewrite app_nil_r.
    + intros [= <-]. split; [|done].
      rewrite child_names_app, bool_decide_eq_true_2 by done.
      by rewrite app_nil_r.
  - apply bool_decide_eq_false in Hnamed.
    destruct (list_find _ parent) as [[it existing]|] eqn:Hfind.
    + apply list_find_Some in Hfind as (Hit & Hsame & _).
      intros [= <-].
      destruct (replacement_fields existing child) as (Hstr & _).
      rewrite (child_names_insert parent it existing); [| done | by rewrite Hstr].
      split; [done|]. intros _. unfold child_names.
      apply list_elem_of_filter. split; [done|].
      apply list_elem_of_fmap. exists existing. split; [done|].
      by eapply list_elem_of_lookup_2.
    + apply list_find_None in Hfind. intros [= <-].
      rewrite child_names_app, bool_decide_eq_false_2 by done. split.
      * apply NoDup_app. split; [done|]. split; [|apply NoDup_singleton].
        intros name Hin Hin'. apply list_elem_of_singleton in Hin'. subst name.
        apply list_elem_of_filter in Hin as [_ Hin].
        apply list_elem_of_fmap in Hin as (c & Hc & Hin).
        rewrite Forall_forall in Hfind. by apply (Hfind c Hin).
      * intros _. apply elem_of_app. right. by apply list_elem_of_singleton.
Qed.

Lemma add_or_replace_child_unique_names_witness :
  let parent := [plain_child (set_str "\a" (new_AstNode AST_WIRE []));
                 plain_child (set_str "\b" (new_AstNode AST_WIRE [make_range 7 0]))] in
  let child := plain_child (set_str "\b" (new_AstNode AST_WIRE [])) in
  let parent' := [plain_child (set_str "\a" (new_AstNode AST_WIRE []));
                  plain_child (set_str "\b" (new_AstNode AST_WIRE [make_range 7 0]))] in
  NoDup (child_names parent') /\
  (str (ast child) <> "" -> str (ast child) ∈ child_names parent').
Proof.
  intros parent child parent'.
  apply (add_or_replace_child_unique_names parent parent' child).
  - reflexivity.
  - by apply (bool_decide_unpack _).
Defined.

Lemma add_or_replace_child_named parent child it existing :
  str (ast child) <> "" ->
  parent !! it = Some existing ->
  str (ast existing) = str (ast child) ->
  (forall j other, parent !! j = Some other -> (j < it)%nat ->
                   str (ast other) <> str (ast child)) ->
  add_or_replace_child parent child
  = Ok (<[it := copy_ranges ID.unpacked_ranges existing
                  (copy_ranges ID.packed_ranges existing
                     (copy_grandchildren existing
                        (copy_port_direction existing child)))]> parent).
Proof.
  intros Hnamed Hit Hsame Hfirst. unfold add_or_replace_child.
  rewrite (bool_decide_eq_false_2 _ Hnamed). cbn [negb].
  assert (Hfind : list_find (fun existing_child : Child =>
                               str (ast existing_child) = str (ast child)) parent
                  = Some (it, existing)).
  { apply list_find_Some. eauto. }
  by rewrite Hfind.
Qed.

(** X6.  A named child whose name is already present takes the place of the
    first child of that name, all other children staying where they are; it
    keeps its name, and when it has no children of its own it receives those
    of the child it replaces. *)
Theorem add_or_replace_child_replaces_in_place (parent : list Child)
    (child existing : Child) (it : nat) :
  str (ast child) <> "" ->
  parent !! it = Some existing ->
  str (ast existing) = str (ast child) ->
  (forall j other, parent !! j = Some other -> (j < it)%nat ->
                   str (ast other) <> str (ast child)) ->
  exists replaced,
    add_or_replace_child parent child = Ok (<[it := replaced]> parent) /\
    str (ast replaced) = str (ast child) /\
    children (ast replaced)
    = if bool_decide (children (ast child) = []) then children (ast existing)
      else children (ast child).
Proof.
  intros Hnamed Hit Hsame Hfirst.
  eexists. split; [by apply add_or_replace_child_named|].
  destruct (replacement_fields existing child) as (Hstr & Hch & _). done.
Qed.

Lemma add_or_replace_child_replaces_in_place_witness :
  let a := plain_child (set_str "\a" (new_AstNode AST_WIRE [])) in
  let b := plain_child (set_str "\b" (new_AstNode AST_WIRE [make_range 7 0])) in
  let child := plain_child (set_str "\b" (new_AstNode AST_WIRE [])) in
  exists replaced,
    add_or_replace_child [a; b] child = Ok (<[1%nat := replaced]> [a; b]) /\
    str (ast replaced) = str (ast child) /\
    children (ast replaced)
    = if bool_decide (children (ast child) = []) then children (ast b)
      else children (ast child).
Proof.
  intros a b child.
  apply (add_or_replace_child_replaces_in_place [a; b] child b 1).
  - discriminate.
  - reflexivity.
  - reflexivity.
  - intros [|[|j]] other Hj Hlt; [|lia..]. injection Hj as <-. discriminate.
Defined.

(** X7.  When the replaced child is a port, the child that takes its place has
    the same direction and the same port id, and it is never left with the
    type [AST_MEMORY]. *)
Theorem add_or_replace_child_keeps_port (parent : list Child)
    (child existing : Child) (it : nat) :
  str (ast child) <> "" ->
  parent !! it = Some existing ->
  str (ast existing) = str (ast child) ->
  (forall j other, parent !! j = Some other -> (j < it)%nat ->
                   str (ast other) <> str (ast child)) ->
  is_input (ast existing) || is_output (ast existing) = true ->
  exists replaced,
    add_or_replace_child parent child = Ok (<[it := replaced]> parent) /\
    is_input (ast replaced) = is_input (ast existing) /\
    is_output (ast replaced) = is_output (ast existing) /\
    port_id replaced = port_id existing /\
    type (ast replaced) <> AST_MEMORY.
Proof.
  intros Hnamed Hit Hsame Hfirst Hport.
  eexists. split; [by apply add_or_replace_child_named|].
  destruct (replacement_fields existing child) as (_ & _ & Hp). by apply Hp.
Qed.

Lemma add_or_replace_child_keeps_port_witness :
  let port := mkChild (set_port false true (set_str "\q" (new_AstNode AST_WIRE []))) 3 false in
  let child := plain_child (set_str "\q" (new_AstNode AST_MEMORY
                                            [make_range 7 0; make_range 0 3])) in
  exists replaced,
    add_or_replace_child [port] child = Ok (<[0%nat := replaced]> [port]) /\
    is_input (ast replaced) = is_input (ast port) /\
    is_output (ast replaced) = is_output (ast port) /\
    port_id replaced = port_id port /\
    type (ast replaced) <> AST_MEMORY.
Proof.
  intros port child.
  apply (add_or_replace_child_keeps_port [port] child port 0).
  - discriminate.
  - reflexivity.
  - reflexivity.
  - intros j other _ Hlt. lia.
  - reflexivity.
Defined.

Lemma filter_insert_length {A} (P : A -> Prop) `{forall x, Decision (P x)}
    (l : list A) i x y :
  l !! i = Some x -> (P x <-> P y) ->
  length (filter P (<[i := y]> l)) = length (filter P l).
Proof.
  intros Hi Hxy.
  rewrite insert_take_drop by (by eapply lookup_lt_Some).
  rewrite <- (take_drop_middle l i x Hi) at 3.
  rewrite !filter_app, !length_app, !filter_cons.
  destruct (decide (P y)) as [Hy|Hy], (decide (P x)) as [Hx|Hx]; tauto || done.
Qed.

(** X8.  Adding an unnamed [AST_INITIAL] never adds a second initial node: after
    a successful call the parent has as many [AST_INITIAL] children as before,
    or one if it had none. *)
Theorem add_or_replace_child_single_initial (parent parent' : list Child)
    (child : Child) :
  str (ast child) = "" ->
  type (ast child) = AST_INITIAL ->
  add_or_replace_child parent child = Ok parent' ->
  length (initial_nodes parent') = Nat.max 1 (length (initial_nodes parent)).
Proof.
  intros Hstr Htype. unfold add_or_replace_child.
  rewrite (bool_decide_eq_true_2 _ Hstr), (bool_decide_eq_true_2 _ Htype).
  cbn [negb].
  destruct (list_find _ parent) as [[it initial_node]|] eqn:Hfind.
  - apply list_find_Some in Hfind as (Hit & Hini & _).
    do 6 bind_case. intros [= <-]. unfold initial_nodes.
    rewrite (filter_insert_length _ parent it initial_node) by
      (try done; cbn [ast]; by destruct (ast initial_node)).
    assert (Hin : initial_node ∈ filter (fun node : Child => type (ast node) = AST_INITIAL)
                                   parent).
    { apply list_elem_of_filter. split; [done|]. by eapply list_elem_of_lookup_2. }
    destruct (filter _ parent); [by apply elem_of_nil in Hin|]. cbn [length]. lia.
  - apply list_find_None in Hfind. intros [= <-]. unfold initial_nodes.
    assert (Hnone : forall l : list Child,
               Forall (fun node => type (ast node) <> AST_INITIAL) l ->
               filter (fun node : Child => type (ast node) = AST_INITIAL) l = []).
    { induction 1 as [|c l Hc _ IH]; [done|]. rewrite filter_cons.
      by destruct (decide (type (ast c) = AST_INITIAL)). }
    rewrite (Hnone parent Hfind). unfold insert_before.
    match goal with |- context [list_find ?P parent] =>
      destruct (list_find P parent) as [[i a]|] end.
    + rewrite filter_app, filter_cons.
      destruct (decide (type (ast child) = AST_INITIAL)); [|done].
      rewrite (Hnone (take i parent)), (Hnone (drop i parent)); [done|..].
      * by apply Forall_drop.
      * by apply Forall_take.
    + rewrite filter_app, (Hnone parent Hfind), filter_cons.
      by destruct (decide (type (ast child) = AST_INITIAL)).
Qed.

Lemma add_or_replace_child_single_initial_witness :
  let block := new_AstNode AST_BLOCK [] in
  let parent := [plain_child (set_str "\a" (new_AstNode AST_WIRE []));
                 plain_child (new_AstNode AST_INITIAL [block])] in
  let child := plain_child (new_AstNode AST_INITIAL
                              [new_AstNode AST_BLOCK [new_AstNode AST_ASSIGN []]]) in
  let parent' := [plain_child (set_str "\a" (new_AstNode AST_WIRE []));
                  plain_child (new_AstNode AST_INITIAL
                                 [new_AstNode AST_BLOCK [new_AstNode AST_ASSIGN []]])] in
  length (initial_nodes parent') = Nat.max 1 (length (initial_nodes parent)).
Proof.
  intros block parent child parent'.
  apply (add_or_replace_child_single_initial parent parent' child); reflexivity.
Defined.

(** X9.  When the parent has no [AST_INITIAL] child, an unnamed [AST_INITIAL] is
    inserted immediately before the first [AST_ALWAYS] child, or at the end
    when there is none: no [AST_ALWAYS] child precedes it. *)
Theorem add_or_replace_child_initial_before_always (parent : list Child)
    (child : Child) :
  str (ast child) = "" ->
  type (ast child) = AST_INITIAL ->
  Forall (fun node => type (ast node) <> AST_INITIAL) parent ->
  exists before after,
    parent = before ++ after /\
    add_or_replace_child parent child = Ok (before ++ child :: after) /\
    Forall (fun node => type (ast node) <> AST_ALWAYS) before /\
    (after = [] \/ exists always rest,
        after = always :: rest /\ type (ast always) = AST_ALWAYS).
Proof.
  intros Hstr Htype Hnone. unfold add_or_replace_child.
  rewrite (bool_decide_eq_true_2 _ Hstr), (bool_decide_eq_true_2 _ Htype).
  cbn [negb].
  assert (Hfind : list_find (fun node : Child => type (ast node) = AST_INITIAL) parent
                  = None) by (by apply list_find_None).
  rewrite Hfind. clear Hfind. unfold insert_before.
  destruct (list_find _ parent) as [[i a]|] eqn:Ha.
  - apply list_find_Some in Ha as (Hi & Hty & Hbefore).
    exists (take i parent), (drop i parent). split; [by rewrite take_drop|].
    split; [done|]. split.
    + apply Forall_forall. intros c Hc.
      apply list_elem_of_lookup in Hc as [j Hj].
      pose proof (lookup_lt_Some _ _ _ Hj) as Hlt. rewrite length_take in Hlt.
      rewrite lookup_take_lt in Hj by lia. apply (Hbefore j c Hj). lia.
    + right. exists a, (drop (S i) parent). split; [|done]. by apply drop_S.
  - apply list_find_None in Ha. exists parent, []. rewrite app_nil_r.
    split; [done|]. split; [done|]. split; [done|by left].
Qed.

Lemma add_or_replace_child_initial_before_always_witness :
  let parent := [plain_child (set_str "\a" (new_AstNode AST_WIRE []));
                 plain_child (new_AstNode AST_ALWAYS []);
                 plain_child (new_AstNode AST_ALWAYS [])] in
  let child := plain_child (new_AstNode AST_INITIAL [new_AstNode AST_BLOCK []]) in
  exists before after,
    parent = before ++ after /\
    add_or_replace_child parent child = Ok (before ++ child :: after) /\
    Forall (fun node => type (ast node) <> AST_ALWAYS) before /\
    (after = [] \/ exists always rest,
        after = always :: rest /\ type (ast always) = AST_ALWAYS).
Proof.
  intros parent child.
  apply (add_or_replace_child_initial_before_always parent child).
  - reflexivity.
  - reflexivity.
  - repeat constructor; discriminate.
Defined.

(** ** Enclosing nodes *)

(** X10.  [find_ancestor] returns the node under construction of the nearest
    walker, starting with the walker itself, whose type is one of the wanted
    types; it returns the null pointer exactly when no enclosing node under
    construction has such a type. *)
Theorem find_ancestor_nearest (types : list AstNodeType) :
  forall walker : UhdmAst,
  match find_ancestor types walker with
  | Some node =>
      exists i,
        enclosing walker !! i = Some (Some node) /\
        type node ∈ types /\
        forall j other, (j < i)%nat -> enclosing walker !! j = Some (Some other) ->
                        type other ∉ types
  | None =>
      forall j other, enclosing walker !! j = Some (Some other) -> type other ∉ types
  end.
Proof.
  fix IH 1. intros [current up]. cbn [find_ancestor enclosing].
  set (next := match up with
               | Some searched_node => find_ancestor types searched_node
               | None => None
               end).
  set (rest := match up with
               | Some walker => enclosing walker
               | None => []
               end).
  assert (Hnext : match next with
                  | Some node =>
                      exists i,
                        rest !! i = Some (Some node) /\ type node ∈ types /\
                        forall j other, (j < i)%nat -> rest !! j = Some (Some other) ->
                                        type other ∉ types
                  | None =>
                      forall j other, rest !! j = Some (Some other) -> type other ∉ types
                  end).
  { subst next rest. destruct up as [w|]; [apply IH|]. by intros j other. }
  clearbody next rest. clear IH.
  assert (Hskip : (forall other, current = Some other -> type other ∉ types) ->
            match next with
            | Some node =>
                exists i,
                  (current :: rest) !! i = Some (Some node) /\ type node ∈ types /\
                  forall j other, (j < i)%nat ->
                                  (current :: rest) !! j = Some (Some other) ->
                                  type other ∉ types
            | None =>
                forall j other, (current :: rest) !! j = Some (Some other) ->
                                type other ∉ types
            end).
  { intros Hcur. destruct next as [node|].
    - destruct Hnext as (i & Hi & Hin & Hbefore). exists (S i).
      split; [done|]. split; [done|]. intros [|j] other Hj Hl.
      + cbn in Hl. injection Hl as ->. by apply Hcur.
      + apply (Hbefore j other); [lia|done].
    - intros [|j] other Hl.
      + cbn in Hl. injection Hl as ->. by apply Hcur.
      + by apply (Hnext j other). }
  destruct current as [node|].
  - case_bool_decide as Hin.
    + exists 0%nat. split; [done|]. split; [done|]. intros j other Hj. lia.
    + apply Hskip. by intros other [= <-].
  - apply Hskip. by intros other.
Qed.

(** ** Partial selection and over-indexing *)

Lemma flat_offset_nil ds : flat_offset ds [] = 0.
Proof. by destruct ds. Qed.

Section ConvertSlice.
Context (st : AstInternal) (id wire : AstNode) (packed unpacked : list AstNode).
Context (ds : list Dimension) (xs : list Z) (env : string -> Z).
Hypothesis Hmod : is_Some (current_ast_mod st).
Hypothesis Hscope : current_scope st !! str id = Some wire.
Hypothesis Hdims : multirange_dimensions wire = dimension_table (reverse ds).
Hypothesis Hsw : multirange_swapped wire = swapped_table (reverse ds).
Hypothesis Hcount : (length unpacked + length packed = length ds)%nat.
Hypothesis Hsel : Forall2 selects (children id) xs.
Hypothesis Hlen : (length xs <= length ds)%nat.
Hypothesis Hpos : Forall (fun d => 0 < dim_elem d) ds.
Hypothesis Hfit : list_product (dim_elem <$> ds) < 2 ^ 31.

(** From selector [i] on, the rewritten range starts at the offset of the
    remaining indices and spans the dimensions that are not indexed. *)
Lemma convert_range_rec_slice k : forall i fuel,
  (i + k = length xs)%nat -> (1 <= k)%nat -> (k <= fuel)%nat ->
  exists l h,
    convert_range_rec fuel st id packed unpacked i
      = Ok (new_AstNode AST_RANGE [l; h]) /\
    eval env h = Some (flat_offset (drop i ds) (drop i xs)) /\
    eval env l = Some (flat_offset (drop i ds) (drop i xs)
                       + list_product (dim_elem <$> drop (length xs) ds) - 1).
Proof.
  assert (Hn : length (children id) = length xs) by (by apply Forall2_length in Hsel).
  induction k as [|k IH]; intros i fuel Hik Hk Hfuel; [lia|].
  destruct fuel as [|fuel]; [lia|].
  assert (Hi : (i < length ds)%nat) by lia.
  destruct (lookup_lt_is_Some_2 ds i Hi) as [d Hd].
  destruct (lookup_lt_is_Some_2 xs i ltac:(lia)) as [x Hx].
  destruct (lookup_lt_is_Some_2 (children id) i ltac:(lia)) as [sel Hs].
  assert (Hselx : selects sel x) by (eapply Forall2_lookup_lr; eauto).
  destruct Hselx as (c & Hc & Hct & Hcx).
  assert (Hdrop : drop i ds = d :: drop (S i) ds) by (by apply drop_S).
  assert (Hdropx : drop i xs = x :: drop (S i) xs) by (by apply drop_S).
  assert (Hne : multirange_dimensions wire <> []).
  { rewrite Hdims. intros E. apply (f_equal length) in E.
    rewrite dimension_table_length, length_reverse in E. simpl in E. lia. }
  assert (Hsne : multirange_swapped wire <> []).
  { rewrite Hsw. intros E. apply (f_equal length) in E.
    unfold swapped_table in E. rewrite length_fmap, length_reverse in E.
    simpl in E. lia. }
  assert (Hcne : children id <> []).
  { intros E. rewrite E in Hs. done. }
  destruct (dimension_table_back ds i d Hd) as [Hhi Hlo].
  pose proof (swapped_table_back ds i d Hd) as Hswb.
  rewrite <- Hsw in Hswb. rewrite <- Hdims in Hhi, Hlo.
  destruct (convert_range_reads wire ds Hdims Hpos Hfit i d Hd)
    as (Hel & Hu1 & Hu2 & He).
  unfold dim_elem in Hel, Hu1.
  cbn [convert_range_rec].
  rewrite (bool_decide_eq_true_2 _ Hmod). norm.
  rewrite Hscope.
  rewrite (bool_decide_eq_true_2 (is_Some (Some wire))) by eauto. norm.
  rewrite (bool_decide_eq_false_2 _ Hne). norm.
  rewrite Hcount, (proj2 (Nat.ltb_lt _ _) Hi). norm.
  rewrite (bool_decide_eq_false_2 _ Hcne). norm.
  replace ((length (children id) =? 0)%nat) with false
    by (symmetry; apply Nat.eqb_neq; lia).
  rewrite Hdrop, Hdropx. cbn [flat_offset].
  pose proof (eval_constant env c Hct) as Hev. rewrite Hcx in Hev.
  destruct k as [|k].
  - (* the last selector *)
    replace (Z.of_nat i <? Z.of_nat (length (children id)) - 1) with false
      by (symmetry; apply Z.ltb_ge; lia).
    assert (Hnil : drop (S i) xs = []) by (apply drop_ge; lia).
    rewrite Hnil, flat_offset_nil.
    replace (length xs) with (S i) by lia.
    norm. rewrite (vector_at_Some _ _ _ Hs). norm. rewrite Hc.
    cbn [length Nat.eqb vector_at lookup list_lookup]. norm.
    rewrite (bool_decide_eq_false_2 _ Hsne). norm. rewrite Hswb. norm.
    unfold effective_index.
    destruct (dim_swapped d);
      [rewrite Hhi; norm; rewrite Hlo; norm; rewrite Hel, Hu1|];
      rewrite He; norm; rewrite Hu2; eexists _, _; (split; [reflexivity|]); split.
    all: simpl; rewrite Hev; simpl; f_equal; lia.
  - replace (Z.of_nat i <? Z.of_nat (length (children id)) - 1) with true
      by (symmetry; apply Z.ltb_lt; lia).
    destruct (IH (i + 1)%nat fuel ltac:(lia) ltac:(lia) ltac:(lia))
      as (l' & h' & Hrec & Hh' & Hl').
    rewrite Hrec. replace (i + 1)%nat with (S i) in Hl', Hh' by lia.
    cbn [fmap result_fmap]. norm.
    rewrite (vector_at_Some _ _ _ Hs). norm. rewrite Hc.
    cbn [length Nat.eqb vector_at lookup list_lookup]. norm.
    rewrite (bool_decide_eq_false_2 _ Hsne). norm. rewrite Hswb. norm.
    unfold effective_index.
    destruct (dim_swapped d);
      [rewrite Hhi; norm; rewrite Hlo; norm; rewrite Hel, Hu1|];
      rewrite He; norm; rewrite Hu2;
      cbn [children new_AstNode vector_at lookup list_lookup]; norm;
      eexists _, _; (split; [reflexivity|]); split.
    all: simpl; rewrite ?Hev, ?Hl', ?Hh'; simpl;
      rewrite ?Hl', ?Hh'; simpl; f_equal; lia.
Qed.

End ConvertSlice.

(** X11.  Against a table in which every dimension has a positive size
    [dims[j + 1] - dims[j]] and the sizes multiply to less than [2^31], an
    access with constant indices for the first dimensions only is rewritten
    by [convert_range] to the whole slice: the right bound denotes the
    offset of the given indices, and the range spans the product of the
    sizes of the dimensions that are not indexed. *)
Theorem convert_range_selects_slice (st : AstInternal) (id wire : AstNode)
    (packed unpacked : list AstNode) (ds : list Dimension) (xs : list Z)
    (env : string -> Z) :
  is_Some (current_ast_mod st) ->
  current_scope st !! str id = Some wire ->
  multirange_dimensions wire = dimension_table (reverse ds) ->
  multirange_swapped wire = swapped_table (reverse ds) ->
  (length unpacked + length packed = length ds)%nat ->
  Forall2 selects (children id) xs ->
  (length xs <= length ds)%nat ->
  xs <> [] ->
  Forall (fun d => 0 < dim_elem d) ds ->
  list_product (dim_elem <$> ds) < 2 ^ 31 ->
  exists l h,
    convert_range st id packed unpacked 0 = Ok (new_AstNode AST_RANGE [l; h]) /\
    eval env h = Some (flat_offset ds xs) /\
    eval env l
    = Some (flat_offset ds xs + list_product (dim_elem <$> drop (length xs) ds) - 1).
Proof.
  intros Hmod Hscope Hdims Hsw Hcount Hsel Hlen Hne Helem Hfit.
  assert (Hn : length (children id) = length xs) by (by apply Forall2_length in Hsel).
  assert (Hpos : (1 <= length xs)%nat) by (destruct xs; simpl; [done|lia]).
  destruct (convert_range_rec_slice st id wire packed unpacked ds xs env
              Hmod Hscope Hdims Hsw Hcount Hsel Hlen Helem Hfit (length xs) 0%nat
              (length (children id)) ltac:(lia) Hpos ltac:(lia))
    as (l & h & Hr & Hh & Hl).
  exists l, h. rewrite !drop_0 in Hh, Hl. done.
Qed.

(** [x[2]] against the dimensions [[3:0][1:0]]: the two bits [[5:4]]. *)
Lemma convert_range_selects_slice_witness :
  exists l h,
    convert_range
      (lowering_state
         {[ "\x" := set_multirange [0; 2; 0; 4] [false; false]
                      (declaration "\x" [make_range 3 0; make_range 1 0] []) ]})
      (access "\x" [2]) [make_range 1 0; make_range 3 0] [] 0
      = Ok (new_AstNode AST_RANGE [l; h]) /\
    eval (fun _ => 0) h = Some 4 /\
    eval (fun _ => 0) l = Some (4 + 2 - 1).
Proof.
  eapply (convert_range_selects_slice _ _ _ _ _
            [mkDimension 0 4 false; mkDimension 0 2 false] [2]).
  - eexists; reflexivity.
  - reflexivity.
  - reflexivity.
  - reflexivity.
  - reflexivity.
  - repeat constructor; eexists; repeat split; reflexivity.
  - simpl; lia.
  - discriminate.
  - repeat constructor.
  - reflexivity.
Defined.

Lemma convert_range_rec_past_dimensions st id packed unpacked m : forall i fuel,
  (i + m = length unpacked + length packed)%nat ->
  (length unpacked + length packed < length (children id))%nat ->
  (m < fuel)%nat ->
  exists cond,
    convert_range_rec fuel st id packed unpacked i = Abort (AssertionFailed cond).
Proof.
  induction m as [|m IH]; intros i fuel Him Hlen Hfuel;
    (destruct fuel as [|fuel]; [lia|]); cbn [convert_range_rec].
  all: destruct (bool_decide (is_Some (current_ast_mod st))); norm; [|by eexists].
  all: destruct (current_scope st !! str id) as [wire|] eqn:Hw;
    [rewrite (bool_decide_eq_true_2 (is_Some (Some wire))) by eauto
    |rewrite (bool_decide_eq_false_2 (is_Some (@None AstNode))) by (by intros [? ?])];
    norm; [|by eexists].
  all: destruct (bool_decide (multirange_dimensions wire = [])); norm; [by eexists|].
  - replace (i <? length unpacked + length packed)%nat with false
      by (symmetry; apply Nat.ltb_ge; lia).
    norm. by eexists.
  - replace (i <? length unpacked + length packed)%nat with true
      by (symmetry; apply Nat.ltb_lt; lia).
    norm. destruct (bool_decide (children id = [])); norm; [by eexists|].
    replace (Z.of_nat i <? Z.of_nat (length (children id)) - 1) with true
      by (symmetry; apply Z.ltb_lt; lia).
    destruct (IH (i + 1)%nat fuel ltac:(lia) Hlen ltac:(lia)) as (cond & ->).
    cbn [fmap result_fmap]. norm. by exists cond.
Qed.

(** X12.  An access with more selectors than the declaration has ranges ends
    the run: [convert_range] fails an assertion (the one on [i] when the
    recursion passes the last range, if no earlier one fails). *)
Theorem convert_range_too_many_selectors (st : AstInternal) (id : AstNode)
    (packed unpacked : list AstNode) :
  (length packed + length unpacked < length (children id))%nat ->
  exists cond, convert_range st id packed unpacked 0 = Abort (AssertionFailed cond).
Proof.
  intros Hlen. unfold convert_range.
  apply (convert_range_rec_past_dimensions st id packed unpacked
           (length unpacked + length packed)); lia.
Qed.

Lemma convert_range_too_many_selectors_witness :
  exists cond,
    convert_range
      (lowering_state
         {[ "\x" := set_multirange [0; 2; 0; 4] [false; false]
                      (declaration "\x" [make_range 3 0; make_range 1 0] []) ]})
      (access "\x" [2; 1; 0]) [make_range 1 0; make_range 3 0] [] 0
    = Abort (AssertionFailed cond).
Proof.
  apply (convert_range_too_many_selectors _ (access "\x" [2; 1; 0])).
  simpl. lia.
Defined.

(** ** Width of the flat range *)

Lemma ranges_size_product rs : forall size,
  ranges_size size rs mod 2 ^ 64
  = (size * list_product (dim_width <$> (range_dimension <$> rs))) mod 2 ^ 64.
Proof.
  unfold ranges_size.
  induction rs as [|r rs IH]; intros size; cbn [foldl fmap list_fmap].
  - change (list_product []) with 1. by rewrite Z.mul_1_r.
  - rewrite IH. unfold size_t_mul.
    rewrite Z.mul_mod_idemp_l by done. f_equal.
    rewrite list_product_cons. lia.
Qed.

Lemma to_int_congruent a b : a mod 2 ^ 32 = b mod 2 ^ 32 -> to_int a = to_int b.
Proof.
  intros H. unfold to_int.
  by rewrite (Z.add_mod a), (Z.add_mod b), H by done.
Qed.

Lemma to_int_mod z : to_int z mod 2 ^ 32 = z mod 2 ^ 32.
Proof.
  unfold to_int.
  rewrite <- Zminus_mod_idemp_l, Z.mod_mod by done.
  rewrite Zminus_mod_idemp_l. f_equal. lia.
Qed.

Lemma mod_64_mod_32 z : (z mod 2 ^ 64) mod 2 ^ 32 = z mod 2 ^ 32.
Proof.
  apply Z.mod_mod_divide. exists (2 ^ 32). reflexivity.
Qed.

(** The width stored for a range with small bounds is the declared width,
    up to the wrap-around of [int]. *)
Lemma stored_width_congruent r :
  small_range r ->
  dim_width (range_dimension r) mod 2 ^ 32 = range_width r mod 2 ^ 32.
Proof.
  unfold small_range, range_dimension, range_width.
  destruct (children r) as [|c0 [|c1 cs]]; try done.
  intros [H0 H1]. cbn [dim_width]. rewrite !to_uint32_small by lia.
  rewrite to_int_mod. f_equal. lia.
Qed.

Lemma stored_widths_congruent rs :
  Forall small_range rs ->
  list_product (dim_width <$> (range_dimension <$> rs)) mod 2 ^ 32
  = list_product (range_width <$> rs) mod 2 ^ 32.
Proof.
  induction 1 as [|r rs Hr _ IH]; [done|]. cbn [fmap list_fmap].
  rewrite !list_product_cons.
  rewrite Z.mul_mod, IH, (stored_width_congruent r Hr), <- Z.mul_mod by done.
  reflexivity.
Qed.

Lemma small_range_dimension r :
  small_range r -> range_width r < 2 ^ 31 ->
  range_dimension r = declared_dimension r.
Proof.
  unfold small_range, range_dimension, declared_dimension, range_low, range_width.
  destruct (children r) as [|c0 [|c1 cs]]; try done.
  intros [H0 H1] Hw. rewrite !to_uint32_small by lia.
  f_equal; rewrite to_int_small; lia.
Qed.

Lemma small_range_width_positive r : small_range r -> 0 < range_width r.
Proof.
  unfold small_range, range_width.
  destruct (children r) as [|c0 [|c1 cs]]; try done. lia.
Qed.

Section FlatRange.
Variable ast_simplify : AstInternal -> AstNode -> AstNode.
Variable st : AstInternal.

(** On the conversion path, ranges with small bounds give the flat range
    whose left bound is the product of the declared widths less one,
    narrowed to [int]. *)
Lemma flatten_small_ranges decl :
  let packed := attribute_children decl ID.packed_ranges in
  let unpacked := attribute_children decl ID.unpacked_ranges in
  let width := list_product (range_width <$> packed ++ unpacked) in
  is_Some (current_ast_mod st) ->
  first_child_is AST_WIRETYPE decl = false ->
  packed ++ unpacked <> [] ->
  convert_node decl packed unpacked = true ->
  multirange_dimensions decl = [] ->
  Forall (folded_range ast_simplify st) (packed ++ unpacked) ->
  Forall small_range (packed ++ unpacked) ->
  exists flat,
    convert_packed_unpacked_range ast_simplify st decl = Ok flat /\
    children flat = children decl ++ [make_range (to_int (width - 1)) 0] /\
    multirange_dimensions flat
    = dimension_table (range_dimension <$> packed ++ unpacked).
Proof.
  intros packed unpacked width Hmod Hwt Hne Hconv Hdims Hf Hsmall.
  eexists. split; [by apply flatten_converts|].
  fold packed unpacked. split; [|by destruct decl].
  assert (Hsize : to_int (size_t_mul (ranges_size 1 packed) (ranges_size 1 unpacked) - 1)
                  = to_int (width - 1)).
  { apply to_int_congruent.
    rewrite <- Zminus_mod_idemp_l, <- (Zminus_mod_idemp_l width). f_equal. f_equal.
    unfold size_t_mul. rewrite mod_64_mod_32.
    rewrite <- mod_64_mod_32, Z.mul_mod by done.
    rewrite !ranges_size_product, !Z.mul_1_l, <- Z.mul_mod by done.
    rewrite mod_64_mod_32, <- list_product_app, <- !fmap_app.
    by apply stored_widths_congruent. }
  rewrite Hsize. by destruct decl.
Qed.

End FlatRange.

(** X13.  On the conversion path, with ranges in folded form whose bounds lie
    between 0 and [2^31 - 1], the one range appended to the declaration is
    [[w - 1 : 0]] where [w] is the product of the declared widths of all
    packed and unpacked ranges, provided [w] is below [2^31]; the dimension
    table receives the declared (low, width) pair of every range, packed
    ranges first. *)
Theorem flatten_range_is_product (ast_simplify : AstInternal -> AstNode -> AstNode)
    (st : AstInternal) (decl : AstNode) :
  let packed := attribute_children decl ID.packed_ranges in
  let unpacked := attribute_children decl ID.unpacked_ranges in
  let width := list_product (range_width <$> packed ++ unpacked) in
  is_Some (current_ast_mod st) ->
  first_child_is AST_WIRETYPE decl = false ->
  packed ++ unpacked <> [] ->
  convert_node decl packed unpacked = true ->
  multirange_dimensions decl = [] ->
  Forall (folded_range ast_simplify st) (packed ++ unpacked) ->
  Forall small_range (packed ++ unpacked) ->
  width < 2 ^ 31 ->
  exists flat,
    convert_packed_unpacked_range ast_simplify st decl = Ok flat /\
    children flat = children decl ++ [make_range (width - 1) 0] /\
    multirange_dimensions flat
    = dimension_table (declared_dimension <$> packed ++ unpacked).
Proof.
  intros packed unpacked width Hmod Hwt Hne Hconv Hdims Hf Hsmall Hfit.
  destruct (flatten_small_ranges ast_simplify st decl Hmod Hwt Hne Hconv Hdims Hf Hsmall)
    as (flat & Hflat & Hchildren & Htable).
  fold packed unpacked width in Hchildren, Htable.
  assert (Hpos : Forall (fun x => 0 < x) (range_width <$> packed ++ unpacked)).
  { apply Forall_fmap. eapply Forall_impl; [exact Hsmall|].
    intros r Hr. by apply small_range_width_positive. }
  pose proof (list_product_positive _ Hpos) as Hw. fold width in Hw.
  exists flat. split; [done|]. split.
  - rewrite Hchildren, to_int_small by lia. reflexivity.
  - rewrite Htable. f_equal. apply list_eq. intros i.
    rewrite !list_lookup_fmap.
    destruct ((packed ++ unpacked) !! i) as [r|] eqn:Hr; [|done].
    cbn [fmap option_fmap option_map]. f_equal. apply small_range_dimension.
    + eapply (Forall_lookup_1 _ _ _ _ Hsmall Hr).
    + pose proof (list_product_elem_le _ i (range_width r) Hpos
                    ltac:(by rewrite list_lookup_fmap, Hr)) as Hle.
      fold width in Hle. lia.
Qed.

Lemma flatten_range_is_product_witness :
  exists flat,
    convert_packed_unpacked_range already_folded (lowering_state ∅)
      (declaration "\x" [make_range 3 0; make_range 1 0] [make_range 0 2])
    = Ok flat /\
    children flat = [] ++ [make_range (24 - 1) 0] /\
    multirange_dimensions flat = [0; 2; 0; 4; 0; 3].
Proof.
  apply (flatten_range_is_product already_folded (lowering_state ∅)
           (declaration "\x" [make_range 3 0; make_range 1 0] [make_range 0 2])).
  - eexists; reflexivity.
  - reflexivity.
  - discriminate.
  - reflexivity.
  - reflexivity.
  - repeat constructor; eexists _, _; repeat split; reflexivity.
  - repeat (apply Forall_cons_2; [unfold small_range; simpl; lia|]).
    apply Forall_nil_2.
  - vm_compute. reflexivity.
Defined.

(** X14.  A declaration to which [add_multirange_wire] attached no packed and
    no unpacked range comes out of [convert_packed_unpacked_range] exactly as
    it was before the two attributes were attached. *)
Theorem flatten_without_ranges_round_trip
    (ast_simplify : AstInternal -> AstNode -> AstNode) (st : AstInternal)
    (node : AstNode) (reverse_ranges : bool) :
  attributes node !! ID.packed_ranges = None ->
  attributes node !! ID.unpacked_ranges = None ->
  first_child_is AST_WIRETYPE node = false ->
  convert_packed_unpacked_range ast_simplify st
    (add_multirange_wire node [] [] reverse_ranges) = Ok node.
Proof.
  intros Hp Hu Hwt. unfold convert_packed_unpacked_range.
  assert (Hw : first_child_is AST_WIRETYPE (add_multirange_wire node [] [] reverse_ranges)
               = false).
  { rewrite <- Hwt. by destruct node, reverse_ranges. }
  rewrite Hw. norm.
  assert (Ha : forall k, k = ID.packed_ranges \/ k = ID.unpacked_ranges ->
             attribute_children (add_multirange_wire node [] [] reverse_ranges) k = []).
  { intros k Hk. unfold attribute_children, add_multirange_wire.
    destruct node, reverse_ranges; cbn [attributes set_attributes];
      destruct Hk as [-> | ->];
      rewrite ?lookup_insert_eq, ?(lookup_insert_ne _ ID.unpacked_ranges) by done;
      rewrite ?lookup_insert_eq; reflexivity. }
  rewrite !Ha by auto. cbn [andb bool_decide decide_rel].
  rewrite !bool_decide_eq_true_2 by done. cbn [andb]. f_equal.
  unfold add_multirange_wire.
  destruct node as [t s cs at_ bs i rl rr rs ii io bp md ms i2].
  cbn [attributes set_attributes] in *.
  assert (Hattrs : forall a b,
             delete ID.unpacked_ranges
               (delete ID.packed_ranges
                  (<[ID.unpacked_ranges := b]> (<[ID.packed_ranges := a]> at_))) = at_).
  { intros a b.
    assert (Hneq : ID.packed_ranges <> ID.unpacked_ranges) by (by compute).
    rewrite delete_insert_ne by done.
    rewrite delete_insert_eq, delete_insert_eq.
    rewrite (delete_id at_ ID.packed_ranges) by done. by rewrite delete_id. }
  destruct reverse_ranges; by rewrite Hattrs.
Qed.

Lemma flatten_without_ranges_round_trip_witness :
  convert_packed_unpacked_range already_folded (lowering_state ∅)
    (add_multirange_wire (set_str "\clk" (new_AstNode AST_WIRE [])) [] [] true)
  = Ok (set_str "\clk" (new_AstNode AST_WIRE [])).
Proof.
  apply (flatten_without_ranges_round_trip already_folded (lowering_state ∅)
           (set_str "\clk" (new_AstNode AST_WIRE [])) true); reflexivity.
Defined.

(** X15.  When the product [w] of the declared widths exceeds [2^31] (ranges in
    folded form, bounds between 0 and [2^31 - 1]), the left bound of the
    appended range is [w - 1] narrowed to [int], which is below [w - 1]:
    the [size_t] product is converted without a check, so the flat range is
    too small. *)
Theorem flatten_range_overflows (ast_simplify : AstInternal -> AstNode -> AstNode)
    (st : AstInternal) (decl : AstNode) :
  let packed := attribute_children decl ID.packed_ranges in
  let unpacked := attribute_children decl ID.unpacked_ranges in
  let width := list_product (range_width <$> packed ++ unpacked) in
  is_Some (current_ast_mod st) ->
  first_child_is AST_WIRETYPE decl = false ->
  packed ++ unpacked <> [] ->
  convert_node decl packed unpacked = true ->
  multirange_dimensions decl = [] ->
  Forall (folded_range ast_simplify st) (packed ++ unpacked) ->
  Forall small_range (packed ++ unpacked) ->
  2 ^ 31 < width ->
  exists flat range,
    convert_packed_unpacked_range ast_simplify st decl = Ok flat /\
    children flat = children decl ++ [range] /\
    type range = AST_RANGE /\
    range_left range = to_int (width - 1) /\
    range_right range = 0 /\
    range_left range < width - 1.
Proof.
  intros packed unpacked width Hmod Hwt Hne Hconv Hdims Hf Hsmall Hbig.
  destruct (flatten_small_ranges ast_simplify st decl Hmod Hwt Hne Hconv Hdims Hf Hsmall)
    as (flat & Hflat & Hchildren & _).
  fold packed unpacked width in Hchildren.
  exists flat, (make_range (to_int (width - 1)) 0).
  repeat split; try done. cbn [range_left make_range].
  pose proof (to_int_bounds (width - 1)). lia.
Qed.

(** The declaration [[65535:0][65536:0]] has [2^32 + 65536] bits; its flat
    range is [[65535:0]]. *)
Lemma flatten_range_overflows_witness :
  exists flat range,
    convert_packed_unpacked_range already_folded (lowering_state ∅)
      (declaration "\big" [make_range 65535 0; make_range 65536 0] [])
    = Ok flat /\
    children flat = [] ++ [range] /\
    type range = AST_RANGE /\
    range_left range = to_int (4295032832 - 1) /\
    range_right range = 0 /\
    range_left range < 4295032832 - 1.
Proof.
  apply (flatten_range_overflows already_folded (lowering_state ∅)
           (declaration "\big" [make_range 65535 0; make_range 65536 0] [])).
  - eexists; reflexivity.
  - reflexivity.
  - discriminate.
  - reflexivity.
  - reflexivity.
  - repeat constructor; eexists _, _; repeat split; reflexivity.
  - repeat (apply Forall_cons_2; [unfold small_range; simpl; lia|]).
    apply Forall_nil_2.
  - vm_compute. reflexivity.
Defined.

(** ** What [check_memories] changes, and when it ends the run *)

Lemma check_memories_split (ds : list AstNode) j s0 :
  (j < length ds)%nat ->
  fold_result (fun s k => check_memories_visit k s) (seq 0 (length ds)) s0
  = (sB ← fold_result (fun s k => check_memories_visit k s) (seq 0 j) s0;
     sj ← check_memories_visit j sB;
     fold_result (fun s k => check_memories_visit k s)
                 (seq (S j) (length ds - S j)) sj).
Proof.
  intros Hj.
  replace (length ds) with (j + S (length ds - S j))%nat at 1 by lia.
  rewrite seq_app, fold_result_app. cbn [seq fold_result]. rewrite Nat.add_0_l.
  by destruct (fold_result _ (seq 0 j) s0) as [sB|].
Qed.

Lemma store_follows_start (ds : list AstNode) : store_follows ds (∅, ds).
Proof. intros a n' Ha. exists n'. split; [done|by left]. Qed.

Lemma store_follows_visit ds k s s' :
  store_follows ds s -> check_memories_visit k s = Ok s' -> store_follows ds s'.
Proof.
  intros Hf Hv.
  eapply (check_memories_visit_preserves (store_follows ds));
    [apply store_follows_write | apply store_follows_register | exact Hf | exact Hv].
Qed.

Lemma visit_readmemh_memories node s s' :
  visit_readmemh node s = Ok s' -> s'.1 = s.1.
Proof.
  destruct s as [mem store]. unfold visit_readmemh.
  case_bool_decide; [|by intros [= <-]].
  destruct (vector_at (children node) 1) as [arg|]; [|done]. norm.
  destruct (mem !! str arg) as [m|]; [|done].
  destruct (vector_at store m) as [wv|]; [|done]. norm. by intros [= <-].
Qed.

(** X16.  [check_memories] changes nothing but forced-conversion flags: it
    visits every descendant, and afterwards each one is the node it was or
    that node with the [force_convert] attribute set. *)
Theorem check_memories_changes_flags_only (module_node : AstNode)
    (store' : list AstNode) :
  check_memories module_node = Ok store' ->
  length store' = length (descendants module_node) /\
  forall a n', store' !! a = Some n' ->
    exists n, descendants module_node !! a = Some n /\ flag_variant n n'.
Proof.
  unfold check_memories. set (ds := descendants module_node).
  destruct (fold_result _ _ _) as [s|] eqn:E; [|done].
  cbn [fmap result_fmap]. intros [= <-].
  enough (H : store_follows ds s /\ length s.2 = length ds) by (by destruct H).
  eapply (fold_result_invariant
            (fun s => store_follows ds s /\ length s.2 = length ds)); [| |exact E].
  - intros a x a' Ha Hx.
    eapply (check_memories_visit_preserves
              (fun s => store_follows ds s /\ length s.2 = length ds));
      [| | exact Ha | exact Hx].
    + intros mem store m wv v [H1 H2] Hm Hv. split.
      * by apply store_follows_write.
      * cbn in *. by rewrite length_insert.
    + intros mem store name a0 [H1 H2] Hn. by split.
  - split; [apply store_follows_start|done].
Qed.

Lemma check_memories_changes_flags_only_witness :
  let w := declaration "\mem" [make_range 7 0] [make_range 0 3] in
  let module_node := new_AstNode AST_MODULE
                       [w; readmemh_call "\mem"; whole_reference "\mem"] in
  let store' := <[0%nat := add_force_convert_attribute w 0]> (descendants module_node) in
  length store' = length (descendants module_node) /\
  forall a n', store' !! a = Some n' ->
    exists n, descendants module_node !! a = Some n /\ flag_variant n n'.
Proof.
  intros w module_node store'.
  apply (check_memories_changes_flags_only module_node store'). reflexivity.
Defined.


Section Registry.
Context (ds : list AstNode).

(** A name stays unregistered while no wire of the memory shape carries it. *)
Lemma visit_keeps_unregistered name k s s' :
  store_follows ds s ->
  s.1 !! name = None ->
  (forall w, memory_at ds k w -> str w <> name) ->
  check_memories_visit k s = Ok s' ->
  s'.1 !! name = None.
Proof.
  intros Hf Hfree Hk. unfold check_memories_visit, vector_at.
  destruct (s.2 !! k) as [node|] eqn:Hn; [|done]. norm.
  destruct (Hf k node Hn) as (w & Hw & Hv).
  destruct (flag_variant_fields _ _ Hv) as (Hs & Hty & _ & Hpr & Hur).
  destruct (visit_readmemh node s) as [s1|] eqn:E1; [|done]. norm.
  apply visit_readmemh_memories in E1.
  destruct (visit_wire k node s1) as [s2|] eqn:E2; [|done]. norm.
  intros E3. apply visit_identifier_memories in E3. rewrite E3.
  revert E2. destruct s1 as [mem1 store1]. cbn in E1. subst mem1.
  unfold visit_wire. case_bool_decide as Ht; [|by intros [= <-]].
  destruct (_ && _)%nat eqn:Hshape; [|by intros [= <-]].
  destruct (log_assert _ _); [|done]. norm. intros [= <-]. cbn.
  rewrite lookup_insert_ne; [done|].
  rewrite Hs. apply Hk. rewrite Hpr, Hur in Hshape.
  apply andb_true_iff in Hshape as [Hp%Nat.eqb_eq Hu%Nat.eqb_eq].
  split; [done|]. split; [congruence|done].
Qed.

(** Once a name is registered it keeps its address. *)
Lemma visit_keeps_registered name a k s s' :
  s.1 !! name = Some a ->
  check_memories_visit k s = Ok s' ->
  s'.1 !! name = Some a.
Proof.
  intros Hreg Hv.
  eapply (check_memories_visit_preserves (fun s => s.1 !! name = Some a));
    [| | exact Hreg | exact Hv].
  - by intros.
  - intros mem store name' a' H Hn. cbn in *.
    rewrite lookup_insert_ne; [done|]. congruence.
Qed.

End Registry.

(** X17.  Two wires with one packed and one unpacked range each that carry the
    same name make [check_memories] end the run (the assertion
    [!memories.count(node->str)] fails at the second one, if nothing fails
    before). *)
Theorem check_memories_duplicate_memory (module_node w w' : AstNode) (k j : nat) :
  memory_at (descendants module_node) k w ->
  memory_at (descendants module_node) j w' ->
  (k < j)%nat ->
  str w' = str w ->
  exists f, check_memories module_node = Abort f.
Proof.
  intros (Hk & Ht & Hp & Hu) (Hj & Ht' & Hp' & Hu') Hkj Hname.
  unfold check_memories. set (ds := descendants module_node) in *.
  assert (Hjn : (j < length ds)%nat) by (by eapply lookup_lt_Some).
  assert (Hkn : (k < length ds)%nat) by lia.
  destruct (fold_result _ _ _) as [s|] eqn:E; [exfalso|by eexists].
  rewrite (check_memories_split ds j) in E by done.
  destruct (fold_result _ (seq 0 j) _) as [sB|] eqn:EB; [|done]. cbn [mbind result_bind] in E.
  destruct (check_memories_visit j sB) as [sj|] eqn:Ej; [|done]. clear E.
  (* the first memory is registered when the second one is reached *)
  assert (HB : store_follows ds sB /\ sB.1 !! str w = Some k).
  { revert EB.
    replace (seq 0 j) with (seq 0 (k + S (j - S k))) by (f_equal; lia).
    rewrite seq_app, fold_result_app. cbn [seq fold_result]. rewrite Nat.add_0_l.
    destruct (fold_result _ (seq 0 k) _) as [sA|] eqn:EA; [|done]. norm.
    destruct (check_memories_visit k sA) as [sk|] eqn:Ek; [|done]. norm.
    intros EB.
    assert (HA : store_follows ds sA).
    { eapply (fold_result_invariant (store_follows ds)); [| |exact EA].
      - intros a x a' Ha Hx. exact (store_follows_visit ds x a a' Ha Hx).
      - apply store_follows_start. }
    pose proof (visit_registers ds k w Hk sA sk Ht Hp Hu HA Ek) as Hreg.
    eapply (fold_result_invariant
              (fun s => store_follows ds s /\ s.1 !! str w = Some k)); [| |exact EB].
    - intros a x a' [H1 H2] Hx. split.
      + exact (store_follows_visit ds x a a' H1 Hx).
      + exact (visit_keeps_registered (str w) k x a a' H2 Hx).
    - split; [exact (store_follows_visit ds k sA sk HA Ek)|done]. }
  destruct HB as [HB Hreg].
  (* so the assertion of the second registration fails *)
  revert Ej. unfold check_memories_visit, vector_at.
  destruct (sB.2 !! j) as [node|] eqn:Hn; [|done]. norm.
  destruct (HB j node Hn) as (w0 & Hw0 & Hv). rewrite Hj in Hw0. injection Hw0 as <-.
  destruct (flag_variant_fields _ _ Hv) as (Hs & Hty & _ & Hpr & Hur).
  destruct (visit_readmemh node sB) as [[mem1 store1]|] eqn:E1; [|done]. norm.
  apply visit_readmemh_memories in E1. cbn in E1. subst mem1.
  unfold visit_wire. rewrite Hty, Hpr, Hur, Hp', Hu', Hs, Hname.
  rewrite (bool_decide_eq_true_2 _ Ht'). cbn [Nat.eqb andb].
  rewrite Hreg. rewrite bool_decide_eq_true_2 by eauto. done.
Qed.

Lemma check_memories_duplicate_memory_witness :
  let w := declaration "\mem" [make_range 7 0] [make_range 0 3] in
  let w' := declaration "\mem" [make_range 3 0] [make_range 0 1] in
  exists f, check_memories (new_AstNode AST_MODULE [w; w']) = Abort f.
Proof.
  intros w w'.
  apply (check_memories_duplicate_memory (new_AstNode AST_MODULE [w; w']) w w' 0 1).
  - repeat split.
  - repeat split.
  - lia.
  - reflexivity.
Defined.

(** X18.  A [$readmemh] call whose second argument names no memory-shaped wire
    visited before the call ends the run: [memories[...]] yields a null
    pointer, which [add_force_convert_attribute] dereferences. *)
Theorem check_memories_readmemh_before_memory (module_node call arg : AstNode)
    (j : nat) :
  descendants module_node !! j = Some call ->
  str call = "\$readmemh" ->
  children call !! 1%nat = Some arg ->
  (forall k w, (k < j)%nat -> memory_at (descendants module_node) k w ->
               str w <> str arg) ->
  exists f, check_memories module_node = Abort f.
Proof.
  intros Hj Hs Harg Hnone.
  unfold check_memories. set (ds := descendants module_node) in *.
  assert (Hjn : (j < length ds)%nat) by (by eapply lookup_lt_Some).
  destruct (fold_result _ _ _) as [s|] eqn:E; [exfalso|by eexists].
  rewrite (check_memories_split ds j) in E by done.
  destruct (fold_result _ (seq 0 j) _) as [sB|] eqn:EB; [|done]. cbn [mbind result_bind] in E.
  destruct (check_memories_visit j sB) as [sj|] eqn:Ej; [|done]. clear E.
  assert (HB : store_follows ds sB /\ sB.1 !! str arg = None).
  { eapply (fold_result_invariant_in
              (fun s => store_follows ds s /\ s.1 !! str arg = None)); [| |exact EB].
    - intros a x a' Hx [H1 H2] Hv. split.
      + exact (store_follows_visit ds x a a' H1 Hv).
      + eapply (visit_keeps_unregistered ds (str arg) x a a'); [exact H1 | exact H2 | | exact Hv].
        intros w Hw. apply (Hnone x w); [|done].
        apply elem_of_seq in Hx. lia.
    - split; [apply store_follows_start|done]. }
  destruct HB as [HB Hfree].
  revert Ej. unfold check_memories_visit, vector_at.
  destruct (sB.2 !! j) as [node|] eqn:Hn; [|done]. norm.
  destruct (HB j node Hn) as (c & Hc & Hv). rewrite Hj in Hc. injection Hc as <-.
  destruct (flag_variant_fields _ _ Hv) as (Hstr & _ & Hch & _).
  destruct sB as [mem store]. cbn in Hfree.
  unfold visit_readmemh at 1. rewrite Hstr, Hch.
  rewrite (bool_decide_eq_true_2 _ Hs). unfold vector_at. rewrite Harg. norm.
  by rewrite Hfree.
Qed.

Lemma check_memories_readmemh_before_memory_witness :
  let w := declaration "\mem" [make_range 7 0] [make_range 0 3] in
  exists f, check_memories (new_AstNode AST_MODULE [readmemh_call "\mem"; w]) = Abort f.
Proof.
  intros w.
  apply (check_memories_readmemh_before_memory
           (new_AstNode AST_MODULE [readmemh_call "\mem"; w])
           (readmemh_call "\mem") (set_str "\mem" (new_AstNode AST_IDENTIFIER [])) 0).
  - reflexivity.
  - reflexivity.
  - reflexivity.
  - intros k w0 Hk. lia.
Defined.

(** Where no [$readmemh] call is visited, the only write is the flag 1 on
    a registered wire that has no flag yet. *)
Section QuietVisit.
Context (ds : list AstNode) (P : list AstNode -> Prop).
Hypothesis Hwrite : forall store m wv,
  P store -> store !! m = Some wv -> has_attribute wv ID.force_convert = false ->
  P (<[m := add_force_convert_attribute wv 1]> store).

Lemma quiet_visit_preserves i n s s' :
  store_follows ds s ->
  ds !! i = Some n ->
  str n <> "\$readmemh" ->
  P s.2 ->
  check_memories_visit i s = Ok s' ->
  P s'.2.
Proof.
  intros Hf Hi Hquiet HP. unfold check_memories_visit, vector_at.
  destruct (s.2 !! i) as [node|] eqn:Hn; [|done]. norm.
  destruct (Hf i node Hn) as (n0 & Hn0 & Hv). rewrite Hi in Hn0. injection Hn0 as <-.
  destruct (flag_variant_fields _ _ Hv) as (Hs & _).
  unfold visit_readmemh at 1. destruct s as [mem store]. cbn [snd] in *.
  rewrite Hs, (bool_decide_eq_false_2 _ Hquiet). norm.
  assert (Hwire : exists mem', visit_wire i node (mem, store) = Ok (mem', store)
                               \/ exists f, visit_wire i node (mem, store) = Abort f).
  { unfold visit_wire. case_bool_decide; [|by eexists; left].
    destruct (_ && _)%nat; [|by eexists; left].
    destruct (log_assert _ _); norm; [by eexists; left|]. exists mem. right. eauto. }
  destruct Hwire as (mem' & [-> | [f ->]]); [|done]. norm.
  unfold visit_identifier. case_bool_decide; [|by intros [= <-]].
  destruct (mem' !! str node) as [m|]; [|by intros [= <-]].
  unfold vector_at. destruct (store !! m) as [wv|] eqn:Hm; [|done]. norm.
  destruct (has_attribute wv ID.force_convert) eqn:Ha; cbn [negb andb];
    [by intros [= <-]|].
  destruct (length (children node) =? 0)%nat; [|by intros [= <-]].
  intros [= <-]. cbn [snd]. by apply Hwrite.
Qed.

Lemma quiet_fold_preserves l : forall s s',
  Forall (fun n => str n <> "\$readmemh") ds ->
  (forall i, i ∈ l -> (i < length ds)%nat) ->
  store_follows ds s -> P s.2 ->
  fold_result (fun s k => check_memories_visit k s) l s = Ok s' ->
  store_follows ds s' /\ P s'.2.
Proof.
  intros s s' Hquiet Hl Hf HP Hrun.
  eapply (fold_result_invariant_in (fun s => store_follows ds s /\ P s.2));
    [| |exact Hrun]; [|done].
  intros a i a' Hi [H1 H2] Hv. split.
  - exact (store_follows_visit ds i a a' H1 Hv).
  - destruct (lookup_lt_is_Some_2 ds i (Hl i Hi)) as [n Hn].
    apply (quiet_visit_preserves i n a a' H1 Hn); [|done..].
    rewrite Forall_forall in Hquiet. apply Hquiet. by eapply list_elem_of_lookup_2.
Qed.

End QuietVisit.

(** X19.  In a module without [$readmemh] calls, a memory-shaped wire without
    flag that is referenced as a whole (by an identifier of its name without
    selectors, visited after it) leaves [check_memories] with the flag 1, so
    that [convert_packed_unpacked_range] takes the conversion path for it. *)
Theorem check_memories_whole_reference (module_node w ref : AstNode) (k j : nat)
    (store' : list AstNode) :
  memory_at (descendants module_node) k w ->
  has_attribute w ID.force_convert = false ->
  descendants module_node !! j = Some ref ->
  (k < j)%nat ->
  type ref = AST_IDENTIFIER ->
  str ref = str w ->
  children ref = [] ->
  Forall (fun n => str n <> "\$readmemh") (descendants module_node) ->
  check_memories module_node = Ok store' ->
  store' !! k = Some (add_force_convert_attribute w 1) /\
  forall packed unpacked,
    convert_node (add_force_convert_attribute w 1) packed unpacked = true.
Proof.
  intros (Hk & Ht & Hp & Hu) Hnoflag Hj Hkj Htref Hname Hnosel Hquiet.
  unfold check_memories. set (ds := descendants module_node) in *.
  assert (Hjn : (j < length ds)%nat) by (by eapply lookup_lt_Some).
  assert (Hflagged : has_attribute (add_force_convert_attribute w 1) ID.force_convert
                     = true) by apply has_force_convert_after.
  set (Q := fun store : list AstNode =>
              store !! k = Some w \/
              store !! k = Some (add_force_convert_attribute w 1)).
  set (R := fun store : list AstNode =>
              store !! k = Some (add_force_convert_attribute w 1)).
  assert (HQ : forall store m wv,
             Q store -> store !! m = Some wv ->
             has_attribute wv ID.force_convert = false ->
             Q (<[m := add_force_convert_attribute wv 1]> store)).
  { intros store m wv HQ Hm Ha. unfold Q in *.
    destruct (decide (k = m)) as [<-|Hne].
    - right. rewrite list_lookup_insert_eq by (by eapply lookup_lt_Some).
      destruct HQ as [HQ|HQ]; rewrite HQ in Hm; injection Hm as <-; [done|].
      congruence.
    - by rewrite list_lookup_insert_ne. }
  assert (HR : forall store m wv,
             R store -> store !! m = Some wv ->
             has_attribute wv ID.force_convert = false ->
             R (<[m := add_force_convert_attribute wv 1]> store)).
  { intros store m wv HR' Hm Ha. unfold R in *.
    destruct (decide (k = m)) as [<-|Hne].
    - rewrite HR' in Hm. injection Hm as <-. congruence.
    - by rewrite list_lookup_insert_ne. }
  destruct (fold_result _ _ _) as [s|] eqn:E; [|done].
  cbn [fmap result_fmap]. intros [= <-]. split.
  2:{ intros packed unpacked. unfold convert_node.
      replace (is_force_convert (add_force_convert_attribute w 1)) with true;
        [by rewrite !orb_true_r|].
      unfold is_force_convert, add_force_convert_attribute. destruct w. cbn.
      by rewrite lookup_insert_eq. }
  rewrite (check_memories_split ds j) in E by done.
  destruct (fold_result _ (seq 0 j) _) as [sB|] eqn:EB; [|done].
  cbn [mbind result_bind] in E.
  destruct (check_memories_visit j sB) as [sj|] eqn:Ej; [|done].
  cbn [mbind result_bind] in E.
  (* up to the reference: the wire is registered, its flag is absent or 1 *)
  assert (HB : (store_follows ds sB /\ Q sB.2) /\ sB.1 !! str w = Some k).
  { revert EB.
    replace (seq 0 j) with (seq 0 (k + S (j - S k))) by (f_equal; lia).
    rewrite seq_app, fold_result_app. cbn [seq fold_result]. rewrite Nat.add_0_l.
    destruct (fold_result _ (seq 0 k) _) as [sA|] eqn:EA; [|done]. norm.
    destruct (check_memories_visit k sA) as [sk|] eqn:Ek; [|done]. norm.
    intros EB.
    assert (HA : store_follows ds sA /\ Q sA.2).
    { apply (quiet_fold_preserves ds Q HQ (seq 0 k) (∅, ds) sA); try done.
      - intros i Hi. apply elem_of_seq in Hi. lia.
      - apply store_follows_start.
      - by left. }
    destruct HA as [HA HQA].
    pose proof (visit_registers ds k w Hk sA sk Ht Hp Hu HA Ek) as Hreg.
    assert (Hsk : store_follows ds sk /\ Q sk.2).
    { split; [exact (store_follows_visit ds k sA sk HA Ek)|].
      apply (quiet_visit_preserves ds Q HQ k w sA sk); try done.
      rewrite Forall_forall in Hquiet. apply Hquiet. by eapply list_elem_of_lookup_2. }
    split.
    - apply (quiet_fold_preserves ds Q HQ (seq (S k) (j - S k)) sk sB); try tauto.
      intros i Hi. apply elem_of_seq in Hi. lia.
    - eapply (fold_result_invariant (fun s => s.1 !! str w = Some k)); [| |exact EB].
      + intros a x a' H2 Hx. exact (visit_keeps_registered (str w) k x a a' H2 Hx).
      + done. }
  destruct HB as [[HB HQB] Hreg].
  (* the reference sets the flag *)
  assert (Hset : R sj.2).
  { revert Ej. unfold check_memories_visit, vector_at.
    destruct (sB.2 !! j) as [node|] eqn:Hn; [|done]. norm.
    destruct (HB j node Hn) as (r & Hr & Hv). rewrite Hj in Hr. injection Hr as <-.
    destruct (flag_variant_fields _ _ Hv) as (Hs & Hty & Hch & _).
    destruct sB as [mem store]. cbn [fst snd] in *.
    unfold visit_readmemh at 1. rewrite Hs, Hname.
    rewrite bool_decide_eq_false_2.
    2:{ rewrite <- Hname. rewrite Forall_forall in Hquiet. apply Hquiet.
        by eapply list_elem_of_lookup_2. }
    norm. unfold visit_wire. rewrite Hty, Htref.
    rewrite bool_decide_eq_false_2 by done. norm.
    unfold visit_identifier. rewrite Hty, (bool_decide_eq_true_2 _ Htref).
    rewrite Hs, Hname, Hreg. unfold vector_at, R.
    destruct HQB as [HQB|HQB]; rewrite HQB; norm.
    - rewrite Hnoflag, Hch, Hnosel. cbn [negb andb length Nat.eqb].
      intros [= <-]. cbn [snd]. apply list_lookup_insert_eq. by eapply lookup_lt_Some.
    - rewrite Hflagged. cbn [negb andb]. by intros [= <-]. }
  (* and the flag stays *)
  assert (HBj : store_follows ds sj) by exact (store_follows_visit ds j sB sj HB Ej).
  apply (quiet_fold_preserves ds R HR (seq (S j) (length ds - S j)) sj s); try done.
  intros i Hi. apply elem_of_seq in Hi. lia.
Qed.

Lemma check_memories_whole_reference_witness :
  let w := declaration "\mem" [make_range 7 0] [make_range 0 3] in
  let module_node := new_AstNode AST_MODULE [w; whole_reference "\mem"] in
  let store' := [add_force_convert_attribute w 1; whole_reference "\mem"] in
  store' !! 0%nat = Some (add_force_convert_attribute w 1) /\
  forall packed unpacked,
    convert_node (add_force_convert_attribute w 1) packed unpacked = true.
Proof.
  intros w module_node store'.
  apply (check_memories_whole_reference module_node w (whole_reference "\mem") 0 1 store').
  - repeat split.
  - reflexivity.
  - reflexivity.
  - lia.
  - reflexivity.
  - reflexivity.
  - reflexivity.
  - repeat constructor; discriminate.
  - reflexivity.
Defined.

(** ** Selecting inside a struct member *)

Lemma struct_elem_bounds_item item :
  type item = AST_STRUCT_ITEM ->
  struct_elem_bounds item
  = Ok (mkconst_int (range_left item) 32, mkconst_int (range_right item) 32).
Proof. intros Ht. unfold struct_elem_bounds. by rewrite bool_decide_eq_true_2. Qed.

(** X20.  A range select on a struct item is placed relative to the item:
    [.f[h:l]] expands to the range [[right + h : right + l]] and [.f[i]] to
    the bit [right + i], where [right] is the right bound of the item [f]. *)
Theorem expand_dot_field_part_select (env : string -> Z)
    (current_struct search_node item sel hi lo : AstNode) (h l : Z) :
  find (fun node => bool_decide (str node = strip_backslash (str search_node)))
       (children current_struct) = Some item ->
  type item = AST_STRUCT_ITEM ->
  children search_node = [sel] ->
  type sel = AST_RANGE ->
  children sel = [hi; lo] \/ (children sel = [hi] /\ lo = hi) ->
  eval env hi = Some h ->
  eval env lo = Some l ->
  exists left_ right_,
    expand_dot current_struct search_node
    = Ok (new_AstNode AST_RANGE [left_; right_]) /\
    eval env left_ = Some (range_right item + h) /\
    eval env right_ = Some (range_right item + l).
Proof.
  intros Hfind Hitem Hsearch Hsel Hch Hh Hl.
  destruct search_node as [t s cs at_ bs i rl rr rs ii io bp md ms i2].
  cbn [str children] in Hfind, Hsearch. subst cs.
  cbn [expand_dot]. rewrite Hfind, (struct_elem_bounds_item item Hitem). norm.
  cbn [expand_dot_children]. rewrite Hsel.
  rewrite (bool_decide_eq_false_2 (AST_RANGE = AST_DOT)) by done.
  rewrite (bool_decide_eq_true_2 (AST_RANGE = AST_RANGE)) by done. norm.
  rewrite (bool_decide_eq_false_2 (is_Some (@None AstNode))) by (by intros [? ?]).
  norm.
  unfold apply_struct_range.
  assert (Hne : children sel <> []).
  { destruct Hch as [-> | [-> _]]; done. }
  rewrite (bool_decide_eq_false_2 _ Hne). norm.
  rewrite (bool_decide_eq_true_2 _ Hitem).
  destruct Hch as [-> | [-> ->]].
  - eexists _, _. split; [reflexivity|]. simpl. rewrite Hh, Hl. simpl.
    split; f_equal; lia.
  - rewrite Hl in Hh. injection Hh as <-.
    eexists _, _. split; [reflexivity|]. simpl. rewrite Hl. simpl. done.
Qed.

(** In [{a:[7:0]; b:[3:0]}] the select [.a[5:2]] is the range [[9:6]]. *)
Lemma expand_dot_field_part_select_witness :
  exists left_ right_,
    expand_dot (packed_struct [("a", 8); ("b", 4)])
      (set_str "\a" (new_AstNode AST_DOT [make_range 5 2]))
    = Ok (new_AstNode AST_RANGE [left_; right_]) /\
    eval (fun _ => 0) left_ = Some (4 + 5) /\
    eval (fun _ => 0) right_ = Some (4 + 2).
Proof.
  apply (expand_dot_field_part_select (fun _ => 0)
           (packed_struct [("a", 8); ("b", 4)])
           (set_str "\a" (new_AstNode AST_DOT [make_range 5 2]))
           (struct_item "a" 11 4) (make_range 5 2)
           (mkconst_int 5 32) (mkconst_int 2 32) 5 2).
  - reflexivity.
  - reflexivity.
  - reflexivity.
  - reflexivity.
  - by left.
  - reflexivity.
  - reflexivity.
Defined.

(** X21.  A path through a nested member is expanded inside that member: the
    range of [.a.b] in a struct is the range [expand_dot] gives for [.b] in
    the member [a]. *)
Theorem expand_dot_nested_path (current_struct search_node item sub e : AstNode) :
  find (fun node => bool_decide (str node = strip_backslash (str search_node)))
       (children current_struct) = Some item ->
  type item = AST_STRUCT_ITEM \/ (type item = AST_STRUCT /\ children item <> []) ->
  children search_node = [sub] ->
  type sub = AST_DOT ->
  expand_dot item sub = Ok e ->
  expand_dot current_struct search_node = Ok e.
Proof.
  intros Hfind Hitem Hsearch Hsub Hexp.
  destruct (expand_dot_is_range _ _ _ Hexp) as (l & r & ->).
  destruct search_node as [t s cs at_ bs i rl rr rs ii io bp md ms i2].
  cbn [str children] in Hfind, Hsearch. subst cs.
  cbn [expand_dot]. rewrite Hfind.
  assert (Hbounds : exists b, struct_elem_bounds item = Ok b).
  { unfold struct_elem_bounds. destruct Hitem as [Ht | [Ht Hne]].
    - rewrite bool_decide_eq_true_2 by done. eauto.
    - rewrite Ht. rewrite bool_decide_eq_false_2 by done.
      rewrite bool_decide_eq_true_2 by done.
      destruct (children item) as [|c cs] eqn:Hc; [done|].
      cbn [vector_at lookup list_lookup]. norm.
      unfold vector_at_back. cbn [length]. cbn [Nat.ltb Nat.leb].
      destruct (vector_at (c :: cs) _) eqn:Hb; norm; [eauto|].
      unfold vector_at in Hb.
      destruct (lookup_lt_is_Some_2 (c :: cs) (length (c :: cs) - 0 - 1)
                  ltac:(cbn [length]; lia)) as [x Hx].
      cbn [length] in Hx, Hb. by rewrite Hx in Hb. }
  destruct Hbounds as ([l0 r0] & ->). norm.
  cbn [expand_dot_children]. rewrite Hsub, Hexp.
  rewrite (bool_decide_eq_true_2 (AST_DOT = AST_DOT)) by done.
  rewrite (bool_decide_eq_false_2 (AST_DOT = AST_RANGE)) by done.
  rewrite (bool_decide_eq_false_2 (is_Some (@None AstNode))) by (by intros [? ?]).
  norm. cbn [fmap result_fmap]. norm.
  reflexivity.
Qed.

Lemma expand_dot_nested_path_witness :
  let inner := set_str "in" (packed_struct [("a", 8); ("b", 4)]) in
  let outer := new_AstNode AST_STRUCT [inner; struct_item "c" 0 0] in
  expand_dot outer (set_str "\in" (new_AstNode AST_DOT [field_path "b"]))
  = Ok (new_AstNode AST_RANGE [mkconst_int 3 32; mkconst_int 0 32]).
Proof.
  intros inner outer.
  apply (expand_dot_nested_path outer
           (set_str "\in" (new_AstNode AST_DOT [field_path "b"]))
           inner (field_path "b")).
  - reflexivity.
  - right. split; [reflexivity|discriminate].
  - reflexivity.
  - reflexivity.
  - reflexivity.
Defined.

(** X22.  A member that is neither a struct item nor a struct (a union, for
    instance) ends the expansion with [log_error]; the message names the
    type of the member. *)
Theorem expand_dot_unsupported_member (current_struct search_node item : AstNode) :
  find (fun node => bool_decide (str node = strip_backslash (str search_node)))
       (children current_struct) = Some item ->
  type item <> AST_STRUCT_ITEM ->
  type item <> AST_STRUCT ->
  expand_dot current_struct search_node
  = log_error ("Found " +:+ type2str (type item)
               +:+ " elem in struct that is currently unsupported!").
Proof.
  intros Hfind Hitem Hstruct.
  destruct search_node as [t s cs at_ bs i rl rr rs ii io bp md ms i2].
  cbn [str] in Hfind. cbn [expand_dot]. rewrite Hfind.
  unfold struct_elem_bounds. by rewrite !bool_decide_eq_false_2.
Qed.

Lemma expand_dot_unsupported_member_witness :
  expand_dot
    (new_AstNode AST_STRUCT [set_str "u" (new_AstNode AST_UNION [struct_item "a" 7 0])])
    (field_path "u")
  = log_error "Found AST_UNION elem in struct that is currently unsupported!".
Proof.
  apply (expand_dot_unsupported_member _ (field_path "u")
           (set_str "u" (new_AstNode AST_UNION [struct_item "a" 7 0])));
    [reflexivity | discriminate | discriminate].
Defined.

(** ** What the scope set-up brings in *)

Lemma foldl_insert_keeps (cs : list AstNode) : forall (scope : gmap string AstNode) x,
  is_Some (scope !! x) ->
  is_Some (foldl (fun scope c => <[str c := c]> scope) scope cs !! x).
Proof.
  induction cs as [|c cs IH]; intros scope x Hx; [done|]. cbn [foldl].
  apply IH. destruct (decide (str c = x)) as [<-|Hne].
  - rewrite lookup_insert_eq. eauto.
  - by rewrite lookup_insert_ne.
Qed.

Lemma import_package_child_keeps package_str scope o scope' x :
  import_package_child package_str scope o = Ok scope' ->
  is_Some (scope !! x) -> is_Some (scope' !! x).
Proof.
  unfold import_package_child. intros Himp Hx. revert Himp.
  destruct (_ || _).
  - destruct (substr1 (str o)) as [bare|]; [|done]. norm. intros [= <-].
    destruct (decide (str o = x)) as [<-|Hne]; [rewrite lookup_insert_eq; eauto|].
    rewrite lookup_insert_ne by done.
    destruct (decide (package_str +:+ "::" +:+ bare = x)) as [<-|Hne'];
      [rewrite lookup_insert_eq; eauto|].
    by rewrite lookup_insert_ne.
  - case_bool_decide; [|by intros [= <-]]. intros [= <-].
    apply foldl_insert_keeps.
    destruct (decide (str o = x)) as [<-|Hne]; [rewrite lookup_insert_eq; eauto|].
    by rewrite lookup_insert_ne.
Qed.

Lemma import_package_children_keep package_str cs scope scope' x :
  fold_result (import_package_child package_str) cs scope = Ok scope' ->
  is_Some (scope !! x) -> is_Some (scope' !! x).
Proof.
  intros Hf Hx.
  eapply (fold_result_invariant (fun sc => is_Some (sc !! x))); [|exact Hx|exact Hf].
  intros a o a' Ha Ho. by eapply import_package_child_keeps.
Qed.

Lemma import_top_node_keeps scope entry scope' x :
  import_top_node scope entry = Ok scope' ->
  is_Some (scope !! x) -> is_Some (scope' !! x).
Proof.
  unfold import_top_node. destruct entry.2 as [node|]; [|done].
  case_bool_decide; [|by intros [= <-]].
  apply import_package_children_keep.
Qed.

Lemma import_top_nodes_keep entries scope scope' x :
  fold_result import_top_node entries scope = Ok scope' ->
  is_Some (scope !! x) -> is_Some (scope' !! x).
Proof.
  intros Hf Hx.
  eapply (fold_result_invariant (fun sc => is_Some (sc !! x))); [|exact Hx|exact Hf].
  intros a e a' Ha He. by eapply import_top_node_keeps.
Qed.

(** X23.  After [setup_current_scope] every typedef, parameter and localparam of
    every registered package is in scope under its own name and under
    [package::name], and every entry that was in scope before still is. *)
Theorem setup_current_scope_imports (top_nodes : gmap string (option AstNode))
    (current_top_node : option AstNode) (st st' : AstInternal)
    (name : string) (pkg o : AstNode) (first : ascii) (bare : string) :
  setup_current_scope top_nodes current_top_node st = Ok st' ->
  top_nodes !! name = Some (Some pkg) ->
  type pkg = AST_PACKAGE ->
  o ∈ children pkg ->
  type o = AST_TYPEDEF \/ type o = AST_PARAMETER \/ type o = AST_LOCALPARAM ->
  str o = String first bare ->
  is_Some (current_scope st' !! str o) /\
  is_Some (current_scope st' !! (str pkg +:+ "::" +:+ bare)) /\
  forall x, is_Some (current_scope st !! x) -> is_Some (current_scope st' !! x).
Proof.
  unfold setup_current_scope. intros Hrun Hpkg Htype Ho Hdecl Hstr. revert Hrun.
  destruct (fold_result import_top_node _ _) as [scope|] eqn:Ef; [|done]. norm.
  destruct (log_assert _ _); [|done]. norm. intros [= <-]. cbn [current_scope].
  split; [|split]; [| |intros x; by eapply import_top_nodes_keep].
  all: apply elem_of_map_to_list in Hpkg.
  all: apply list_elem_of_split in Hpkg as (l1 & l2 & Hl).
  all: rewrite Hl, fold_result_app in Ef.
  all: destruct (fold_result import_top_node l1 _) as [sc1|]; [|done].
  all: cbn [mbind result_bind fold_result] in Ef.
  all: destruct (import_top_node sc1 (name, Some pkg)) as [sc2|] eqn:Epkg; [|done].
  all: cbn [mbind result_bind] in Ef.
  all: apply (import_top_nodes_keep l2 sc2 scope _ Ef).
  all: revert Epkg; unfold import_top_node; cbn [snd];
    rewrite (bool_decide_eq_true_2 _ Htype).
  all: apply list_elem_of_split in Ho as (c1 & c2 & ->).
  all: rewrite fold_result_app.
  all: destruct (fold_result _ c1 sc1) as [sa|]; [|done].
  all: cbn [mbind result_bind fold_result].
  all: destruct (import_package_child (str pkg) sa o) as [sb|] eqn:Eo; [|done].
  all: cbn [mbind result_bind]; intros Erest.
  all: apply (import_package_children_keep (str pkg) c2 sb sc2 _ Erest).
  all: revert Eo; unfold import_package_child.
  all: replace (bool_decide (type o = AST_TYPEDEF) || bool_decide (type o = AST_PARAMETER)
                || bool_decide (type o = AST_LOCALPARAM)) with true
    by (symmetry; destruct Hdecl as [-> | [-> | ->]]; reflexivity).
  all: rewrite Hstr; cbn [substr1]; norm; intros [= <-].
  - rewrite lookup_insert_eq. eauto.
  - destruct (decide (String first bare = str pkg +:+ "::" +:+ bare)) as [<-|Hne];
      [rewrite lookup_insert_eq; eauto|].
    rewrite lookup_insert_ne by done. rewrite lookup_insert_eq. eauto.
Qed.

Lemma setup_current_scope_imports_witness :
  let P := set_str "\P" (new_AstNode AST_PARAMETER [mkconst_int 8 32]) in
  let pkg := set_str "\pkg" (new_AstNode AST_PACKAGE [P]) in
  let top := set_str "\top" (new_AstNode AST_MODULE []) in
  let top_nodes : gmap string (option AstNode) :=
    {[ "\pkg" := Some pkg; "\top" := Some top ]} in
  let st := mkAstInternal ∅ None in
  let st' := mkAstInternal {[ "\P" := P; "\pkg::P" := P ]} (Some top) in
  is_Some (current_scope st' !! str P) /\
  is_Some (current_scope st' !! (str pkg +:+ "::" +:+ "P")) /\
  forall x, is_Some (current_scope st !! x) -> is_Some (current_scope st' !! x).
Proof.
  intros P pkg top top_nodes st st'.
  apply (setup_current_scope_imports top_nodes (Some top) st st' "\pkg" pkg P
           "\"%char "P").
  - vm_compute. reflexivity.
  - reflexivity.
  - reflexivity.
  - apply elem_of_cons. by left.
  - right. by left.
  - reflexivity.
Defined.

(** ** The lowering pass on references *)

Section SimplifyReferences.
Variable ast_simplify : AstInternal -> AstNode -> AstNode.

(** X24.  A reference with a field access to a name that is not in scope is no
    error: [simplify] folds the field into the name ([name.field]), drops the
    children and leaves the scope as it is. *)
Theorem simplify_unknown_dotted_reference (fuel : nat) (node dot : AstNode)
    (parent : option AstNode) (st : AstInternal) (first : ascii) (field : string) :
  type node = AST_IDENTIFIER ->
  find (fun c => bool_decide (type c = AST_DOT)) (children node) = Some dot ->
  str dot = String first field ->
  current_scope st !! str node = None ->
  simplify ast_simplify (S fuel) node parent st
  = (Ok (set_children [] (set_str (str node +:+ "." +:+ field) node)), st).
Proof.
  intros Htype Hdot Hstr Hscope. cbn [simplify]. unfold simplify_dot.
  rewrite Hdot, Hscope, Hstr. cbn [substr1]. norm.
  destruct node as [t s cs at_ bs i rl rr rs ii io bp md ms i2].
  cbn in Htype. subst t. reflexivity.
Qed.

Lemma simplify_step fuel current_node parent st :
  simplify ast_simplify (S fuel) current_node parent st
  = match simplify_dot current_node st with
    | Abort e => (Abort e, st)
    | Ok current_node =>
        match simplify_children
                (fun c => simplify ast_simplify fuel c (Some current_node))
                (children current_node) st with
        | (Abort e, st) => (Abort e, st)
        | (Ok cs, st) =>
            simplify_switch ast_simplify (set_children cs current_node) parent st
        end
    end.
Proof. reflexivity. Qed.

Lemma simplify_constant fuel v w parent st :
  simplify ast_simplify (S fuel) (mkconst_int v w) parent st
  = (Ok (mkconst_int v w), st).
Proof. reflexivity. Qed.

Lemma simplify_index_selector fuel x parent st :
  simplify ast_simplify (S (S fuel)) (index_selector x) parent st
  = (Ok (index_selector x), st).
Proof. reflexivity. Qed.

Lemma simplify_index_selectors fuel parent xs st :
  simplify_children (fun c => simplify ast_simplify (S (S fuel)) c parent)
                    (index_selector <$> xs) st
  = (Ok (index_selector <$> xs), st).
Proof.
  induction xs as [|x xs IH]; [done|].
  cbn [fmap list_fmap simplify_children]. rewrite simplify_index_selector.
  change (list_fmap Z AstNode index_selector xs) with (index_selector <$> xs).
  by rewrite IH.
Qed.

Lemma find_dot_index_selectors xs :
  find (fun c => bool_decide (type c = AST_DOT)) (index_selector <$> xs) = None.
Proof. induction xs as [|x xs IH]; [done|]. exact IH. Qed.

(** X25.  For an identifier with constant index selectors whose declaration in
    scope records at least two ranges, [simplify] leaves the selectors as
    they are, hands the identifier to [convert_range] and replaces the
    selectors by the range it returns, marking the identifier as prepared;
    when [convert_range] fails the run ends. *)
Theorem simplify_rewrites_indexed_access (fuel : nat) (name : string) (xs : list Z)
    (parent : option AstNode) (st : AstInternal) (wire : AstNode) :
  let packed := attribute_children wire ID.packed_ranges in
  let unpacked := attribute_children wire ID.unpacked_ranges in
  is_Some (current_ast_mod st) ->
  current_scope st !! name = Some wire ->
  is_declaration_type (type wire) = true ->
  (2 <= length packed + length unpacked)%nat ->
  xs <> [] ->
  simplify ast_simplify (S (S (S fuel))) (access name xs) parent st
  = match convert_range st (access name xs) packed unpacked 0 with
    | Ok range =>
        (Ok (set_children [range] (set_basic_prep true (access name xs))), st)
    | Abort e => (Abort e, st)
    end.
Proof.
  intros packed unpacked [top Hmod] Hscope Hdecl Hlen Hne.
  rewrite simplify_step. unfold simplify_dot.
  change (children (access name xs)) with (index_selector <$> xs).
  rewrite find_dot_index_selectors. cbv beta iota.
  change (children (access name xs)) with (index_selector <$> xs).
  rewrite (simplify_index_selectors fuel (Some (access name xs)) xs st).
  change (set_children (index_selector <$> xs) (access name xs)) with (access name xs).
  unfold simplify_switch.
  change (type (access name xs)) with AST_IDENTIFIER. cbv beta iota.
  change (children (access name xs)) with (index_selector <$> xs).
  change (basic_prep (access name xs)) with false.
  change (str (access name xs)) with name.
  rewrite bool_decide_eq_false_2 by (by destruct xs). cbn [negb andb].
  rewrite Hmod, Hscope, Hdecl. fold packed unpacked.
  replace (bool_decide (packed = []) && bool_decide (unpacked = [])) with false
    by (destruct packed, unpacked; try done; simpl in Hlen; lia).
  replace (length packed + length unpacked =? 1)%nat with false
    by (symmetry; apply Nat.eqb_neq; lia).
  reflexivity.
Qed.

End SimplifyReferences.

Lemma simplify_unknown_dotted_reference_witness :
  simplify already_folded 1
    (set_str "\u1" (new_AstNode AST_IDENTIFIER [field_path "ready"])) None
    (lowering_state ∅)
  = (Ok (set_children []
           (set_str ("\u1" +:+ "." +:+ "ready")
              (set_str "\u1" (new_AstNode AST_IDENTIFIER [field_path "ready"])))),
     lowering_state ∅).
Proof.
  apply (simplify_unknown_dotted_reference already_folded 0
           (set_str "\u1" (new_AstNode AST_IDENTIFIER [field_path "ready"]))
           (field_path "ready") None (lowering_state ∅) "\"%char "ready");
    reflexivity.
Defined.

Lemma simplify_rewrites_indexed_access_witness :
  let wire := set_multirange [0; 2; 0; 4] [false; false]
                (declaration "\x" [make_range 3 0; make_range 1 0] []) in
  let st := lowering_state {[ "\x" := wire ]} in
  simplify already_folded 3 (access "\x" [2; 1]) None st
  = match convert_range st (access "\x" [2; 1])
            (attribute_children wire ID.packed_ranges)
            (attribute_children wire ID.unpacked_ranges) 0 with
    | Ok range =>
        (Ok (set_children [range] (set_basic_prep true (access "\x" [2; 1]))), st)
    | Abort e => (Abort e, st)
    end.
Proof.
  intros wire st.
  apply (simplify_rewrites_indexed_access already_folded 0 "\x" [2; 1] None st wire).
  - eexists; reflexivity.
  - reflexivity.
  - reflexivity.
  - vm_compute. lia.
  - discriminate.
Defined.

(** X26.  For an identifier [s.f] whose declaration in scope is a struct or a
    wire of a struct type and whose field [f] is a struct item, [simplify]
    replaces the field access by the range [[left : right]] of the item and
    marks the identifier as prepared. *)
Theorem simplify_rewrites_field_access
    (ast_simplify : AstInternal -> AstNode -> AstNode) (fuel : nat)
    (node dot wire struct_node item : AstNode) (parent : option AstNode)
    (st : AstInternal) :
  type node = AST_IDENTIFIER ->
  children node = [dot] ->
  type dot = AST_DOT ->
  children dot = [] ->
  current_scope st !! str node = Some wire ->
  (type wire = AST_STRUCT /\ struct_node = wire) \/
  (type wire <> AST_STRUCT /\
   exists attr, attributes wire !! ID.wiretype = Some attr /\
                id2ast attr = Some struct_node) ->
  find (fun member => bool_decide (str member = strip_backslash (str dot)))
       (children struct_node) = Some item ->
  type item = AST_STRUCT_ITEM ->
  simplify ast_simplify (S (S (S fuel))) node parent st
  = (Ok (set_basic_prep true
           (set_children
              [new_AstNode AST_RANGE
                 [mkconst_int (range_left item) 32; mkconst_int (range_right item) 32]]
              node)),
     st).
Proof.
  intros Htype Hch Hdot Hleaf Hscope Hstruct Hfind Hitem.
  assert (Hexp : expand_dot struct_node dot
                 = Ok (new_AstNode AST_RANGE
                         [mkconst_int (range_left item) 32;
                          mkconst_int (range_right item) 32])).
  { destruct dot as [t s cs at_ bs i rl rr rs ii io bp md ms i2].
    cbn [str children] in Hfind, Hleaf. subst cs.
    cbn [expand_dot]. rewrite Hfind. unfold struct_elem_bounds.
    by rewrite (bool_decide_eq_true_2 _ Hitem). }
  assert (Hconv : convert_dot wire node dot
                  = Ok (new_AstNode AST_RANGE
                          [mkconst_int (range_left item) 32;
                           mkconst_int (range_right item) 32])).
  { unfold convert_dot.
    assert (Hs : (if bool_decide (type wire = AST_STRUCT) then Ok wire
                  else match attributes wire !! ID.wiretype with
                       | Some a0 =>
                           match id2ast a0 with
                           | Some s => Ok s
                           | None =>
                               Abort (AssertionFailed
                                        "wire_node->attributes[ID::wiretype]->id2ast")
                           end
                       | None => Abort (AssertionFailed "struct_node")
                       end) = Ok struct_node).
    { destruct Hstruct as [[Ht ->]|[Ht (attr & Hattr & Hid)]].
      - by rewrite bool_decide_eq_true_2.
      - rewrite bool_decide_eq_false_2 by done. by rewrite Hattr, Hid. }
    rewrite Hs. norm. rewrite Hexp. norm. rewrite Hch.
    cbn [vector_at lookup list_lookup]. norm. rewrite Hdot.
    by rewrite bool_decide_eq_false_2. }
  rewrite simplify_step. unfold simplify_dot. rewrite Hch. cbn [find].
  rewrite (bool_decide_eq_true_2 _ Hdot), Hscope, Hconv. norm. cbv beta iota.
  destruct node as [t s cs at_ bs i rl rr rs ii io bp md ms i2].
  cbn in Htype. subst t. reflexivity.
Qed.

(** For a wire [s] of the struct type [{a:[7:0]; b:[3:0]}], [s.a] becomes
    [s[11:4]]. *)
Lemma simplify_rewrites_field_access_witness :
  let struct_node := packed_struct [("a", 8); ("b", 4)] in
  let wire :=
    set_attributes
      {[ ID.wiretype := set_id2ast (Some struct_node) (mkconst_str "\s") ]}
      (set_str "\s" (new_AstNode AST_WIRE [])) in
  let node := set_str "\s" (new_AstNode AST_IDENTIFIER [field_path "a"]) in
  simplify already_folded 3 node None (lowering_state {[ "\s" := wire ]})
  = (Ok (set_basic_prep true
           (set_children
              [new_AstNode AST_RANGE [mkconst_int 11 32; mkconst_int 4 32]] node)),
     lowering_state {[ "\s" := wire ]}).
Proof.
  intros struct_node wire node.
  apply (simplify_rewrites_field_access already_folded 0 node (field_path "a") wire
           struct_node (struct_item "a" 11 4) None (lowering_state {[ "\s" := wire ]})).
  - reflexivity.
  - reflexivity.
  - reflexivity.
  - reflexivity.
  - reflexivity.
  - right. split; [discriminate|]. eexists. split; reflexivity.
  - reflexivity.
  - reflexivity.
Defined.

(** ** The design node *)

Section Design.
Variable ast_simplify : AstInternal -> AstNode -> AstNode.

(** Lowering a unit rewrites the registry at the unit's own name only. *)
Lemma lower_unit_elsewhere fuel name node top_nodes st lowered registry after other :
  lower_unit ast_simplify fuel name node (top_nodes, st) = Ok (lowered, registry, after) ->
  other <> name ->
  registry !! other = top_nodes !! other.
Proof.
  intros Hrun Hne. apply lower_unit_returns in Hrun as [-> _].
  by rewrite lookup_insert_ne.
Qed.

(** X27.  [process_design] deletes a module flagged partial and leaves its
    entry in the registry.  When the iteration over the registry comes to
    another module (not a package, not partial) after that, the scope
    set-up for it reads the deleted node: whatever the other entries are,
    [process_design] does not return a design. *)
Theorem process_design_reads_deleted_module (fuel : nat)
    (top_nodes : gmap string (option AstNode)) (st : AstInternal)
    (before between after : list string) (p m : string) (P M : AstNode) :
  (map_to_list top_nodes).*1 = before ++ p :: between ++ m :: after ->
  top_nodes !! p = Some (Some P) ->
  type P <> AST_PACKAGE ->
  get_bool_attribute P ID.partial = true ->
  top_nodes !! m = Some (Some M) ->
  type M <> AST_PACKAGE ->
  get_bool_attribute M ID.partial = false ->
  exists f, process_design ast_simplify fuel top_nodes st = Abort f.
Proof.
  intros Hnames Hp HP Hpartial Hm HM Hplain.
  assert (Hdup : NoDup (before ++ p :: between ++ m :: after)).
  { rewrite <- Hnames. apply NoDup_fst_map_to_list. }
  apply NoDup_app in Hdup as (_ & Hbefore & _).
  unfold process_design. rewrite Hnames.
  match goal with |- context [fold_result ?f _ (top_nodes, st)] => set (f1 := f) end.
  destruct (fold_result f1 _ (top_nodes, st)) as [[top1 st1]|] eqn:E1;
    [|by eexists].
  norm.
  assert (Hkept : top1 !! p = Some (Some P) /\ top1 !! m = Some (Some M)).
  { refine (fold_result_invariant
              (fun s : gmap string (option AstNode) * AstInternal =>
                 s.1 !! p = Some (Some P) /\ s.1 !! m = Some (Some M))
              f1 _ _ (top_nodes, st) (top1, st1) (conj Hp Hm) E1).
    intros [t s] name [t' s'] [Hp' Hm']. subst f1. cbn [fst] in *.
    destruct (t !! name) as [[node|]|] eqn:El; try (by intros [= <- <-]).
    case_bool_decide as Hpkg; [|by intros [= <- <-]].
    destruct (lower_unit _ _ _ _ _) as [[[n2 t2] s2]|] eqn:El2; [|done]. norm.
    intros [= <- <-].
    rewrite !(lower_unit_elsewhere _ _ _ _ _ _ _ _ _ El2); [done| |];
      intros ->; congruence. }
  clear E1 f1.
  match goal with |- context [fold_result ?f _ ([], top1, [], st1)] => set (f2 := f) end.
  enough (H : exists f, fold_result f2 (before ++ p :: between ++ m :: after)
                          ([], top1, [], st1) = Abort f).
  { destruct H as [f ->]. by exists f. }
  rewrite fold_result_app.
  destruct (fold_result f2 before _) as [[[[dc t] del] s]|] eqn:E2; [|by eexists].
  assert (Hkept2 : t !! p = Some (Some P) /\ t !! m = Some (Some M)).
  { refine (fold_result_invariant_in
              (fun acc : list AstNode * gmap string (option AstNode) * list string
                         * AstInternal =>
                 acc.1.1.2 !! p = Some (Some P) /\ acc.1.1.2 !! m = Some (Some M))
              f2 before _ ([], top1, [], st1) (dc, t, del, s) Hkept E2).
    intros [[[dc0 t0] del0] s0] name [[[dc' t'] del'] s'] Hin [Hp' Hm'].
    subst f2. cbn [fst snd] in *.
    destruct (t0 !! name) as [[node|]|] eqn:El; try (by intros [= <- <- <- <-]).
    destruct (get_bool_attribute node ID.partial); cbn [negb];
      [by intros [= <- <- <- <-]|].
    case_bool_decide as Hpkg; [by intros [= <- <- <- <-]|].
    case_bool_decide as Hdel.
    - destruct (lower_unit _ _ _ _ _) as [[[n2 t2] s2]|] eqn:El2; [|done]. norm.
      intros [= <- <- <- <-].
      rewrite !(lower_unit_elsewhere _ _ _ _ _ _ _ _ _ El2); [done| |];
        intros Heq; apply (Hbefore name Hin); rewrite <- Heq;
        first [ by (apply elem_of_cons; left)
              | apply elem_of_cons; right; apply elem_of_app; right;
                apply elem_of_cons; by left ].
    - by destruct (check_memories node). }
  destruct Hkept2 as [Hp2 Hm2].
  cbn [mbind result_bind fold_result]. subst f2. cbn beta iota.
  cbn [fst snd]. rewrite Hp2, Hpartial. cbn [negb]. norm.
  match goal with |- context [fold_result ?f _ _] => set (f2 := f) end.
  rewrite fold_result_app.
  destruct (fold_result f2 between _) as [[[[dc3 t3] del3] s3]|] eqn:E3; [|by eexists].
  assert (Hkept3 : t3 !! m = Some (Some M) /\ del3 <> []).
  { refine (fold_result_invariant
              (fun acc : list AstNode * gmap string (option AstNode) * list string
                         * AstInternal =>
                 acc.1.1.2 !! m = Some (Some M) /\ acc.1.2 <> [])
              f2 between _ (dc, t, del ++ [p], s) (dc3, t3, del3, s3) _ E3).
    - intros [[[dc0 t0] del0] s0] name [[[dc' t'] del'] s'] [Hm' Hdel'].
      subst f2. cbn [fst snd] in *.
      destruct (t0 !! name) as [[node|]|] eqn:El; try (by intros [= <- <- <- <-]).
      destruct (get_bool_attribute node ID.partial); cbn [negb].
      + intros [= <- <- <- <-]. split; [done|]. by destruct del0.
      + case_bool_decide as Hpkg; [by intros [= <- <- <- <-]|].
        rewrite (bool_decide_eq_false_2 _ Hdel').
        by destruct (check_memories node).
    - cbn [fst snd]. split; [done|]. by destruct del. }
  destruct Hkept3 as [Hm3 Hdel3].
  cbn [mbind result_bind fold_result]. subst f2. cbn beta iota.
  rewrite Hm3, Hplain. cbn [negb].
  rewrite (bool_decide_eq_false_2 _ HM), (bool_decide_eq_false_2 _ Hdel3).
  destruct (check_memories M); norm; by eexists.
Qed.

End Design.

(** A placeholder for a module without definition, visited before the top
    module. *)
Lemma process_design_reads_deleted_module_witness :
  let top := set_str "\top" (new_AstNode AST_MODULE []) in
  let unused := set_attributes {[ ID.partial := mkconst_int 2 1 ]}
                  (set_str "\m" (new_AstNode AST_MODULE [])) in
  let top_nodes : gmap string (option AstNode) :=
    {[ "\top" := Some top; "\m" := Some unused ]} in
  exists f, process_design already_folded 4 top_nodes (mkAstInternal ∅ None) = Abort f.
Proof.
  intros top unused top_nodes.
  apply (process_design_reads_deleted_module already_folded 4 top_nodes
           (mkAstInternal ∅ None) [] [] [] "\m" "\top" unused top).
  - vm_compute. reflexivity.
  - reflexivity.
  - discriminate.
  - reflexivity.
  - reflexivity.
  - discriminate.
  - reflexivity.
Defined.

(** ** Instances without a specialization *)

Lemma string_app_inj (a b c : string) : a +:+ b = a +:+ c -> b = c.
Proof.
  induction a as [|x a IH]; [done|].
  change (String x a +:+ b) with (String x (a +:+ b)).
  change (String x a +:+ c) with (String x (a +:+ c)).
  intros [= H]. by apply IH.
Qed.

Section Instances.
Variable ast_simplify : AstInternal -> AstNode -> AstNode.
Variable sha1 : string -> string.

(** X28.  For parameter texts of at most 60 characters the derived module name
    determines the text: two such texts that give the same name for one
    module type are equal, whatever the digest function is. *)
Theorem derive_module_name_short_injective (type_name text1 text2 : string) :
  (String.length text1 <= 60)%nat ->
  (String.length text2 <= 60)%nat ->
  derive_module_name sha1 type_name text1 = derive_module_name sha1 type_name text2 ->
  text1 = text2.
Proof.
  intros H1 H2.
  destruct (decide (text1 = "")) as [->|Hne1]; destruct (decide (text2 = "")) as [->|Hne2].
  - done.
  - intros E. symmetry in E. by apply derive_module_name_fresh in E.
  - intros E. by apply derive_module_name_fresh in E.
  - unfold derive_module_name.
    replace (60 <? String.length text1)%nat with false
      by (symmetry; apply Nat.ltb_ge; lia).
    replace (60 <? String.length text2)%nat with false
      by (symmetry; apply Nat.ltb_ge; lia).
    rewrite !bool_decide_eq_false_2 by done. cbn [negb].
    intros E. apply string_app_inj in E. by apply string_app_inj in E.
Qed.

Lemma collect_unregistered type_name sh assigns : forall text st,
  top_nodes sh !! type_name = None ->
  Forall has_value assigns ->
  fold_result (collect_parameter ast_simplify type_name sh) assigns (text, st)
  = Ok (text, st).
Proof.
  induction assigns as [|a assigns IH]; intros text st Hfree Hval; [done|].
  apply Forall_cons in Hval as [Ha Hval]. cbn [fold_result].
  destruct a as [node|]; cbn [collect_parameter]; [|by apply IH].
  case_bool_decide as Ht; [|by apply IH].
  destruct (children node) as [|value rest] eqn:Hch; [by destruct (Ha Ht)|].
  cbn [vector_at lookup list_lookup]. norm. rewrite Hfree.
  destruct (negb (bool_decide (type value = AST_CONSTANT))); norm; by apply IH.
Qed.

(** X29.  An instance of a module type that is not in the registry registers a
    placeholder module under the type name (attribute [partial] = 2, no
    children), sets the cell-instance flag to 1 and leaves the parameter
    assignments out of the name. *)
Theorem instance_of_unregistered_module (type_name : string)
    (assigns : list (option AstNode)) (cell_instance : Z)
    (sh : Shared) (st : AstInternal) :
  top_nodes sh !! type_name = None ->
  Forall has_value assigns ->
  process_module_instance ast_simplify sha1 type_name assigns cell_instance (sh, st)
  = Ok (mkInstanceHead (length (heap sh)) type_name "" 1,
        mkShared (<[type_name := Some (length (heap sh))]> (top_nodes sh))
                 (heap sh ++ [placeholder_module type_name])
                 (current_top_node sh),
        st).
Proof.
  intros Hfree Hval. unfold process_module_instance.
  rewrite (collect_unregistered type_name sh assigns "" st Hfree Hval). norm.
  change (derive_module_name sha1 type_name "") with type_name.
  unfold lookup_or_null. rewrite Hfree, lookup_insert_eq.
  cbn [negb bool_decide decide_rel]. unfold alloc.
  rewrite bool_decide_eq_true_2 by done. cbn [negb]. norm.
  unfold vector_at. rewrite lookup_app_r by lia. rewrite Nat.sub_diag.
  cbn [lookup list_lookup]. norm.
  rewrite insert_insert_eq.
  rewrite insert_app_r_alt by lia. rewrite Nat.sub_diag. reflexivity.
Qed.

(** X30.  The registration step binds an instance whose parameter assignments
    contribute no text to the generic module itself: the module of the
    instance is the generic module's own address, nothing is cloned or
    renamed, and the shared state is as it was before the step.  (The
    branch goes on to write attributes and children to that module; those
    writes are not part of [process_module_instance].) *)
Theorem instance_with_default_parameters (type_name : string)
    (assigns : list (option AstNode)) (cell_instance : Z)
    (sh : Shared) (st : AstInternal) (g : nat) (generic : AstNode) :
  top_nodes sh !! type_name = Some (Some g) ->
  heap sh !! g = Some generic ->
  str generic = type_name ->
  Forall resolved_assign assigns ->
  parameters_text assigns = "" ->
  process_module_instance ast_simplify sha1 type_name assigns cell_instance (sh, st)
  = Ok (mkInstanceHead g type_name "" cell_instance, sh, st).
Proof.
  intros Hg Hgen Hstr Hres Htext.
  pose proof (instantiate_registered ast_simplify sha1 type_name assigns cell_instance
                sh st (Some g) g generic) as H.
  cbn zeta in H. rewrite Htext in H.
  change (derive_module_name sha1 type_name "") with type_name in H.
  by apply H.
Qed.

End Instances.

Lemma derive_module_name_short_injective_witness :
  "\W=32'd8" = "\W=32'd8".
Proof.
  apply (derive_module_name_short_injective no_digest "\M" "\W=32'd8" "\W=32'd8").
  - vm_compute. lia.
  - vm_compute. lia.
  - reflexivity.
Defined.

Lemma instance_of_unregistered_module_witness :
  process_module_instance already_folded no_digest "\M"
    [Some (integer_parameter "\W" 8 32)] 0
    (mkShared ∅ [] None, mkAstInternal ∅ None)
  = Ok (mkInstanceHead 0 "\M" "" 1,
        mkShared (<["\M" := Some 0%nat]> ∅) ([] ++ [placeholder_module "\M"]) None,
        mkAstInternal ∅ None).
Proof.
  apply (instance_of_unregistered_module already_folded no_digest "\M"
           [Some (integer_parameter "\W" 8 32)] 0
           (mkShared ∅ [] None) (mkAstInternal ∅ None)).
  - reflexivity.
  - repeat constructor. discriminate.
Defined.

Lemma instance_with_default_parameters_witness :
  let M := set_str "\M" (new_AstNode AST_MODULE [integer_parameter "\W" 4 32]) in
  let sh := mkShared {[ "\M" := Some 0%nat ]} [M] None in
  process_module_instance already_folded no_digest "\M" [] 0
    (sh, mkAstInternal ∅ None)
  = Ok (mkInstanceHead 0 "\M" "" 0, sh, mkAstInternal ∅ None).
Proof.
  intros M sh.
  apply (instance_with_default_parameters already_folded no_digest "\M" [] 0
           sh (mkAstInternal ∅ None) 0%nat M); try reflexivity.
  constructor.
Defined.
